(** * csesh: session classifier, language guess, scanner, scan cache
      and trash journal

    A shallow embedding of the core of csesh (lib/classifier.js,
    lib/analyzer.js, lib/scanner.js, lib/cache.js, lib/cleanup.js, the
    helpers of lib/utils.js and the lookup of the trash commands of
    bin/csesh.js), followed by the properties proved about it.  Part I
    holds the definitions, Part II the lemmas. *)

From Stdlib Require Import ZArith NArith QArith Ascii String List Bool Lia.
From stdpp Require Import base option list gmap.

Local Open Scope Z_scope.

(** * Part I: the embedding *)

(** ** JavaScript strings and numbers *)

Module Js.

(** A JavaScript string is a sequence of UTF-16 code units. *)
Definition jsstring := list N.

(** Source literals are written as Rocq strings, which are UTF-8 byte
    sequences; [js] decodes them to code units (one-, two- and three-byte
    sequences, which covers every literal of the program). *)
Fixpoint bytes_of (s : string) : list N :=
  match s with
  | EmptyString => []
  | String a s' => N_of_ascii a :: bytes_of s'
  end.

Fixpoint utf8_decode (bs : list N) : jsstring :=
  match bs with
  | [] => []
  | b0 :: r0 =>
      if (b0 <? 128)%N then b0 :: utf8_decode r0
      else match r0 with
           | [] => [b0]
           | b1 :: r1 =>
               if (b0 <? 224)%N
               then ((b0 mod 32) * 64 + b1 mod 64)%N :: utf8_decode r1
               else match r1 with
                    | [] => [b0; b1]
                    | b2 :: r2 =>
                        ((b0 mod 16) * 4096 + (b1 mod 64) * 64 + b2 mod 64)%N
                          :: utf8_decode r2
                    end
           end
  end.

Definition js (s : string) : jsstring := utf8_decode (bytes_of s).
Arguments js : simpl never.

Definition str_eqb (a b : jsstring) : bool := bool_decide (a = b).

(** [s.startsWith(p)] *)
Fixpoint startsWith (s p : jsstring) : bool :=
  match p, s with
  | [], _ => true
  | c :: p', d :: s' => (c =? d)%N && startsWith s' p'
  | _ :: _, [] => false
  end.

(** [s.includes(p)] *)
Fixpoint includes (s p : jsstring) : bool :=
  startsWith s p ||
  match s with
  | [] => false
  | _ :: s' => includes s' p
  end.

(** [s.replace(p, r)] with a string pattern: the first occurrence only. *)
Fixpoint replace_first (s p r : jsstring) : jsstring :=
  if startsWith s p then r ++ drop (length p) s
  else match s with
       | [] => []
       | c :: s' => c :: replace_first s' p r
       end.

(** White space as [String.prototype.trim] and the regular expression
    class [\s] see it. *)
Definition isWhiteSpace (c : N) : bool :=
  ((9 <=? c) && (c <=? 13) || (c =? 32) || (c =? 160) || (c =? 5760)
   || (8192 <=? c) && (c <=? 8202) || (c =? 8232) || (c =? 8233)
   || (c =? 8239) || (c =? 8287) || (c =? 12288) || (c =? 65279))%N.

Fixpoint trimStart (s : jsstring) : jsstring :=
  match s with
  | c :: s' => if isWhiteSpace c then trimStart s' else s
  | [] => []
  end.

Definition trim (s : jsstring) : jsstring :=
  reverse (trimStart (reverse (trimStart s))).

(** The word class [\w] of a regular expression without the [u] flag. *)
Definition isWordChar (c : N) : bool :=
  ((48 <=? c) && (c <=? 57) || (65 <=? c) && (c <=? 90) || (c =? 95)
   || (97 <=? c) && (c <=? 122))%N.

(** Canonicalisation of a code unit under the [i] flag (no [u] flag):
    upper-casing, kept only when it stays within one code unit and does
    not turn a non-ASCII unit into an ASCII one.  The table is exact on
    ASCII and Latin-1, the range the program's patterns are written in. *)
Definition canonicalize (c : N) : N :=
  (if (97 <=? c) && (c <=? 122) then c - 32
   else if (224 <=? c) && (c <=? 254) && negb (c =? 247) then c - 32
   else c)%N.

(** A number-valued property as a comparison sees it: [undefined], [null],
    [NaN] or an integer. *)
Inductive jsnum := Undefined | Null | NaN | Num (z : Z).

(** [ToNumber]; [None] stands for NaN. *)
Definition toNumber (v : jsnum) : option Z :=
  match v with
  | Undefined | NaN => None
  | Null => Some 0
  | Num z => Some z
  end.

Definition cmp (op : Z -> Z -> bool) (a b : jsnum) : bool :=
  match toNumber a, toNumber b with
  | Some x, Some y => op x y
  | _, _ => false
  end.

Definition num_lt := cmp Z.ltb.
Definition num_le := cmp Z.leb.
Definition num_gt := cmp Z.gtb.
Definition num_ge := cmp Z.geb.

(** [a === k] for a number literal [k] *)
Definition strict_eq (a : jsnum) (k : Z) : bool :=
  match a with
  | Num z => z =? k
  | _ => false
  end.

(** [a || 0] *)
Definition or_zero (a : jsnum) : jsnum :=
  match a with
  | Num z => Num z
  | _ => Num 0
  end.

(** [a + b] on number-valued operands *)
Definition add (a b : jsnum) : jsnum :=
  match toNumber a, toNumber b with
  | Some x, Some y => Num (x + y)
  | _, _ => NaN
  end.

(** [v != null] *)
Definition not_nullish (v : jsnum) : bool :=
  match v with
  | Undefined | Null => false
  | _ => true
  end.

(** [s.split(sep)] for a separator of one code unit *)
Fixpoint split (sep : N) (s : jsstring) : list jsstring :=
  match s with
  | [] => [[]]
  | c :: s' =>
      if (c =? sep)%N then [] :: split sep s'
      else match split sep s' with
           | l :: ls => (c :: l) :: ls
           | [] => [[c]]
           end
  end.

(** [ls.join(sep)] *)
Fixpoint join_with (sep : jsstring) (ls : list jsstring) : jsstring :=
  match ls with
  | [] => []
  | [l] => l
  | l :: ls' => l ++ sep ++ join_with sep ls'
  end.

(** [s.slice(0, e)] *)
Definition slice0 (s : jsstring) (e : Z) : jsstring :=
  if e <? 0 then take (Z.to_nat (Z.of_nat (length s) + e)) s
  else take (Z.to_nat e) s.

End Js.

(** ** Regular expressions of lib/utils.js

    The junk patterns are all of the shape [/^r$/], some with the [i]
    flag; [test] decides them by derivatives. *)

Module Regex.
Import Js.

Inductive regex :=
| Never
| Eps
| Chr (c : N)
| Space
| Cat (r1 r2 : regex)
| Alt (r1 r2 : regex)
| Star (r : regex).

Definition Opt (r : regex) : regex := Alt r Eps.

Definition lit (s : jsstring) : regex := foldr (fun c r => Cat (Chr c) r) Eps s.

Fixpoint nullable (r : regex) : bool :=
  match r with
  | Never | Chr _ | Space => false
  | Eps | Star _ => true
  | Cat r1 r2 => nullable r1 && nullable r2
  | Alt r1 r2 => nullable r1 || nullable r2
  end.

Fixpoint deriv (ci : bool) (a : N) (r : regex) : regex :=
  match r with
  | Never | Eps => Never
  | Chr c =>
      if (if ci then canonicalize c =? canonicalize a else c =? a)%N
      then Eps else Never
  | Space => if isWhiteSpace a then Eps else Never
  | Cat r1 r2 =>
      if nullable r1
      then Alt (Cat (deriv ci a r1) r2) (deriv ci a r2)
      else Cat (deriv ci a r1) r2
  | Alt r1 r2 => Alt (deriv ci a r1) (deriv ci a r2)
  | Star r1 => Cat (deriv ci a r1) (Star r1)
  end.

(** [/^r$/.test(s)], with the [i] flag when [ci] *)
Definition test (ci : bool) (r : regex) (s : jsstring) : bool :=
  nullable (fold_left (fun r a => deriv ci a r) s r).

(** What a pattern accepts: [matches ci r s] when the whole of [s]
    matches [r], ignoring case when [ci]. *)
Inductive matches (ci : bool) : regex -> jsstring -> Prop :=
| matches_eps : matches ci Eps []
| matches_chr c a :
    (if ci then canonicalize c =? canonicalize a else c =? a)%N = true ->
    matches ci (Chr c) [a]
| matches_space a : isWhiteSpace a = true -> matches ci Space [a]
| matches_cat r1 r2 s1 s2 :
    matches ci r1 s1 -> matches ci r2 s2 -> matches ci (Cat r1 r2) (s1 ++ s2)
| matches_alt_l r1 r2 s : matches ci r1 s -> matches ci (Alt r1 r2) s
| matches_alt_r r1 r2 s : matches ci r2 s -> matches ci (Alt r1 r2) s
| matches_star_nil r : matches ci (Star r) []
| matches_star_cons r s1 s2 :
    matches ci r s1 -> matches ci (Star r) s2 -> matches ci (Star r) (s1 ++ s2).

(** The form in which code units are compared. *)
Definition norm (ci : bool) (c : N) : N := if ci then canonicalize c else c.

(** A pattern without a star and without a class accepts finitely many
    texts, up to case when the case is ignored; [lang] lists them in
    their normal form. *)
Fixpoint finite (r : regex) : bool :=
  match r with
  | Never | Eps | Chr _ => true
  | Space | Star _ => false
  | Cat r1 r2 | Alt r1 r2 => finite r1 && finite r2
  end.

Fixpoint lang (ci : bool) (r : regex) : list jsstring :=
  match r with
  | Never | Space | Star _ => []
  | Eps => [[]]
  | Chr c => [[norm ci c]]
  | Cat r1 r2 => x ← lang ci r1; (fun y => x ++ y) <$> lang ci r2
  | Alt r1 r2 => lang ci r1 ++ lang ci r2
  end.

End Regex.

(** ** lib/utils.js: junk messages *)

Module Utils.
Import Js Regex.

Definition JUNK_PATTERNS : list (regex * bool) :=
  [ (Cat (Opt (Chr 47)) (lit (js "init")), true);
    (lit (js "exit"), true);
    (lit (js "ls"), true);
    (lit (js "pwd"), true);
    (lit (js "q"), true);
    (lit (js "quit"), true);
    (Cat (Opt (Chr 47)) (Alt (lit (js "help")) (lit (js "h"))), true);
    (lit (js "--continue"), true);
    (lit (js "--resume"), true);
    (Star Space, false);
    (lit (js "."), false);
    (lit (js "test"), true) ].

Definition isJunkMessage (text : option jsstring) : bool :=
  match text with
  | None | Some [] => false
  | Some t =>
      let trimmed := trim t in
      existsb (fun p => test (snd p) (fst p) trimmed) JUNK_PATTERNS
  end.

(** [decodeProjectSlug(slug)]: the two replacements in turn *)
Definition decodeProjectSlug (slug : jsstring) : jsstring :=
  let first := match slug with
               | 45%N :: rest => 47%N :: rest
               | _ => slug
               end in
  map (fun c => if (c =? 45)%N then 47%N else c) first.

(** [shortProjectName(decodedPath)] *)
Definition shortProjectName (decodedPath : jsstring) : jsstring :=
  let parts := filter (fun p => p <> []) (split 47 decodedPath) in
  default decodedPath (last parts).

(** [truncate(str, maxLen)] *)
Definition truncate (str : option jsstring) (maxLen : Z) : jsstring :=
  match str with
  | None | Some [] => []
  | Some s =>
      if Z.of_nat (length s) <=? maxLen then s
      else slice0 s (maxLen - 1) ++ js "…"
  end.

(** A code unit that separates the words of a project slug. *)
Definition separator (c : N) : Prop := c = 45%N \/ c = 47%N.

(** What the junk patterns accept, in the canonical form of the [i]
    flag. *)
Definition junk_words : list jsstring :=
  map js ["/INIT"; "INIT"; "EXIT"; "LS"; "PWD"; "Q"; "QUIT"; "/HELP"; "/H";
          "HELP"; "H"; "--CONTINUE"; "--RESUME"; "TEST"]%string.

End Utils.

(** ** lib/classifier.js *)

Module Classifier.
Import Js.

Definition TIER_AUTO_DELETE : Z := 1.
Definition TIER_SUGGESTED : Z := 2.
Definition TIER_REVIEW : Z := 3.
Definition TIER_KEEP : Z := 4.

(** [TIER_LABELS[t]] and [TIER_SCORES[t]]: a property read, [undefined]
    ([None]) off the four keys. *)
Definition TIER_LABELS (t : jsnum) : option jsstring :=
  match t with
  | Num 1 => Some (js "auto-delete")
  | Num 2 => Some (js "suggested-delete")
  | Num 3 => Some (js "review")
  | Num 4 => Some (js "keep")
  | _ => None
  end.

Definition TIER_SCORES (t : jsnum) : option Q :=
  match t with
  | Num 1 => Some 1.0%Q
  | Num 2 => Some 0.7%Q
  | Num 3 => Some 0.4%Q
  | Num 4 => Some 0.1%Q
  | _ => None
  end.

(** The properties of a session summary the classifier reads and writes.
    A string property is [None] when it is undefined. *)
Record Session := {
  category : option jsstring;
  title : option jsstring;
  fileSizeBytes : jsnum;
  userMessageCount : jsnum;
  assistantMessageCount : jsnum;
  totalRecordCount : jsnum;
  durationMs : jsnum;
  turnCount : jsnum;
  totalToolCalls : jsnum;
  thinkingBlocks : jsnum;
  uniqueFilesCount : jsnum;
  tierOverride : jsnum;
  tier : jsnum;
  tierLabel : option jsstring;
  autoTier : jsnum;
  junkScore : option Q;
  junkReasons : list jsstring
}.

Definition category_is (s : Session) (c : string) : bool :=
  bool_decide (category s = Some (js c)).

(** The tests return their verdict together with the [reasons] array they
    push to. *)
Definition isTier1 (session : Session) (reasons : list jsstring)
  : bool * list jsstring :=
  if category_is session "empty"
  then (true, reasons ++ [js "empty session (no records)"])
  else if category_is session "hook-only"
  then (true, reasons ++ [js "hook-only (system events, no conversation)"])
  else if category_is session "snapshot-only"
  then (true, reasons ++ [js "snapshot-only (file history, no conversation)"])
  else if num_lt (fileSizeBytes session) (Num 1024)
          && strict_eq (userMessageCount session) 0
  then (true, reasons ++ [js "tiny file with no user messages"])
  else if num_le (totalRecordCount session) (Num 2)
          && strict_eq (userMessageCount session) 0
  then (true, reasons ++ [js "minimal records, no user messages"])
  else (false, reasons).

Definition isTier4 (session : Session) : bool :=
  let turnCount := or_zero (turnCount session) in
  let toolCalls := or_zero (totalToolCalls session) in
  let thinkingBlocks := or_zero (thinkingBlocks session) in
  let filesCount := or_zero (uniqueFilesCount session) in
  if num_ge turnCount (Num 4) then true
  else if num_ge toolCalls (Num 3) then true
  else if num_ge thinkingBlocks (Num 2) then true
  else if num_ge filesCount (Num 2) then true
  else if num_gt (durationMs session) (Num 300000) then true
  else if num_ge (userMessageCount session) (Num 3)
          && num_ge (assistantMessageCount session) (Num 3) then true
  else if num_gt (fileSizeBytes session) (Num 50000)
          && num_ge (userMessageCount session) (Num 2) then true
  else false.

Definition truthy_string (t : option jsstring) : bool :=
  match t with
  | None | Some [] => false
  | Some _ => true
  end.

Definition title_text (session : Session) : jsstring :=
  default [] (title session).

Definition isTier2 (session : Session) (reasons : list jsstring)
  : bool * list jsstring :=
  if strict_eq (userMessageCount session) 1
     && num_le (assistantMessageCount session) (Num 1)
     && num_lt (durationMs session) (Num 60000)
  then (true, reasons ++ [js "single brief exchange (< 1 min)"])
  else if truthy_string (title session) && Utils.isJunkMessage (title session)
  then (true, reasons ++ [js "junk pattern: " ++ [34%N] ++ title_text session ++ [34%N]])
  else if num_gt (userMessageCount session) (Num 0)
          && strict_eq (assistantMessageCount session) 0
  then (true, reasons ++ [js "no assistant response (abandoned)"])
  else
    let toolCalls := or_zero (totalToolCalls session) in
    if strict_eq toolCalls 0
       && num_le (userMessageCount session) (Num 2)
       && num_lt (durationMs session) (Num 120000)
    then (true, reasons ++ [js "short session with no tool usage"])
    else if num_lt (fileSizeBytes session) (Num 4096)
            && num_le (add (userMessageCount session)
                           (assistantMessageCount session)) (Num 2)
    then (true, reasons ++ [js "tiny session (< 4KB, ≤ 2 messages)"])
    else (false, reasons).

Definition computeReviewReasons (session : Session) (reasons : list jsstring)
  : list jsstring :=
  let r1 := if num_le (userMessageCount session) (Num 2)
            then reasons ++ [js "few user messages"] else reasons in
  let r2 := if num_lt (durationMs session) (Num 120000)
               && num_gt (durationMs session) (Num 0)
            then r1 ++ [js "short duration"] else r1 in
  let r3 := if strict_eq (assistantMessageCount session) 0
            then r2 ++ [js "no assistant response"] else r2 in
  if bool_decide (length r3 = 0%nat)
  then r3 ++ [js "needs manual review"] else r3.

Definition applyTier (session : Session) (t : Z) (reasons : list jsstring)
  : Session :=
  let effectiveTier :=
    if not_nullish (tierOverride session) then tierOverride session else Num t in
  {| category := category session;
     title := title session;
     fileSizeBytes := fileSizeBytes session;
     userMessageCount := userMessageCount session;
     assistantMessageCount := assistantMessageCount session;
     totalRecordCount := totalRecordCount session;
     durationMs := durationMs session;
     turnCount := turnCount session;
     totalToolCalls := totalToolCalls session;
     thinkingBlocks := thinkingBlocks session;
     uniqueFilesCount := uniqueFilesCount session;
     tierOverride := tierOverride session;
     tier := effectiveTier;
     tierLabel := TIER_LABELS effectiveTier;
     autoTier := Num t;
     junkScore := TIER_SCORES effectiveTier;
     junkReasons := reasons |}.

Definition classify (session : Session) : Session :=
  let reasons := [] in
  let '(t1, reasons) := isTier1 session reasons in
  if t1 then applyTier session TIER_AUTO_DELETE reasons
  else if isTier4 session then applyTier session TIER_KEEP []
  else
    let '(t2, reasons) := isTier2 session reasons in
    if t2 then applyTier session TIER_SUGGESTED reasons
    else applyTier session TIER_REVIEW (computeReviewReasons session reasons).

Definition classifyAll (sessions : list Session) : list Session :=
  map classify sessions.

(** [junkLabel(score)]; an undefined score ([None]) fails both
    comparisons.  Scores are kept as the decimal fractions the source
    writes. *)
Definition junkLabel (score : option Q) : jsstring :=
  match score with
  | Some q =>
      if Qle_bool 0.6 q then js "junk"
      else if Qle_bool 0.3 q then js "maybe"
      else js "real"
  | None => js "real"
  end.

(** The tier the rules alone choose: the tests in the order 1, 4, 2,
    the first that holds deciding, 3 when none does. *)
Definition first_match (s : Session) : Z :=
  if (isTier1 s []).1 then 1
  else if isTier4 s then 4
  else if (isTier2 s (isTier1 s []).2).1 then 2
  else 3.

(** The example of the specification: [{ category: 'empty', turnCount: 100 }] *)
Definition empty_with_turns : Session :=
  {| category := Some (js "empty"); title := None;
     fileSizeBytes := Undefined; userMessageCount := Undefined;
     assistantMessageCount := Undefined; totalRecordCount := Undefined;
     durationMs := Undefined; turnCount := Num 100;
     totalToolCalls := Undefined; thinkingBlocks := Undefined;
     uniqueFilesCount := Undefined; tierOverride := Undefined;
     tier := Undefined; tierLabel := None; autoTier := Undefined;
     junkScore := None; junkReasons := [] |}.

(** What a classification pass writes. *)
Definition verdict (s : Session)
  : jsnum * option jsstring * jsnum * option Q * list jsstring :=
  (tier s, tierLabel s, autoTier s, junkScore s, junkReasons s).

Definition with_tierOverride (s : Session) (v : jsnum) : Session :=
  {| category := category s; title := title s;
     fileSizeBytes := fileSizeBytes s;
     userMessageCount := userMessageCount s;
     assistantMessageCount := assistantMessageCount s;
     totalRecordCount := totalRecordCount s;
     durationMs := durationMs s; turnCount := turnCount s;
     totalToolCalls := totalToolCalls s;
     thinkingBlocks := thinkingBlocks s;
     uniqueFilesCount := uniqueFilesCount s;
     tierOverride := v;
     tier := tier s; tierLabel := tierLabel s; autoTier := autoTier s;
     junkScore := junkScore s; junkReasons := junkReasons s |}.

(** A number-valued property that is absent, set to zero. *)
Definition zero_if_absent (v : jsnum) : jsnum :=
  match v with
  | Undefined => Num 0
  | _ => v
  end.

(** The summary with every absent numeric property set to zero. *)
Definition zero_absent (s : Session) : Session :=
  {| category := category s; title := title s;
     fileSizeBytes := zero_if_absent (fileSizeBytes s);
     userMessageCount := zero_if_absent (userMessageCount s);
     assistantMessageCount := zero_if_absent (assistantMessageCount s);
     totalRecordCount := zero_if_absent (totalRecordCount s);
     durationMs := zero_if_absent (durationMs s);
     turnCount := zero_if_absent (turnCount s);
     totalToolCalls := zero_if_absent (totalToolCalls s);
     thinkingBlocks := zero_if_absent (thinkingBlocks s);
     uniqueFilesCount := zero_if_absent (uniqueFilesCount s);
     tierOverride := tierOverride s;
     tier := tier s; tierLabel := tierLabel s; autoTier := autoTier s;
     junkScore := junkScore s; junkReasons := junkReasons s |}.

(** The summary with the absent deep-analysis properties set to zero. *)
Definition zero_absent_deep (s : Session) : Session :=
  {| category := category s; title := title s;
     fileSizeBytes := fileSizeBytes s;
     userMessageCount := userMessageCount s;
     assistantMessageCount := assistantMessageCount s;
     totalRecordCount := totalRecordCount s;
     durationMs := durationMs s;
     turnCount := zero_if_absent (turnCount s);
     totalToolCalls := zero_if_absent (totalToolCalls s);
     thinkingBlocks := zero_if_absent (thinkingBlocks s);
     uniqueFilesCount := zero_if_absent (uniqueFilesCount s);
     tierOverride := tierOverride s;
     tier := tier s; tierLabel := tierLabel s; autoTier := autoTier s;
     junkScore := junkScore s; junkReasons := junkReasons s |}.

(** An object literal with no property set, for writing test inputs. *)
Definition blank : Session :=
  {| category := None; title := None;
     fileSizeBytes := Undefined; userMessageCount := Undefined;
     assistantMessageCount := Undefined; totalRecordCount := Undefined;
     durationMs := Undefined; turnCount := Undefined;
     totalToolCalls := Undefined; thinkingBlocks := Undefined;
     uniqueFilesCount := Undefined; tierOverride := Undefined;
     tier := Undefined; tierLabel := None; autoTier := Undefined;
     junkScore := None; junkReasons := [] |}.

(** [tierLabel(tier)], the label for display *)
Module Display.
Definition tierLabel (tier : jsnum) : jsstring :=
  default (js "unknown") (TIER_LABELS tier).
End Display.

(** A number-valued property that stays as it is or grows. *)
Definition grows (a b : jsnum) : Prop := a = b \/ num_le a b = true.

(** The properties the KEEP test reads stay as they are or grow. *)
Definition more_activity (s s' : Session) : Prop :=
  grows (turnCount s) (turnCount s') /\
  grows (totalToolCalls s) (totalToolCalls s') /\
  grows (thinkingBlocks s) (thinkingBlocks s') /\
  grows (uniqueFilesCount s) (uniqueFilesCount s') /\
  grows (durationMs s) (durationMs s') /\
  grows (userMessageCount s) (userMessageCount s') /\
  grows (assistantMessageCount s) (assistantMessageCount s') /\
  grows (fileSizeBytes s) (fileSizeBytes s').

(** A long session, and the same with more turns. *)
Definition six_minutes : Session :=
  {| category := Some (js "conversation"); title := Some (js "fix the bug");
     fileSizeBytes := Num 2000; userMessageCount := Num 1;
     assistantMessageCount := Num 1; totalRecordCount := Num 2;
     durationMs := Num 360000; turnCount := Num 2;
     totalToolCalls := Num 0; thinkingBlocks := Num 0;
     uniqueFilesCount := Num 0; tierOverride := Undefined;
     tier := Num 0; tierLabel := Some []; autoTier := Num 0;
     junkScore := Some 0%Q; junkReasons := [] |}.

Definition six_minutes_more : Session :=
  {| category := Some (js "conversation"); title := Some (js "fix the bug");
     fileSizeBytes := Num 9000; userMessageCount := Num 3;
     assistantMessageCount := Num 1; totalRecordCount := Num 4;
     durationMs := Num 360000; turnCount := Num 3;
     totalToolCalls := Num 0; thinkingBlocks := Num 0;
     uniqueFilesCount := Num 0; tierOverride := Undefined;
     tier := Num 0; tierLabel := Some []; autoTier := Num 0;
     junkScore := Some 0%Q; junkReasons := [] |}.

End Classifier.

(** ** lib/analyzer.js: language guess *)

Module Analyzer.
Import Js.

(** [LANG_HINTS]: each entry is the pattern [/\b(w1|w2|...)\b/i], kept as
    its list of alternatives, in the order [Object.entries] yields them. *)
Definition LANG_HINTS : list (jsstring * list jsstring) :=
  [ (js "fr", map js
       ["je"; "tu"; "il"; "nous"; "vous"; "les"; "des"; "une"; "est"; "sont";
        "dans"; "pour"; "avec"; "que"; "sur"; "pas"; "fait"; "faire"; "peut";
        "cette"; "mais"; "aussi"; "comme"; "bien"; "tout"; "très"; "plus";
        "moins"; "ici"; "merci"; "bonjour"; "salut"; "oui"; "non"; "voici";
        "voilà"; "ajoute"; "modifie"; "supprime"; "corrige"; "fais"; "mets";
        "change"; "crée"; "regarde"]%string);
    (js "es", map js
       ["el"; "la"; "los"; "las"; "es"; "son"; "en"; "para"; "con"; "que";
        "por"; "pero"; "como"; "bien"; "todo"; "más"; "menos"; "aquí";
        "gracias"; "hola"; "sí"; "añade"; "modifica"; "crea"; "mira"]%string);
    (js "de", map js
       ["der"; "die"; "das"; "ein"; "eine"; "ist"; "sind"; "in"; "für"; "mit";
        "und"; "aber"; "wie"; "gut"; "alles"; "mehr"; "weniger"; "hier";
        "danke"; "hallo"; "ja"; "nein"]%string) ].

(** The assertion [\b] between two neighbouring code units ([None] at
    either end of the text). *)
Definition isWord (c : option N) : bool :=
  match c with
  | Some x => isWordChar x
  | None => false
  end.

Definition isBoundary (before after : option N) : bool :=
  xorb (isWord before) (isWord after).

(** Matches the literal [w] at the head of [t], ignoring case; returns the
    last code unit consumed and what follows. *)
Fixpoint literal_at (w t : jsstring) (last : option N)
  : option (option N * jsstring) :=
  match w with
  | [] => Some (last, t)
  | c :: w' =>
      match t with
      | d :: t' =>
          if (canonicalize c =? canonicalize d)%N
          then literal_at w' t' (Some d) else None
      | [] => None
      end
  end.

(** One attempt of [\b(w1|w2|...)\b] at a position: the alternatives are
    tried in order, each followed by the closing [\b]; the result is the
    length of the match. *)
Fixpoint alternatives_at (alts : list jsstring) (t : jsstring) : option nat :=
  match alts with
  | [] => None
  | w :: alts' =>
      match literal_at w t None with
      | Some (last, rest) =>
          if isBoundary last (head rest) then Some (length w)
          else alternatives_at alts' t
      | None => alternatives_at alts' t
      end
  end.

Definition match_at (alts : list jsstring) (before : option N) (t : jsstring)
  : option nat :=
  if isBoundary before (head t) then alternatives_at alts t else None.

(** [(text.match(new RegExp(source, 'gi')) || []).length]: the matches are
    found left to right, each search resuming where the last match ended
    ([skip] code units of a match are still to be passed over). *)
Fixpoint count_from (alts : list jsstring) (before : option N) (t : jsstring)
  (skip : nat) : nat :=
  match t with
  | [] => 0%nat
  | c :: t' =>
      match skip with
      | S k => count_from alts (Some c) t' k
      | O =>
          match match_at alts before t with
          | Some len => S (count_from alts (Some c) t' (len - 1))
          | None => count_from alts (Some c) t' 0
          end
      end
  end.

Definition match_count (alts : list jsstring) (text : jsstring) : nat :=
  count_from alts None text 0.

(** The body of the [for] loop over the entries, on the pair
    [(bestLang, bestCount)]. *)
Definition consider (text : jsstring) (best : jsstring * nat)
  (entry : jsstring * list jsstring) : jsstring * nat :=
  let count := match_count (snd entry) text in
  if ((snd best <? count) && (3 <=? count))%nat
  then (fst entry, count) else best.

Definition detectLanguage (text : jsstring) : jsstring :=
  if (length text <? 20)%nat then js "en"
  else fst (fold_left (consider text) LANG_HINTS (js "en", 0%nat)).

(** The three word lists. *)
Definition fr_words : list jsstring := default [] (snd <$> LANG_HINTS !! 0%nat).
Definition es_words : list jsstring := default [] (snd <$> LANG_HINTS !! 1%nat).
Definition de_words : list jsstring := default [] (snd <$> LANG_HINTS !! 2%nat).

(** The guess as a decision table: the candidate with the most matches,
    three at least, the earlier candidate winning a tie. *)
Definition first_best (text : jsstring) : jsstring :=
  let cf := match_count fr_words text in
  let ce := match_count es_words text in
  let cd := match_count de_words text in
  if (length text <? 20)%nat then js "en"
  else if ((3 <=? cf) && (ce <=? cf) && (cd <=? cf))%nat then js "fr"
  else if ((3 <=? ce) && (cf <? ce) && (cd <=? ce))%nat then js "es"
  else if ((3 <=? cd) && (cf <? cd) && (ce <? cd))%nat then js "de"
  else js "en".

(** The guess in the words of the specification: a candidate is returned
    only if it matches three times at least and strictly more often than
    every other candidate. *)
Definition strictly_best (text : jsstring) (e : jsstring * list jsstring) : bool :=
  (3 <=? match_count e.2 text)%nat
  && forallb (fun e' => bool_decide (e'.1 = e.1)
                        || (match_count e'.2 text <? match_count e.2 text)%nat)
             LANG_HINTS.

Definition claimed_language (text : jsstring) : jsstring :=
  if (length text <? 20)%nat then js "en"
  else match filter (fun e => strictly_best text e = true) LANG_HINTS with
       | e :: _ => e.1
       | [] => js "en"
       end.

Definition tied_text : jsstring := js "que que que que que que".

(** The upper-case and the lower-case form of an ASCII letter; every
    other code unit as it is. *)
Definition upper_ascii (c : N) : N :=
  (if (97 <=? c) && (c <=? 122) then c - 32 else c)%N.

Definition lower_ascii (c : N) : N :=
  (if (65 <=? c) && (c <=? 90) then c + 32 else c)%N.

End Analyzer.

(** ** lib/scanner.js: the head and tail reader and the fast scan *)

Module Scanner.
Import Js.

(** The loop state of [readHeadTail]. *)
Record reader := {
  lineNum : nat;
  lines : list jsstring;
  tailBuffer : list jsstring
}.

Definition read_line (headCount tailCount : nat) (st : reader)
  (line : jsstring) : reader :=
  let lineNum := S (lineNum st) in
  if (lineNum <=? headCount)%nat
  then {| lineNum := lineNum; lines := lines st ++ [line];
          tailBuffer := tailBuffer st |}
  else
    let tailBuffer := tailBuffer st ++ [line] in
    {| lineNum := lineNum; lines := lines st;
       tailBuffer := if (tailCount <? length tailBuffer)%nat
                     then tail tailBuffer else tailBuffer |}.

(** [readHeadTail(filePath, headCount, tailCount)], on the lines the
    [readline] interface yields for the file. *)
Definition readHeadTail (file : list jsstring) (headCount tailCount : nat)
  : list jsstring :=
  let st := fold_left (read_line headCount tailCount) file
              {| lineNum := 0; lines := []; tailBuffer := [] |} in
  let headSet : gset jsstring := list_to_set (lines st) in
  fold_left (fun lines tl =>
               if bool_decide (tl ∈ headSet) then lines else lines ++ [tl])
            (tailBuffer st) (lines st).

(** What [parseRecords] reads off a record for the counts and the
    category: [rec.type] and [rec.data?.type]. *)
Record LogRecord := {
  rec_type : option jsstring;
  data_type : option jsstring
}.

Record Counts := {
  totalRecordCount : nat;
  userMessageCount : nat;
  assistantMessageCount : nat;
  category : jsstring
}.

Definition type_is (r : LogRecord) (t : string) : bool :=
  bool_decide (rec_type r = Some (js t)).

(** The counting part of [parseRecords]. *)
Definition parseRecords (records : list LogRecord) : Counts :=
  let users := filter (fun r => type_is r "user" = true) records in
  let assistants := filter (fun r => type_is r "assistant" = true) records in
  let progress := filter (fun r => type_is r "progress" = true) records in
  let hasUserMessage := negb (bool_decide (users = [])) in
  let hasAssistantMessage := negb (bool_decide (assistants = [])) in
  let hasProgress := negb (bool_decide (progress = [])) in
  let hasHookProgress :=
    existsb (fun r => bool_decide (data_type r = Some (js "hook_progress")))
            progress in
  {| totalRecordCount := length records;
     userMessageCount := length users;
     assistantMessageCount := length assistants;
     category :=
       if negb hasUserMessage && negb hasAssistantMessage && negb hasProgress
       then js "empty"
       else if hasUserMessage || hasAssistantMessage then js "conversation"
       else if hasHookProgress && negb hasUserMessage then js "hook-only"
       else js "snapshot-only" |}.

Section Scan.

(** [JSON.parse] of one line; [None] when it throws. *)
Variable JSON_parse : jsstring -> option LogRecord.

(** The loop [try { records.push(JSON.parse(line)) } catch { }]. *)
Definition parse_lines (ls : list jsstring) : list LogRecord :=
  omap JSON_parse ls.

Definition fastScan (file : list jsstring) : Counts :=
  parseRecords (parse_lines (readHeadTail file 30 10)).

End Scan.

(** The last [n] elements of a list. *)
Definition lastn {A} (n : nat) (l : list A) : list A := drop (length l - n) l.

(** The lines a fast scan reads: the first 30 and, of the rest, the last
    10. *)
Definition lines_read (file : list jsstring) : list jsstring :=
  take 30 file ++ lastn 10 (drop 30 file).

(** A sample: the line [{"type":"user"}], a reader that knows this line
    only, and a file of 31 such lines. *)
Definition user_line : jsstring :=
  js "{" ++ [34%N] ++ js "type" ++ [34%N] ++ js ":" ++ [34%N] ++ js "user"
     ++ [34%N] ++ js "}".

Definition user_record : LogRecord :=
  {| rec_type := Some (js "user"); data_type := None |}.

Definition sample_parse (line : jsstring) : option LogRecord :=
  if bool_decide (line = user_line) then Some user_record else None.

Definition sample_file : list jsstring := replicate 31 user_line.

(** [readAllLines(filePath)], on the text [readFile] returns *)
Definition readAllLines (content : jsstring) : list jsstring :=
  filter (fun l => trim l <> []) (split 10 content).

(** The summary [parseRecords] returns without deep analysis, as
    [classify] reads it: the counts and the category, the size [stat]
    gave, the duration and the title, and the initial values of the other
    properties. *)
Definition summary_of (c : Counts) (fileSize : Z) (durationMs : jsnum)
  (title : jsstring) : Classifier.Session :=
  {| Classifier.category := Some (category c);
     Classifier.title := Some title;
     Classifier.fileSizeBytes := Num fileSize;
     Classifier.userMessageCount := Num (Z.of_nat (userMessageCount c));
     Classifier.assistantMessageCount := Num (Z.of_nat (assistantMessageCount c));
     Classifier.totalRecordCount := Num (Z.of_nat (totalRecordCount c));
     Classifier.durationMs := durationMs;
     Classifier.turnCount := Num 0;
     Classifier.totalToolCalls := Num 0;
     Classifier.thinkingBlocks := Num 0;
     Classifier.uniqueFilesCount := Num 0;
     Classifier.tierOverride := Undefined;
     Classifier.tier := Num 0;
     Classifier.tierLabel := Some [];
     Classifier.autoTier := Num 0;
     Classifier.junkScore := Some 0%Q;
     Classifier.junkReasons := [] |}.

(** Records of the other kinds the scanner tells apart. *)
Definition assistant_record : LogRecord :=
  {| rec_type := Some (js "assistant"); data_type := None |}.

Definition hook_record : LogRecord :=
  {| rec_type := Some (js "progress"); data_type := Some (js "hook_progress") |}.

End Scanner.

(** ** lib/analyzer.js: the turn count *)

Module Analysis.
Import Js Scanner.

(** The loop state of the turn count: [lastRecType] ([None] for [null])
    and [analysis.turnCount]. *)
Definition count_turn (st : option jsstring * nat) (rec : LogRecord)
  : option jsstring * nat :=
  if type_is rec "user" || type_is rec "assistant"
  then (rec_type rec,
        if bool_decide (rec_type rec = st.1) then st.2 else S st.2)
  else st.

(** [analysis.turnCount] of [analyzeRecords(records)] *)
Definition turnCount (records : list LogRecord) : nat :=
  (fold_left count_turn records (None, 0%nat)).2.

(** The numbers of user and of assistant records of a list. *)
Definition users (records : list LogRecord) : nat :=
  length (filter (fun r => type_is r "user" = true) records).

Definition assistants (records : list LogRecord) : nat :=
  length (filter (fun r => type_is r "assistant" = true) records).

End Analysis.

(** ** lib/cache.js *)

Module Cache.
Import Js.

Section Cache.

(** [mtimeMs] is a floating-point number of milliseconds that the cache
    only ever compares with [===]; any type with a decidable equality
    stands for it.  [Summary] is the cached session summary and
    [analyzed] its flag of that name. *)
Context {Mtime : Type} `{EqDecision Mtime}.
Context {Summary : Type} (analyzed : Summary -> bool).

Record FileInfo := { mtimeMs : Mtime; size : Z }.

Record Entry := { mtime : Mtime; entry_size : Z; data : Summary }.

Record CacheObj := { version : Z; sessions : gmap jsstring Entry }.

Definition CACHE_VERSION : Z := 2.

(** The module state: [memoryCache], [null] until the first load. *)
Record State := { memoryCache : option CacheObj }.

(** The cache file as [JSON.parse] returns it ([None] when the file is
    missing or does not parse): its version, if it has one, and its
    entries. *)
Definition CacheFile : Type := option (option Z * gmap jsstring Entry).

Definition loadCache (disk : CacheFile) (st : State) : CacheObj * State :=
  match memoryCache st with
  | Some c => (c, st)
  | None =>
      let c :=
        match disk with
        | Some (v, ss) =>
            match v with
            | Some n =>
                if (n =? 0) || (n <? CACHE_VERSION)
                then {| version := CACHE_VERSION; sessions := ss |}
                else {| version := n; sessions := ss |}
            | None => {| version := CACHE_VERSION; sessions := ss |}
            end
        | None => {| version := CACHE_VERSION; sessions := ∅ |}
        end in
      (c, {| memoryCache := Some c |})
  end.

Definition isValid (entry : Entry) (fileInfo : FileInfo) : bool :=
  bool_decide (mtime entry = mtimeMs fileInfo)
  && (entry_size entry =? size fileInfo).

(** [getCached(filePath, { requireAnalyzed })]; [stat] is the file system
    at the time of the call, [None] where [stat] throws. *)
Definition getCached (disk : CacheFile) (stat : jsstring -> option FileInfo)
  (filePath : jsstring) (requireAnalyzed : bool) (st : State)
  : option Summary * State :=
  let '(cache, st) := loadCache disk st in
  match sessions cache !! filePath with
  | None => (None, st)
  | Some entry =>
      if requireAnalyzed && negb (analyzed (data entry)) then (None, st)
      else
        match stat filePath with
        | Some fileInfo =>
            if isValid entry fileInfo then (Some (data entry), st)
            else (None, st)
        | None =>
            (None,
             {| memoryCache :=
                  Some {| version := version cache;
                          sessions := delete filePath (sessions cache) |} |})
        end
  end.

(** [setCached(filePath, data)] *)
Definition setCached (disk : CacheFile) (stat : jsstring -> option FileInfo)
  (filePath : jsstring) (d : Summary) (st : State) : State :=
  let '(cache, st) := loadCache disk st in
  match stat filePath with
  | Some fileInfo =>
      {| memoryCache :=
           Some {| version := version cache;
                   sessions :=
                     <[filePath :=
                         {| mtime := mtimeMs fileInfo;
                            entry_size := size fileInfo;
                            data := d |}]> (sessions cache) |} |}
  | None => st
  end.

(** The entry the cache holds for a path once it is loaded. *)
Definition cached_entry (disk : CacheFile) (st : State) (filePath : jsstring)
  : option Entry :=
  sessions (fst (loadCache disk st)) !! filePath.

End Cache.

Arguments FileInfo : clear implicits.
Arguments Entry : clear implicits.
Arguments CacheObj : clear implicits.
Arguments State : clear implicits.
Arguments CacheFile : clear implicits.

(** The entry [setCached] writes for a file. *)
Definition entry_of {Mtime Summary} (i : FileInfo Mtime) (d : Summary)
  : Entry Mtime Summary :=
  {| mtime := mtimeMs i; entry_size := size i; data := d |}.

(** A sample: a file cached at ten bytes that has grown to eleven. *)
Definition at_put : FileInfo Z := {| mtimeMs := 1000; size := 10 |}.
Definition grown : FileInfo Z := {| mtimeMs := 1000; size := 11 |}.
Definition empty_state : State Z jsstring := {| memoryCache := None |}.
Definition sample_path : jsstring := js "/p/s.jsonl".

Section CacheFlush.

Context {Mtime : Type} `{EqDecision Mtime}.
Context {Summary : Type} (analyzed : Summary -> bool).

(** [saveCache(cache)] when the write goes through: the file holds the
    JSON text of the cache, and the module keeps the object. *)
Definition saveCache (cache : CacheObj Mtime Summary)
  : CacheFile Mtime Summary * State Mtime Summary :=
  (Some (Some (version cache), sessions cache), {| memoryCache := Some cache |}).

(** The body of the loop of [pruneCache], on the entries and
    [prunedCount]. *)
Definition prune_step (stat : jsstring -> option (FileInfo Mtime))
  (acc : gmap jsstring (Entry Mtime Summary) * nat) (filePath : jsstring)
  : gmap jsstring (Entry Mtime Summary) * nat :=
  match stat filePath with
  | Some _ => acc
  | None => (delete filePath acc.1, S acc.2)
  end.

(** [pruneCache()]: the count, the cache file and the module state *)
Definition pruneCache (disk : CacheFile Mtime Summary)
  (stat : jsstring -> option (FileInfo Mtime)) (st : State Mtime Summary)
  : nat * CacheFile Mtime Summary * State Mtime Summary :=
  let '(cache, st) := loadCache disk st in
  let paths := (map_to_list (sessions cache)).*1 in
  let '(ss, prunedCount) := fold_left (prune_step stat) paths (sessions cache, 0%nat) in
  let cache := {| version := version cache; sessions := ss |} in
  if (0 <? prunedCount)%nat
  then let '(disk, st) := saveCache cache in (prunedCount, disk, st)
  else (prunedCount, disk, {| memoryCache := Some cache |}).

(** The module state with [flushCounter]. *)
Record Process := { state : State Mtime Summary; flushCounter : nat }.

Definition PRUNE_INTERVAL : nat := 10.

(** [flushCache()]: [Some prunedCount] when pruning occurred *)
Definition flushCache (disk : CacheFile Mtime Summary)
  (stat : jsstring -> option (FileInfo Mtime)) (pr : Process)
  : option nat * CacheFile Mtime Summary * Process :=
  let '(disk, st) :=
    match memoryCache (state pr) with
    | Some c => saveCache c
    | None => (disk, state pr)
    end in
  let flushCounter := S (flushCounter pr) in
  if (flushCounter mod PRUNE_INTERVAL =? 0)%nat
  then let '(prunedCount, disk, st) := pruneCache disk stat st in
       (Some prunedCount, disk, {| state := st; flushCounter := flushCounter |})
  else (None, disk, {| state := st; flushCounter := flushCounter |}).

(** The entries whose file [stat] still finds. *)
Definition on_disk (stat : jsstring -> option (FileInfo Mtime))
  (ss : gmap jsstring (Entry Mtime Summary)) : gmap jsstring (Entry Mtime Summary) :=
  filter (fun kv => is_Some (stat kv.1)) ss.

End CacheFlush.

Arguments Process : clear implicits.

End Cache.

(** ** The file system under the trash

    A file system is a finite map from absolute, normalised paths (the
    list of their components below the root) to files and directories.
    The primitives are those of [fs/promises] that lib/cleanup.js calls,
    with the POSIX errors that depend on the tree (no entry, not a
    directory, is a directory, directory not empty, invalid argument);
    errors of the medium (permissions, full disk) are not modelled. *)

Module Fs.
Import Js.

Definition path := list jsstring.

Inductive errno := ENOENT | ENOTDIR | EISDIR | ENOTEMPTY | EEXIST | EINVAL.

Section Fs.

Context {C : Type}.

Inductive node := File (c : C) | Dir.

Definition under (d p : path) : bool := bool_decide (d `prefix_of` p).

Definition is_dir (t : gmap path node) (p : path) : bool :=
  match t !! p with
  | Some Dir => true
  | _ => false
  end.

Definition is_file (t : gmap path node) (p : path) : bool :=
  match t !! p with
  | Some (File _) => true
  | _ => false
  end.

(** No file stands at [p] or above it, so [mkdir -p] of [p] can succeed. *)
Definition clear_way (t : gmap path node) (p : path) : bool :=
  forallb (fun k => negb (is_file t (take k p))) (seq 0 (S (length p))).

(** [path.dirname] and [path.basename] of a normalised path *)
Definition dirname (p : path) : path := removelast p.

Definition basename (p : path) : jsstring := default [] (last p).

(** A directory has entries below it. *)
Definition has_children (t : gmap path node) (d : path) : bool :=
  negb (bool_decide
          (filter (fun kv => d `prefix_of` kv.1 /\ kv.1 <> d) t = ∅)).

(** The error of resolving [p] when nothing stands at [p], or when the
    directory it lies in is not one: not a directory when a file stands on
    the way to [p], no entry otherwise. *)
Definition lookup_error (t : gmap path node) (p : path) : errno :=
  if clear_way t (dirname p) then ENOENT else ENOTDIR.

(** [stat(p)]: the node at [p] *)
Definition stat (t : gmap path node) (p : path) : errno + node :=
  match t !! p with
  | Some n => inr n
  | None => inl (lookup_error t p)
  end.

(** [mkdir(p, { recursive: true })]: the directories from the root down
    to [p] are created where missing; a file on the way is an error, and
    nothing is created past it. *)
Fixpoint mkdirs (t : gmap path node) (pre : path) (rest : list jsstring)
  : errno + gmap path node :=
  match t !! pre with
  | Some (File _) => inl (if rest is [] then EEXIST else ENOTDIR)
  | found =>
      let t' := if found is None then <[pre := Dir]> t else t in
      match rest with
      | [] => inr t'
      | c :: rest' => mkdirs t' (pre ++ [c]) rest'
      end
  end.

Definition mkdir_p (t : gmap path node) (p : path) : errno + gmap path node :=
  mkdirs t [] p.

(** Moving the tree rooted at [src] to [dst]. *)
Definition move_tree (t : gmap path node) (src dst : path) : gmap path node :=
  let moved : list (path * node) :=
    (fun kv => (dst ++ drop (length src) kv.1, kv.2))
      <$> map_to_list (filter (fun kv => src `prefix_of` kv.1) t) in
  list_to_map moved ∪ filter (fun kv => ¬ src `prefix_of` kv.1) t.

(** [rename(src, dst)]; where both paths are at fault, the error is that
    of the source. *)
Definition rename (t : gmap path node) (src dst : path)
  : errno + gmap path node :=
  match t !! src with
  | None => inl (lookup_error t src)
  | Some (File c) =>
      if negb (is_dir t (dirname dst)) then inl (lookup_error t dst)
      else match t !! dst with
           | Some Dir => inl EISDIR
           | _ => inr (<[dst := File c]> (delete src t))
           end
  | Some Dir =>
      if bool_decide (src = dst) then inr t
      else if under src dst then inl EINVAL
      else if negb (is_dir t (dirname dst)) then inl (lookup_error t dst)
      else match t !! dst with
           | Some (File _) => inl ENOTDIR
           | Some Dir =>
               if has_children t dst then inl ENOTEMPTY
               else inr (move_tree t src dst)
           | None => inr (move_tree t src dst)
           end
  end.

(** [readFile(p)] *)
Definition readFile (t : gmap path node) (p : path) : errno + C :=
  match t !! p with
  | Some (File c) => inr c
  | Some Dir => inl EISDIR
  | None => inl (lookup_error t p)
  end.

(** [writeFile(p, c)] *)
Definition writeFile (t : gmap path node) (p : path) (c : C)
  : errno + gmap path node :=
  if negb (is_dir t (dirname p)) then inl (lookup_error t p)
  else match t !! p with
       | Some Dir => inl EISDIR
       | _ => inr (<[p := File c]> t)
       end.

(** [unlink(p)] *)
Definition unlink (t : gmap path node) (p : path) : errno + gmap path node :=
  match t !! p with
  | Some (File _) => inr (delete p t)
  | Some Dir => inl EISDIR
  | None => inl (lookup_error t p)
  end.

(** [rm(p, { recursive: true, force: true })] *)
Definition rm_rf (t : gmap path node) (p : path) : gmap path node :=
  filter (fun kv => ¬ p `prefix_of` kv.1) t.

(** Every entry but the root lies in a directory. *)
Definition well_formed (t : gmap path node) : bool :=
  is_dir t []
  && bool_decide (map_Forall (fun p _ => is_dir t (dirname p) = true) t).

End Fs.

Arguments node : clear implicits.

(** A file system whose files hold a [C]. *)
Abbreviation fs C := (gmap path (node C)).

(** Paths as the program writes them before the system resolves them:
    components may be empty, [.] or [..]. *)
Definition dot : jsstring := js ".".
Definition dotdot : jsstring := js "..".

(** A component that resolution leaves alone. *)
Definition plain (c : jsstring) : bool :=
  negb (bool_decide (c = []) || bool_decide (c = dot) || bool_decide (c = dotdot)).

Definition plain_path (p : path) : bool := forallb plain p.

(** Lexical resolution, as [path.join] and the system do it (the
    directories named on the way exist wherever the program applies it). *)
Definition resolve_step (acc : path) (c : jsstring) : path :=
  if bool_decide (c = []) || bool_decide (c = dot) then acc
  else if bool_decide (c = dotdot) then removelast acc
  else acc ++ [c].

Definition normalize (raw : list jsstring) : path :=
  fold_left resolve_step raw [].

(** [path.basename] of an unresolved path: its last non-empty component;
    [rename] refuses a path that ends in [.] or [..]. *)
Definition raw_basename (raw : list jsstring) : jsstring :=
  default [] (last (filter (fun c => c <> []) raw)).

Definition ends_in_dots (raw : list jsstring) : bool :=
  bool_decide (raw_basename raw = dot) || bool_decide (raw_basename raw = dotdot).

(** [path.join(dir, name)] *)
Definition join (d : path) (name : jsstring) : path := normalize (d ++ [name]).

(** [p.replace(pattern, '')] on the text of a path: the first occurrence
    lies in the first component that has one, since the pattern holds no
    separator. *)
Fixpoint replace_in_path (p : list jsstring) (pattern : jsstring)
  : list jsstring :=
  match p with
  | [] => []
  | c :: p' =>
      if includes c pattern then replace_first c pattern [] :: p'
      else c :: replace_in_path p' pattern
  end.

(** A path stored in the manifest: absolute (the old format) or relative
    to the projects directory, as [path.relative] writes it: [ups] times
    [..], then the components [downs]. *)
Inductive stored_path :=
| Absolute (p : path)
| Relative (ups : nat) (downs : list jsstring).

Fixpoint common_prefix (a b : path) : nat :=
  match a, b with
  | x :: a', y :: b' =>
      if bool_decide (x = y) then S (common_prefix a' b') else 0%nat
  | _, _ => 0%nat
  end.

(** [path.relative(from, to)] *)
Definition relative (from to : path) : stored_path :=
  let k := common_prefix from to in
  Relative (length from - k) (drop k to).

(** [path.resolve(from, rel)] *)
Definition resolve (from : path) (ups : nat) (downs : list jsstring) : path :=
  normalize (take (length from - ups) from ++ downs).

End Fs.

(** ** lib/cleanup.js: the trash and its manifest *)

Module Cleanup.
Import Js Fs.

(** An entry of the manifest. *)
Record TrashItem := {
  item_id : jsstring;
  originalPath : stored_path;
  trashPath : path;
  trashedAt : jsstring;
  reason : jsstring;
  item_junkScore : option Q;
  item_junkReasons : list jsstring;
  item_fileSizeBytes : jsnum;
  item_title : option jsstring;
  project : option jsstring
}.

(** What a file holds, up to [JSON.parse] and [JSON.stringify]: text
    that is no JSON document, the JSON text of an object whose [items] is
    an array of entries, or some other JSON document, whose [items] can
    neither be pushed to, searched nor looped over (a document whose
    [items] is a string, which a loop would go through, is not
    represented). *)
Inductive content :=
| Text (bytes : jsstring)
| Journal (items : list TrashItem)
| OtherJson (bytes : jsstring).

(** The properties of a session summary that [trashSession] reads. *)
Record Session := {
  id : jsstring;
  filePath : path;
  junkScore : option Q;
  junkReasons : list jsstring;
  fileSizeBytes : jsnum;
  title : option jsstring;
  shortProject : option jsstring
}.

Inductive exn :=
| IOError (e : errno)
| SyntaxError
| NotFound (id : jsstring)
| TypeError.

Inductive outcome (A : Type) :=
| Return (a : A)
| Throw (e : exn).
Arguments Return {A} a.
Arguments Throw {A} e.

(** An asynchronous function of the module: it runs on the file system
    and either returns or throws, leaving the file system as it was at
    that point. *)
Definition M (A : Type) : Type := fs content -> outcome A * fs content.

Definition ret {A} (a : A) : M A := fun t => (Return a, t).

Definition throw {A} (e : exn) : M A := fun t => (Throw e, t).

Definition bind {A B} (m : M A) (k : A -> M B) : M B :=
  fun t =>
    match m t with
    | (Return a, t') => k a t'
    | (Throw e, t') => (Throw e, t')
    end.

(** [try { m } catch { h }] *)
Definition try_catch {A} (m : M A) (h : M A) : M A :=
  fun t =>
    match m t with
    | (Return a, t') => (Return a, t')
    | (Throw _, t') => h t'
    end.

Declare Scope js_scope.
Delimit Scope js_scope with js.
Notation "x <- m ;; k" := (bind m (fun x => k))
  (at level 100, m at next level, right associativity) : js_scope.
Notation "m ;; k" := (bind m (fun _ => k))
  (at level 100, right associativity) : js_scope.
Local Open Scope js_scope.

(** The primitives, awaited. *)
Definition update (f : fs content -> errno + fs content) : M unit :=
  fun t =>
    match f t with
    | inl e => (Throw (IOError e), t)
    | inr t' => (Return tt, t')
    end.

Definition query {A} (f : fs content -> errno + A) : M A :=
  fun t =>
    match f t with
    | inl e => (Throw (IOError e), t)
    | inr a => (Return a, t)
    end.

Definition mkdir (p : path) : M unit := update (fun t => mkdir_p t p).
Definition stat (p : path) : M (node content) := query (fun t => Fs.stat t p).
Definition readFile (p : path) : M content := query (fun t => Fs.readFile t p).
Definition writeFile (p : path) (c : content) : M unit :=
  update (fun t => Fs.writeFile t p c).
Definition unlink (p : path) : M unit := update (fun t => Fs.unlink t p).
Definition rm (p : path) : M unit := update (fun t => inr (rm_rf t p)).

(** [rename] on paths that are still to be resolved. *)
Definition rename (src dst : list jsstring) : M unit :=
  if ends_in_dots src || ends_in_dots dst then throw (IOError EINVAL)
  else update (fun t => Fs.rename t (normalize src) (normalize dst)).

Definition isDirectory (n : node content) : bool :=
  match n with
  | Dir => true
  | File _ => false
  end.

Section Cleanup.

(** [os.homedir()] *)
Variable homedir : path.

Definition CLAUDE_DIR : path := join homedir (js ".claude").
Definition PROJECTS_DIR : path := join CLAUDE_DIR (js "projects").
Definition TOOL_DIR : path := join (join CLAUDE_DIR (js "tools")) (js "csesh").
Definition TRASH_DIR : path := join TOOL_DIR (js "trash").
Definition TRASH_MANIFEST : path := join TOOL_DIR (js "trash-manifest.json").

Definition jsonl : jsstring := js ".jsonl".

Definition resolveOriginalPath (storedPath : stored_path) : path :=
  match storedPath with
  | Absolute p => p
  | Relative ups downs => resolve PROJECTS_DIR ups downs
  end.

(** The manifest object: [Some items] when it has an [items] array. *)
Definition manifest := option (list TrashItem).

Definition loadManifest : M manifest :=
  try_catch
    (data <- readFile TRASH_MANIFEST ;;
     match data with
     | Journal items => ret (Some items)
     | OtherJson _ => ret None
     | Text _ => throw SyntaxError
     end)
    (ret (Some [])).

Definition saveManifest (items : list TrashItem) : M unit :=
  mkdir TRASH_DIR ;;
  writeFile TRASH_MANIFEST (Journal items).

(** [manifest.items], a [TypeError] on a manifest without the array *)
Definition items_of (m : manifest) : M (list TrashItem) :=
  match m with
  | Some items => ret items
  | None => throw TypeError
  end.

(** The companion directory of a session is moved along with it when
    [stat] finds a directory; any failure is swallowed. *)
Definition move_companion (src dst : list jsstring) : M unit :=
  try_catch
    (dirStat <- stat (normalize src) ;;
     if isDirectory dirStat then rename src dst else ret tt)
    (ret tt).

Definition trashSession (session : Session) (reason : jsstring)
  (now : jsstring) : M (jsstring * path) :=
  mkdir TRASH_DIR ;;
  let fileName := basename (filePath session) in
  let trashPath := join TRASH_DIR fileName in
  rename (filePath session) trashPath ;;
  let companionDir := replace_in_path (filePath session) jsonl in
  move_companion companionDir (join TRASH_DIR (raw_basename companionDir)) ;;
  m <- loadManifest ;;
  items <- items_of m ;;
  saveManifest
    (items ++
     [{| item_id := id session;
         originalPath := relative PROJECTS_DIR (filePath session);
         trashPath := trashPath;
         trashedAt := now;
         reason := reason;
         item_junkScore := junkScore session;
         item_junkReasons := junkReasons session;
         item_fileSizeBytes := fileSizeBytes session;
         item_title := title session;
         project := shortProject session |}]) ;;
  ret (id session, trashPath).

(** [items.findIndex(pred)], [None] for [-1] *)
Fixpoint findIndex (pred : TrashItem -> bool) (items : list TrashItem)
  : option nat :=
  match items with
  | [] => None
  | i :: items' => if pred i then Some 0%nat else S <$> findIndex pred items'
  end.

(** [items.splice(idx, 1)] *)
Definition splice (idx : nat) (items : list TrashItem) : list TrashItem :=
  take idx items ++ drop (S idx) items.

Definition restoreSession (id : jsstring) : M (jsstring * path) :=
  m <- loadManifest ;;
  items <- items_of m ;;
  match findIndex (fun i => str_eqb (item_id i) id) items with
  | None => throw (NotFound id)
  | Some idx =>
      match items !! idx with
      | None => throw TypeError
      | Some item =>
          let originalPath := resolveOriginalPath (originalPath item) in
          mkdir (dirname originalPath) ;;
          rename (trashPath item) originalPath ;;
          let companionTrash := replace_in_path (trashPath item) jsonl in
          let companionOriginal := replace_in_path originalPath jsonl in
          move_companion companionTrash companionOriginal ;;
          saveManifest (splice idx items) ;;
          ret (id, originalPath)
      end
  end.

Definition deleteFromTrash (id : jsstring) : M (jsstring * bool) :=
  m <- loadManifest ;;
  items <- items_of m ;;
  match findIndex (fun i => str_eqb (item_id i) id || startsWith (item_id i) id)
                  items with
  | None => throw (NotFound id)
  | Some idx =>
      match items !! idx with
      | None => throw TypeError
      | Some item =>
          try_catch (unlink (trashPath item)) (ret tt) ;;
          let companion := replace_in_path (trashPath item) jsonl in
          try_catch
            (dirStat <- stat (normalize companion) ;;
             if isDirectory dirStat then rm (normalize companion) else ret tt)
            (ret tt) ;;
          saveManifest (splice idx items) ;;
          ret (item_id item, true)
      end
  end.

(** [findSessionFiles]: the session the scanner makes of the file [name]
    in the project directory [slug]. *)
Definition session_file (slug name : jsstring) : jsstring * path :=
  (replace_first name jsonl [], join (join PROJECTS_DIR slug) name).

(** The manifest as [loadManifest] reads it off a file system. *)
Definition journal (t : fs content) : manifest :=
  match t !! TRASH_MANIFEST with
  | Some (File (Journal items)) => Some items
  | Some (File (OtherJson _)) => None
  | _ => Some []
  end.

(** The entry [trashSession] appends. *)
Definition item_of (session : Session) (reason now : jsstring) : TrashItem :=
  {| item_id := id session;
     originalPath := relative PROJECTS_DIR (filePath session);
     trashPath := join TRASH_DIR (basename (filePath session));
     trashedAt := now;
     reason := reason;
     item_junkScore := junkScore session;
     item_junkReasons := junkReasons session;
     item_fileSizeBytes := fileSizeBytes session;
     item_title := title session;
     project := shortProject session |}.

End Cleanup.

(** A component without the text [.jsonl]. *)
Definition jsonl_free (c : jsstring) : bool := negb (includes c jsonl).


(** The entries a purge of [wanted] accepts. *)
Definition purge_match (wanted : jsstring) (i : TrashItem) : bool :=
  str_eqb (item_id i) wanted || startsWith (item_id i) wanted.

(** Some file of the tree holds the text. *)
Definition holds_text (t : fs content) (bytes : jsstring) : bool :=
  existsb (fun kv => match kv.2 with
                     | File (Text b) => bool_decide (b = bytes)
                     | _ => false
                     end)
          (map_to_list t).

(** Sample states: the home directory [/home/u], two projects [A] and
    [B] that each hold a session file [s.jsonl], and the tool directory
    with its trash. *)
Definition home : path := [js "home"; js "u"].

Definition dirs (ps : list path) : fs content :=
  list_to_map ((fun p => (p, Dir)) <$> ps).

Definition project_tree : fs content :=
  dirs [[]; [js "home"]; home; CLAUDE_DIR home; PROJECTS_DIR home;
        PROJECTS_DIR home ++ [js "A"]; PROJECTS_DIR home ++ [js "B"]].

Definition fileA : path := PROJECTS_DIR home ++ [js "A"; js "s.jsonl"].
Definition fileB : path := PROJECTS_DIR home ++ [js "B"; js "s.jsonl"].
Definition slot_s : path := TRASH_DIR home ++ [js "s.jsonl"].

Definition summary (i : jsstring) (p : path) : Session :=
  {| id := i; filePath := p; junkScore := None; junkReasons := [];
     fileSizeBytes := Num 3; title := None; shortProject := None |}.

Definition sessionA : Session := summary (js "s") fileA.
Definition sessionB : Session := summary (js "s") fileB.

Definition one_session : fs content :=
  <[fileA := File (Text (js "aaa"))]> project_tree.

Definition two_sessions : fs content :=
  <[fileB := File (Text (js "bbb"))]> one_session.

Definition with_manifest (c : content) (t : fs content) : fs content :=
  <[TRASH_MANIFEST home := File c]>
    (dirs [CLAUDE_DIR home ++ [js "tools"]; TOOL_DIR home; TRASH_DIR home] ∪ t).

Definition entry (i : jsstring) (original trashed : path) : TrashItem :=
  {| item_id := i; originalPath := relative (PROJECTS_DIR home) original;
     trashPath := trashed; trashedAt := js "2026-01-01T00:00:00.000Z";
     reason := js "manual"; item_junkScore := None; item_junkReasons := [];
     item_fileSizeBytes := Num 3; item_title := None; project := None |}.

(** The manifest holds an entry for the session that is still in place. *)
Definition stale_entry : fs content :=
  with_manifest (Journal [entry (js "s") fileA slot_s]) one_session.

(** The manifest is the JSON document [{}]. *)
Definition manifest_without_items : fs content :=
  with_manifest (OtherJson (js "{}")) one_session.

(** Two sessions in the trash, [abc1] and [abd2]: the prefix [abc] picks
    out the first, the prefix [ab] fits both. *)
Definition two_trashed : fs content :=
  <[TRASH_DIR home ++ [js "abc1.jsonl"] := File (Text (js "one"))]>
    (<[TRASH_DIR home ++ [js "abd2.jsonl"] := File (Text (js "two"))]>
       (with_manifest
          (Journal
             [entry (js "abc1") (PROJECTS_DIR home ++ [js "A"; js "abc1.jsonl"])
                (TRASH_DIR home ++ [js "abc1.jsonl"]);
              entry (js "abd2") (PROJECTS_DIR home ++ [js "A"; js "abd2.jsonl"])
                (TRASH_DIR home ++ [js "abd2.jsonl"])])
          project_tree)).

Section EmptyTrash.

Variable homedir : path.

(** [new Date(s).getTime()], [None] for [NaN] *)
Variable Date_parse : jsstring -> option Z.

(** The deletion of a trashed file and of its companion directory, as
    [emptyTrash] does it for each entry; every failure is swallowed. *)
Definition purge_item (item : TrashItem) : M unit :=
  try_catch (unlink (trashPath item)) (ret tt) ;;
  let companion := replace_in_path (trashPath item) jsonl in
  try_catch
    (dirStat <- stat (normalize companion) ;;
     if isDirectory dirStat then rm (normalize companion) else ret tt)
    (ret tt).

Fixpoint purge_items (items : list TrashItem) : M unit :=
  match items with
  | [] => ret tt
  | item :: rest => purge_item item ;; purge_items rest
  end.

(** [new Date(item.trashedAt).getTime() < cutoff] *)
Definition older (cutoff : Z) (item : TrashItem) : bool :=
  match Date_parse (trashedAt item) with
  | Some time => time <? cutoff
  | None => false
  end.

(** [emptyTrash(olderThanDays)] at the time [now]: the numbers removed
    and remaining *)
Definition emptyTrash (olderThanDays : Z) (now : Z) : M (nat * nat) :=
  m <- loadManifest homedir ;;
  items <- items_of m ;;
  let cutoff := now - olderThanDays * 24 * 60 * 60 * 1000 in
  let toRemove := filter (fun item => older cutoff item = true) items in
  let toKeep := filter (fun item => older cutoff item = false) items in
  purge_items toRemove ;;
  saveManifest homedir toKeep ;;
  ret (length toRemove, length toKeep).

End EmptyTrash.

(** [items.find(pred)] *)
Definition find (pred : TrashItem -> bool) (items : list TrashItem)
  : option TrashItem :=
  idx ← findIndex pred items; items !! idx.

(** A reader of the ISO dates of the samples: the year alone. *)
Definition sample_date (s : jsstring) : option Z :=
  if startsWith s (js "2026") then Some 2026
  else if startsWith s (js "2025") then Some 2025
  else None.

(** The session is in the trash with its entry in the manifest, and a
    file has appeared again at its path. *)
Definition trashed_and_recreated : fs content :=
  <[slot_s := File (Text (js "old"))]> stale_entry.

End Cleanup.

(** * Part II: properties *)

(** ** Strings *)

Module JsProps.
Import Js.

Lemma split_nonempty sep s : split sep s <> [].
Proof. destruct s as [|c s]; [done|]. cbn. by repeat case_match. Qed.

Lemma split_single sep (l : jsstring) : sep ∉ l -> split sep l = [l].
Proof.
  induction l as [|c l IH]; [done|]. intros Hc.
  apply not_elem_of_cons in Hc as [Hc Hl]. cbn [split].
  destruct (N.eqb_spec c sep); [done|]. by rewrite IH.
Qed.

Lemma split_app sep (l rest : jsstring) :
  sep ∉ l -> split sep (l ++ sep :: rest) = l :: split sep rest.
Proof.
  induction l as [|c l IH]; intros Hc.
  - cbn. by rewrite N.eqb_refl.
  - apply not_elem_of_cons in Hc as [Hc Hl]. cbn [split app].
    destruct (N.eqb_spec c sep); [done|]. by rewrite IH.
Qed.

Lemma split_join sep (ls : list jsstring) :
  ls <> [] -> Forall (fun l => sep ∉ l) ls ->
  split sep (join_with [sep] ls) = ls /\
  split sep (join_with [sep] ls ++ [sep]) = ls ++ [[]].
Proof.
  intros Hne HF. induction HF as [|l ls Hl HF IH]; [done|].
  destruct ls as [|l' ls].
  - cbn [join_with]. split; [by apply split_single|].
    by rewrite split_app.
  - destruct IH as [IH1 IH2]; [done|].
    change (join_with [sep] (l :: l' :: ls))
      with (l ++ sep :: join_with [sep] (l' :: ls)).
    rewrite <- app_assoc. cbn [app]. rewrite !split_app by done.
    split; [by rewrite IH1|]. by rewrite IH2.
Qed.

Lemma join_split sep (s : jsstring) :
  join_with [sep] (split sep s) = s /\ Forall (fun l => sep ∉ l) (split sep s).
Proof.
  induction s as [|c s [IH1 IH2]].
  - split; [done|]. repeat constructor. apply not_elem_of_nil.
  - cbn [split]. destruct (N.eqb_spec c sep) as [->|Hc].
    + split.
      * pose proof (split_nonempty sep s).
        destruct (split sep s) as [|l ls] eqn:E; [done|].
        change (join_with [sep] ([] :: l :: ls))
          with (sep :: join_with [sep] (l :: ls)). by rewrite IH1.
      * constructor; [apply not_elem_of_nil|done].
    + pose proof (split_nonempty sep s).
      destruct (split sep s) as [|l ls] eqn:E; [done|].
      apply Forall_cons in IH2 as [Hl Hls]. split.
      * destruct ls as [|l' ls]; [cbn in *; by subst|].
        change (join_with [sep] ((c :: l) :: l' :: ls))
          with (c :: (l ++ sep :: join_with [sep] (l' :: ls))).
        f_equal. exact IH1.
      * constructor; [|done]. apply not_elem_of_cons. auto.
Qed.

End JsProps.

(** ** Patterns, junk messages and the helpers of lib/utils.js *)

Module UtilsProps.
Import Js Regex Utils JsProps.

Section Matches.

Variable ci : bool.

Lemma nullable_matches r : nullable r = true <-> matches ci r [].
Proof.
  split.
  - induction r; cbn; intros H; try done.
    + constructor.
    + apply andb_true_iff in H as [H1 H2].
      change (@nil N) with (@nil N ++ []). constructor; auto.
    + apply orb_true_iff in H as [H|H];
        [apply matches_alt_l|apply matches_alt_r]; auto.
    + constructor.
  - intros H. remember [] as s eqn:Es.
    induction H; cbn; try done.
    + apply app_eq_nil in Es as [-> ->]. by rewrite IHmatches1, IHmatches2.
    + by rewrite IHmatches.
    + rewrite IHmatches by done. apply orb_true_r.
Qed.

Lemma matches_deriv_1 r a s : matches ci (deriv ci a r) s -> matches ci r (a :: s).
Proof.
  revert s. induction r as [| |c| |r1 IH1 r2 IH2|r1 IH1 r2 IH2|r IH];
    intros s H; cbn [deriv] in H.
  - inversion H.
  - inversion H.
  - destruct (if ci then _ else _) eqn:E; inversion H; subst.
    by constructor.
  - destruct (isWhiteSpace a) eqn:E; inversion H; subst. by constructor.
  - destruct (nullable r1) eqn:En.
    + inversion H as [| | | |? ? ? H'|? ? ? H'| |]; subst.
      * inversion H' as [| | |? ? s1 s2 Ha Hb| | | |]; subst.
        change (a :: s1 ++ s2) with ((a :: s1) ++ s2). constructor; auto.
      * change (a :: s) with ([] ++ a :: s). constructor; [|auto].
        by apply nullable_matches.
    + inversion H as [| | |? ? s1 s2 Ha Hb| | | |]; subst.
      change (a :: s1 ++ s2) with ((a :: s1) ++ s2). constructor; auto.
  - inversion H; subst; [apply matches_alt_l|apply matches_alt_r]; auto.
  - inversion H as [| | |? ? s1 s2 Ha Hb| | | |]; subst.
    change (a :: s1 ++ s2) with ((a :: s1) ++ s2). constructor; auto.
Qed.

Lemma matches_deriv_2 r s0 :
  matches ci r s0 -> forall a s, s0 = a :: s -> matches ci (deriv ci a r) s.
Proof.
  induction 1 as [|c b Hc|b Hb|r1 r2 s1 s2 H1 IH1 H2 IH2|r1 r2 s0 H IH
                 |r1 r2 s0 H IH|r|r s1 s2 H1 IH1 H2 IH2];
    intros a s E; cbn [deriv].
  - done.
  - injection E as -> <-. rewrite Hc. constructor.
  - injection E as -> <-. rewrite Hb. constructor.
  - destruct s1 as [|x s1].
    + cbn in E. subst s2.
      assert (nullable r1 = true) as -> by (by apply nullable_matches).
      apply matches_alt_r. by apply IH2.
    + cbn in E. injection E as -> <-.
      destruct (nullable r1).
      * apply matches_alt_l. constructor; auto.
      * constructor; auto.
  - apply matches_alt_l. auto.
  - apply matches_alt_r. auto.
  - done.
  - destruct s1 as [|x s1]; [by apply IH2|].
    cbn in E. injection E as -> <-. constructor; auto.
Qed.

(** The test by derivatives decides the pattern. *)
Lemma test_matches r s : test ci r s = true <-> matches ci r s.
Proof.
  unfold test. revert r. induction s as [|a s IH]; intros r; cbn [fold_left].
  - apply nullable_matches.
  - rewrite IH. split; [apply matches_deriv_1|].
    intros H. by eapply matches_deriv_2.
Qed.

Lemma norm_eqb c a :
  (if ci then canonicalize c =? canonicalize a else c =? a)%N
  = (norm ci c =? norm ci a)%N.
Proof. unfold norm. by destruct ci. Qed.

Lemma matches_lang r s :
  finite r = true -> matches ci r s <-> norm ci <$> s ∈ lang ci r.
Proof.
  intros Hf. split.
  - intros H. induction H; cbn [finite] in Hf; cbn [lang]; try done.
    + apply list_elem_of_singleton. done.
    + rewrite norm_eqb in H. apply N.eqb_eq in H. cbn. rewrite H.
      by apply list_elem_of_singleton.
    + apply andb_true_iff in Hf as [Hf1 Hf2].
      apply list_elem_of_bind. exists (norm ci <$> s1). split; [|auto].
      rewrite fmap_app. apply list_elem_of_fmap. eauto.
    + apply andb_true_iff in Hf as [Hf1 Hf2]. apply elem_of_app. auto.
    + apply andb_true_iff in Hf as [Hf1 Hf2]. apply elem_of_app. auto.
  - revert s. induction r as [| |c| |r1 IH1 r2 IH2|r1 IH1 r2 IH2|r IH];
      intros s H; cbn [finite] in Hf; cbn [lang] in H; try done.
    + by apply elem_of_nil in H.
    + apply list_elem_of_singleton in H. apply fmap_nil_inv in H as ->.
      constructor.
    + apply list_elem_of_singleton in H.
      destruct s as [|a [|b s]]; try done. cbn in H. injection H as H.
      constructor. rewrite norm_eqb, H. apply N.eqb_refl.
    + apply andb_true_iff in Hf as [Hf1 Hf2].
      apply list_elem_of_bind in H as (x & Hy & Hx).
      apply list_elem_of_fmap in Hy as (y & E & Hy).
      apply fmap_app_inv in E as (s1 & s2 & -> & -> & ->).
      constructor; auto.
    + apply andb_true_iff in Hf as [Hf1 Hf2].
      apply elem_of_app in H as [H|H];
        [apply matches_alt_l|apply matches_alt_r]; auto.
Qed.

Lemma matches_spaces s : matches ci (Star Space) s <-> Forall (fun c => isWhiteSpace c = true) s.
Proof.
  split.
  - intros H. remember (Star Space) as r eqn:Er.
    induction H; try done.
    injection Er as ->. apply Forall_app. split; [|auto].
    inversion H; subst. by repeat constructor.
  - induction 1 as [|c s Hc _ IH]; [constructor|].
    change (c :: s) with ([c] ++ s). constructor; [by constructor|done].
Qed.

End Matches.

Lemma existsb_finite (ps : list (regex * bool)) (s : jsstring) :
  Forall (fun p => finite p.1 = true /\ p.2 = true) ps ->
  existsb (fun p => test p.2 p.1 s) ps = true <->
  canonicalize <$> s ∈ (ps ≫= fun p => lang true p.1).
Proof.
  induction 1 as [|[r ci] ps [Hf Hc] _ IH]; [cbn; split; [done|]|].
  - by intros H%elem_of_nil.
  - cbn in Hf, Hc. subst ci. cbn [existsb fst snd mbind list_bind].
    rewrite orb_true_iff, elem_of_app, IH, test_matches, (matches_lang true r s Hf).
    done.
Qed.

(** X1.  [truncate] returns a text of at most [maxLen] code units when
    [maxLen] is one at least: the text itself when it fits, otherwise its
    first [maxLen - 1] code units and an ellipsis.  With [maxLen] zero the
    slice ends one short of the end, and the result is as long as the
    text. *)
Theorem truncate_length (s : jsstring) (maxLen : Z) :
  (Z.of_nat (length s) <= maxLen -> truncate (Some s) maxLen = s) /\
  (1 <= maxLen < Z.of_nat (length s) ->
   truncate (Some s) maxLen = take (Z.to_nat (maxLen - 1)) s ++ js "…" /\
   Z.of_nat (length (truncate (Some s) maxLen)) = maxLen) /\
  (s <> [] -> length (truncate (Some s) 0) = length s).
Proof.
  assert (He : length (js "…") = 1%nat) by reflexivity.
  unfold truncate, slice0. split; [|split].
  - intros H. destruct s; [done|].
    by rewrite (proj2 (Z.leb_le _ _) H).
  - intros H. destruct s as [|c s]; [cbn in H; lia|].
    rewrite (proj2 (Z.leb_gt _ _)) by lia.
    rewrite (proj2 (Z.ltb_ge _ _)) by lia. split; [done|].
    rewrite length_app, length_take, He. lia.
  - intros H. destruct s as [|c s]; [done|].
    rewrite (proj2 (Z.leb_gt _ _)) by (cbn [length]; lia).
    change (0 - 1 <? 0) with true. cbv iota.
    rewrite length_app, length_take, He. cbn [length]. lia.
Qed.

Lemma decode_map (slug : jsstring) :
  decodeProjectSlug slug = map (fun c => if (c =? 45)%N then 47%N else c) slug.
Proof.
  unfold decodeProjectSlug. destruct slug as [|c slug]; [done|].
  destruct (N.eqb_spec c 45) as [->|Hc]; [done|].
  destruct c as [|p]; [done|].
  do 6 (destruct p as [p|p|]; try done).
Qed.

(** X2.  [decodeProjectSlug] turns every hyphen into a slash and leaves
    the rest: the first of its two replacements changes nothing that the
    second would not.  So the result has the length of the slug and no
    hyphen, a hyphen of a directory name is lost, and decoding again
    changes nothing. *)
Theorem decodeProjectSlug_map (slug : jsstring) :
  decodeProjectSlug slug = map (fun c => if (c =? 45)%N then 47%N else c) slug /\
  length (decodeProjectSlug slug) = length slug /\
  (45%N ∉ decodeProjectSlug slug) /\
  decodeProjectSlug (decodeProjectSlug slug) = decodeProjectSlug slug.
Proof.
  rewrite !decode_map. split; [done|]. split; [by rewrite length_map|].
  split.
  - intros H. apply list_elem_of_In, in_map_iff in H as (c & Hc & _).
    revert Hc. by destruct (N.eqb_spec c 45).
  - rewrite map_map. apply map_ext. intros c.
    destruct (N.eqb_spec c 45) as [->|Hc]; [done|].
    by rewrite (proj2 (N.eqb_neq _ _) Hc).
Qed.

Lemma last_filter_cons {A} (P : A -> Prop) `{!forall x, Decision (P x)} x (l : list A) :
  last (filter P (x :: l))
  = match last (filter P l) with
    | Some y => Some y
    | None => if decide (P x) then Some x else None
    end.
Proof.
  rewrite filter_cons. destruct (decide (P x)); [|by destruct (last _)].
  destruct (filter P l) as [|y k] eqn:E; [done|].
  by rewrite last_cons.
Qed.

(** The last word of a text cut at a separator. *)
Lemma last_word sep (segs : list jsstring) :
  Forall (fun l => sep ∉ l) segs ->
  match last (filter (fun p => p <> []) segs) with
  | Some name =>
      name <> [] /\ (sep ∉ name) /\
      exists pre post,
        join_with [sep] segs = pre ++ name ++ post /\
        Forall (fun c => c = sep) post /\
        (pre = [] \/ exists pre', pre = pre' ++ [sep])
  | None => Forall (fun c => c = sep) (join_with [sep] segs)
  end.
Proof.
  induction 1 as [|seg rest Hseg HF IH]; [by cbn|].
  rewrite last_filter_cons.
  destruct (last (filter _ rest)) as [name|] eqn:El.
  - destruct IH as (Hne & Hn & pre & post & Hj & Hpost & Hpre).
    split; [done|]. split; [done|].
    destruct rest as [|r rest]; [done|].
    change (join_with [sep] (seg :: r :: rest))
      with (seg ++ sep :: join_with [sep] (r :: rest)).
    rewrite Hj. exists (seg ++ sep :: pre), post.
    split; [by rewrite <- app_assoc|]. split; [done|]. right.
    destruct Hpre as [->|[pre' ->]]; [by exists seg|].
    exists (seg ++ sep :: pre'). by rewrite <- app_assoc.
  - assert (Hall : Forall (fun c => c = sep)
                     (match rest with [] => [] | _ => sep :: join_with [sep] rest end)).
    { destruct rest; [done|]. by constructor. }
    assert (Hj : join_with [sep] (seg :: rest)
                 = seg ++ match rest with [] => [] | _ => sep :: join_with [sep] rest end).
    { destruct rest; [by rewrite app_nil_r|done]. }
    rewrite Hj. destruct (decide _) as [Hne|He].
    + split; [done|]. split; [done|]. eexists [], _. split; [done|]. auto.
    + assert (seg = []) as -> by (by destruct seg; [|destruct He]).
      done.
Qed.

Lemma fmap_decode_inv (l k : jsstring) :
  (fun c => if (c =? 45)%N then 47%N else c) <$> l = k -> 47%N ∉ k ->
  l = k /\ Forall (fun c => ~ separator c) k.
Proof.
  revert k. induction l as [|c l IH]; intros k E Hk; cbn in E; subst k.
  - done.
  - apply not_elem_of_cons in Hk as [Hc Hk].
    destruct (IH _ eq_refl Hk) as [IH1 IH2].
    destruct (N.eqb_spec c 45) as [->|Hc']; [done|].
    split; [by rewrite <- IH1|].
    constructor; [|done]. by intros [?|?].
Qed.

Lemma fmap_decode_separators (l k : jsstring) :
  (fun c => if (c =? 45)%N then 47%N else c) <$> l = k ->
  Forall (fun c => c = 47%N) k <-> Forall separator l.
Proof.
  intros <-. rewrite Forall_fmap. apply Forall_iff. intros c. cbn.
  unfold separator. destruct (N.eqb_spec c 45); [tauto|]. tauto.
Qed.

(** X3.  The short name of a project is the last word of its slug, the
    words being what is left between hyphens and slashes: it is not
    empty, holds no hyphen and no slash, and only hyphens and slashes
    follow it.  A slug of hyphens and slashes only has its decoded text
    for short name. *)
Theorem shortProjectName_last_word (slug : jsstring) :
  let name := shortProjectName (decodeProjectSlug slug) in
  (Forall separator slug /\ name = decodeProjectSlug slug) \/
  (name <> [] /\ Forall (fun c => ~ separator c) name /\
   exists pre post,
     slug = pre ++ name ++ post /\ Forall separator post /\
     (pre = [] \/ exists pre' c, pre = pre' ++ [c] /\ separator c)).
Proof.
  cbv zeta. rewrite decode_map. unfold shortProjectName.
  set (d := map _ slug).
  destruct (join_split 47 d) as [Hj HF].
  pose proof (last_word 47 (split 47 d) HF) as H. rewrite Hj in H.
  destruct (last _) as [name|]; cbn [default].
  - right. destruct H as (Hne & Hn & pre & post & Hd & Hpost & Hpre).
    split; [done|].
    apply fmap_app_inv in Hd as (pre' & rest & Epre & Erest & ->).
    symmetry in Erest.
    apply fmap_app_inv in Erest as (name' & post' & Ename & Epost & ->).
    destruct (fmap_decode_inv name' name) as [-> Hsep]; [done|done|].
    split; [done|]. exists pre', post'. split; [done|].
    split; [by apply (fmap_decode_separators post' post)|].
    destruct Hpre as [->|[p ->]].
    + left. symmetry in Epre. by apply fmap_nil_inv in Epre.
    + right. symmetry in Epre.
      apply fmap_app_inv in Epre as (q & cs & _ & Ecs & ->).
      destruct cs as [|c [|c' cs]]; try done.
      exists q, c. split; [done|]. cbn in Ecs. injection Ecs as Ecs.
      unfold separator. destruct (N.eqb_spec c 45); auto.
  - left. split; [|done]. by apply (fmap_decode_separators slug d).
Qed.

Lemma trimStart_head (s : jsstring) :
  match trimStart s with
  | c :: _ => isWhiteSpace c = false
  | [] => True
  end.
Proof.
  induction s as [|c s IH]; [done|]. cbn [trimStart].
  by destruct (isWhiteSpace c) eqn:E; [|rewrite E].
Qed.

Lemma trimStart_spaces (s : jsstring) :
  Forall (fun c => isWhiteSpace c = true) s -> trimStart s = [].
Proof. induction 1 as [|c s Hc _ IH]; [done|]. cbn. by rewrite Hc. Qed.

Lemma trim_spaces (s : jsstring) :
  Forall (fun c => isWhiteSpace c = true) (trim s) <-> trim s = [].
Proof.
  split; [|by intros ->]. unfold trim. intros H.
  pose proof (trimStart_head (reverse (trimStart s))) as Hh.
  destruct (trimStart (reverse (trimStart s))) as [|c k]; [done|].
  rewrite reverse_cons, Forall_app, Forall_singleton in H.
  destruct H as [_ H]. congruence.
Qed.

Lemma trim_blank (s : jsstring) :
  Forall (fun c => isWhiteSpace c = true) s -> trim s = [].
Proof.
  intros H. unfold trim. by rewrite (trimStart_spaces s H).
Qed.

(** X4.  A message is junk exactly when it is not the empty text and,
    once trimmed, it is empty, a single full stop, or one of the fourteen
    words up to the case of its letters; so a text of white space only is
    junk although the empty text is not. *)
Theorem isJunkMessage_iff (t : jsstring) :
  (isJunkMessage (Some t) = true <->
   t <> [] /\
   (trim t = [] \/ trim t = js "." \/ canonicalize <$> trim t ∈ junk_words)) /\
  (t <> [] -> Forall (fun c => isWhiteSpace c = true) t ->
   isJunkMessage (Some t) = true) /\
  isJunkMessage (Some []) = false /\ isJunkMessage None = false.
Proof.
  assert (Hmain : isJunkMessage (Some t) = true <->
    t <> [] /\
    (trim t = [] \/ trim t = js "." \/ canonicalize <$> trim t ∈ junk_words)).
  { destruct t as [|c t]; [cbn; split; [done|by intros [? _]]|].
    unfold isJunkMessage. cbv zeta.
    pose proof (trim_spaces (c :: t)) as Hsp. revert Hsp.
    generalize (trim (c :: t)). intros s Hsp.
    change JUNK_PATTERNS
      with (take 9 JUNK_PATTERNS
            ++ [(Star Space, false); (lit (js "."), false)]
            ++ drop 11 JUNK_PATTERNS).
    rewrite !existsb_app, !orb_true_iff.
    rewrite (existsb_finite (take 9 JUNK_PATTERNS)) by (repeat constructor).
    rewrite (existsb_finite (drop 11 JUNK_PATTERNS)) by (repeat constructor).
    cbn [existsb fst snd]. rewrite orb_false_r, orb_true_iff.
    rewrite !test_matches, matches_spaces, Hsp.
    rewrite (matches_lang false (lit (js ".")) s eq_refl).
    assert (Hid : norm false <$> s = s) by apply list_fmap_id.
    rewrite Hid.
    assert (Hdot : s ∈ lang false (lit (js ".")) <-> s = js ".")
      by apply list_elem_of_singleton.
    rewrite Hdot.
    assert (Hw : junk_words
                 = (take 9 JUNK_PATTERNS ≫= fun p => lang true p.1)
                   ++ (drop 11 JUNK_PATTERNS ≫= fun p => lang true p.1))
      by (vm_compute; reflexivity).
    rewrite Hw, elem_of_app. split; [|tauto].
    intros H. split; [done|tauto]. }
  split; [exact Hmain|]. split; [|done].
  intros Hne Hws. apply Hmain. split; [done|]. left. by apply trim_blank.
Qed.

End UtilsProps.

(** ** The classifier *)

Module ClassifierProps.
Import Js Classifier.

Lemma or_zero_absent v : or_zero (zero_if_absent v) = or_zero v.
Proof. by destruct v. Qed.

Lemma isTier1_deep s r : isTier1 (zero_absent_deep s) r = isTier1 s r.
Proof. reflexivity. Qed.

Lemma isTier4_deep s : isTier4 (zero_absent_deep s) = isTier4 s.
Proof.
  unfold isTier4; cbn [zero_absent_deep turnCount totalToolCalls thinkingBlocks
    uniqueFilesCount durationMs userMessageCount assistantMessageCount
    fileSizeBytes].
  by rewrite !or_zero_absent.
Qed.

Lemma isTier2_deep s r : isTier2 (zero_absent_deep s) r = isTier2 s r.
Proof.
  unfold isTier2, title_text; cbn [zero_absent_deep totalToolCalls title
    durationMs userMessageCount assistantMessageCount fileSizeBytes].
  by rewrite !or_zero_absent.
Qed.

Lemma verdict_applyTier s s' t r :
  tierOverride s = tierOverride s' ->
  verdict (applyTier s t r) = verdict (applyTier s' t r).
Proof. unfold verdict, applyTier; cbn. by intros ->. Qed.

Lemma autoTier_classify s : autoTier (classify s) = Num (first_match s).
Proof.
  unfold classify, first_match.
  destruct (isTier1 s []) as [[] r1]; cbn [fst snd]; [done|].
  destruct (isTier4 s); [done|].
  by destruct (isTier2 s r1) as [[] r2].
Qed.

Lemma tier_classify s :
  tier (classify s) =
  if not_nullish (tierOverride s) then tierOverride s else Num (first_match s).
Proof.
  unfold classify, first_match.
  destruct (isTier1 s []) as [[] r1]; cbn [fst snd]; [done|].
  destruct (isTier4 s); [done|].
  by destruct (isTier2 s r1) as [[] r2].
Qed.

Lemma junkScore_classify s :
  junkScore (classify s) = TIER_SCORES (tier (classify s)).
Proof.
  unfold classify.
  destruct (isTier1 s []) as [[] r1]; [done|].
  destruct (isTier4 s); [done|].
  by destruct (isTier2 s r1) as [[] r2].
Qed.

(** C6. The tier tests run in the order 1, 4, 2, 3 and the first that
    holds decides: the tier the rules choose is [first_match].  A summary
    that meets a tier-1 condition is therefore tier 1 whatever its KEEP
    signals are (the rules' tier always, the visible tier when no override
    is set), and [{ category: 'empty', turnCount: 100 }], which also meets
    the KEEP test, is classified tier 1. *)
Theorem classify_tier1_dominates :
  (forall s, autoTier (classify s) = Num (first_match s)) /\
  (forall s, (isTier1 s []).1 = true ->
     autoTier (classify s) = Num TIER_AUTO_DELETE /\
     (not_nullish (tierOverride s) = false ->
      tier (classify s) = Num TIER_AUTO_DELETE)) /\
  (isTier4 empty_with_turns = true /\
   tier (classify empty_with_turns) = Num TIER_AUTO_DELETE /\
   autoTier (classify empty_with_turns) = Num TIER_AUTO_DELETE).
Proof.
  split; [exact autoTier_classify|].
  split; [|by vm_compute].
  intros s H1. rewrite autoTier_classify, tier_classify.
  unfold first_match. rewrite H1. split; [done|]. by intros ->.
Qed.

Lemma junkLabel_junk q : junkLabel (Some q) = js "junk" <-> (0.6 <= q)%Q.
Proof.
  unfold junkLabel. rewrite <- Qle_bool_iff.
  destruct (Qle_bool 0.6 q); [done|].
  split; [|done]. by destruct (Qle_bool 0.3 q).
Qed.

Lemma junkLabel_maybe q :
  junkLabel (Some q) = js "maybe" <-> (0.3 <= q)%Q /\ (q < 0.6)%Q.
Proof.
  unfold junkLabel.
  destruct (Qle_bool 0.6 q) eqn:H6; destruct (Qle_bool 0.3 q) eqn:H3.
  - apply Qle_bool_iff in H6. split; [done|]. intros [_ Hlt].
    by apply Qlt_not_le in Hlt.
  - apply Qle_bool_iff in H6. split; [done|]. intros [_ Hlt].
    by apply Qlt_not_le in Hlt.
  - apply Qle_bool_iff in H3. split; [|done]. intros _. split; [done|].
    apply Qnot_le_lt. intros H. apply Qle_bool_iff in H. congruence.
  - split; [done|]. intros [H _]. apply Qle_bool_iff in H. congruence.
Qed.

Lemma junkLabel_real q : junkLabel (Some q) = js "real" <-> (q < 0.3)%Q.
Proof.
  unfold junkLabel.
  destruct (Qle_bool 0.6 q) eqn:H6; destruct (Qle_bool 0.3 q) eqn:H3.
  - apply Qle_bool_iff in H3. split; [done|]. intros Hlt.
    by apply Qlt_not_le in Hlt.
  - apply Qle_bool_iff in H6. split; [done|]. intros Hlt.
    apply Qlt_not_le in Hlt. destruct Hlt.
    apply Qle_trans with (y := 0.6%Q); [done|exact H6].
  - apply Qle_bool_iff in H3. split; [done|]. intros Hlt.
    by apply Qlt_not_le in Hlt.
  - split; [|done]. intros _. apply Qnot_le_lt. intros H.
    apply Qle_bool_iff in H. congruence.
Qed.

(** C7. The score a classification writes is the table entry of the final
    tier (1.0, 0.7, 0.4 and 0.1 for the tiers 1 to 4) and nothing else of
    the summary; [junkLabel] is 'junk' exactly from 0.6 up, 'maybe' exactly
    from 0.3 up to but not including 0.6, and 'real' below; so a final tier
    of 1, 3 or 4 gives the label 'junk', 'maybe' or 'real' for any
    summary.  An override of 2 on a summary the rules put in tier 4 gives
    [tier = 2] and [autoTier = 4]. *)
Theorem legacy_score_of_tier :
  (forall s, junkScore (classify s) = TIER_SCORES (tier (classify s))) /\
  (TIER_SCORES (Num 1) = Some 1.0%Q /\ TIER_SCORES (Num 2) = Some 0.7%Q /\
   TIER_SCORES (Num 3) = Some 0.4%Q /\ TIER_SCORES (Num 4) = Some 0.1%Q) /\
  (forall q, (junkLabel (Some q) = js "junk" <-> (0.6 <= q)%Q) /\
             (junkLabel (Some q) = js "maybe" <-> (0.3 <= q)%Q /\ (q < 0.6)%Q) /\
             (junkLabel (Some q) = js "real" <-> (q < 0.3)%Q)) /\
  (forall s,
     (tier (classify s) = Num 1 ->
      junkScore (classify s) = Some 1.0%Q /\
      junkLabel (junkScore (classify s)) = js "junk") /\
     (tier (classify s) = Num 3 ->
      junkScore (classify s) = Some 0.4%Q /\
      junkLabel (junkScore (classify s)) = js "maybe") /\
     (tier (classify s) = Num 4 ->
      junkScore (classify s) = Some 0.1%Q /\
      junkLabel (junkScore (classify s)) = js "real")) /\
  (forall s, first_match s = TIER_KEEP ->
     tier (classify (with_tierOverride s (Num 2))) = Num 2 /\
     autoTier (classify (with_tierOverride s (Num 2))) = Num 4).
Proof.
  split; [exact junkScore_classify|].
  split; [done|].
  split; [intros q; auto using junkLabel_junk, junkLabel_maybe, junkLabel_real|].
  split.
  - intros s. rewrite junkScore_classify.
    split; [|split]; intros ->; split; reflexivity.
  - intros s H4. rewrite tier_classify, autoTier_classify.
    cbn [with_tierOverride tierOverride not_nullish]. split; [done|].
    change (first_match (with_tierOverride s (Num 2))) with (first_match s).
    by rewrite H4.
Qed.

(** C8, as the specification states it, fails: on the summary with no
    property set, an absent [userMessageCount] fails the tier-1 tests and
    the summary is left for review, while with zeros in place of the absent
    counts it is an auto-delete. *)
Lemma classify_absent_is_not_zero :
  verdict (classify blank) <> verdict (classify (zero_absent blank)) /\
  tier (classify blank) = Num TIER_REVIEW /\
  tier (classify (zero_absent blank)) = Num TIER_AUTO_DELETE.
Proof. split; [|by vm_compute]. by vm_compute. Qed.

(** C8, amended.  [classify] is a total function, and the absent
    deep-analysis counts (turn count, tool calls, thinking blocks, unique
    files) are read as zero: a summary and the same summary with zeros in
    place of those that are absent get the same tier, label, rules' tier,
    score and reasons. *)
Theorem classify_defaults_deep_fields s :
  verdict (classify s) = verdict (classify (zero_absent_deep s)).
Proof.
  unfold classify.
  rewrite isTier1_deep, isTier4_deep.
  destruct (isTier1 s []) as [[] r1];
    [by apply verdict_applyTier|].
  destruct (isTier4 s); [by apply verdict_applyTier|].
  rewrite isTier2_deep.
  destruct (isTier2 s r1) as [[] r2]; by apply verdict_applyTier.
Qed.

Lemma isTier1_reasons s r :
  isTier1 s r = (false, r) \/ exists x, isTier1 s r = (true, r ++ [x]).
Proof.
  unfold isTier1. repeat case_match; eauto.
Qed.

Lemma isTier2_reasons s r :
  isTier2 s r = (false, r) \/ exists x, isTier2 s r = (true, r ++ [x]).
Proof.
  unfold isTier2. cbv zeta. repeat case_match; eauto.
Qed.

Lemma computeReviewReasons_nonempty s r : computeReviewReasons s r <> [].
Proof.
  unfold computeReviewReasons. cbv zeta.
  match goal with
  | |- context [bool_decide ?P] => destruct (bool_decide_reflect P) as [Hl|Hl]
  end.
  - intros E. apply app_eq_nil in E as [_ E]. discriminate.
  - intros E. rewrite E in Hl. by apply Hl.
Qed.

(** X5.  A classification gives no reason exactly when the rules choose
    KEEP: tiers 1 and 2 push the reason of the test that held, and the
    review tier pushes 'needs manual review' when nothing else applies. *)
Theorem classify_reasons_iff_not_keep s :
  junkReasons (classify s) = [] <-> autoTier (classify s) = Num TIER_KEEP.
Proof.
  unfold classify.
  destruct (isTier1_reasons s []) as [->|[x ->]]; [|by cbn].
  destruct (isTier4 s); [done|].
  destruct (isTier2_reasons s []) as [->|[y ->]]; [|by cbn].
  cbn [applyTier junkReasons autoTier].
  split; [|done]. intros E. by apply computeReviewReasons_nonempty in E.
Qed.

Lemma classify_applyTier s t r :
  classify (applyTier s t r)
  = applyTier s (first_match s) (junkReasons (classify s)).
Proof.
  unfold classify, first_match.
  change (isTier1 (applyTier s t r) []) with (isTier1 s []).
  change (isTier4 (applyTier s t r)) with (isTier4 s).
  destruct (isTier1 s []) as [[] r1]; cbn [fst snd]; [done|].
  destruct (isTier4 s); [done|].
  change (isTier2 (applyTier s t r) r1) with (isTier2 s r1).
  destruct (isTier2 s r1) as [[] r2]; [done|].
  cbn [applyTier junkReasons]. f_equal.
Qed.

(** X6.  Classifying twice is classifying once: a pass reads only
    properties that a pass does not write. *)
Theorem classify_idempotent s : classify (classify s) = classify s.
Proof.
  assert (H : exists t r, classify s = applyTier s t r /\ t = first_match s).
  { unfold classify, first_match.
    destruct (isTier1 s []) as [[] r1]; cbn [fst snd]; [by eexists _, _|].
    destruct (isTier4 s); [by eexists _, _|].
    destruct (isTier2 s r1) as [[] r2]; by eexists _, _. }
  destruct H as (t & r & E & ->).
  rewrite E at 1. rewrite classify_applyTier. rewrite E at 2.
  rewrite E. cbn [applyTier junkReasons]. reflexivity.
Qed.

(** X7.  An override that is set but is none of 1 to 4 is taken as it
    is: the tier is the override, the label and the score are undefined,
    the score reads as 'real' and the label for display is 'unknown'. *)
Theorem classify_override_off_table s v :
  not_nullish v = true -> TIER_LABELS v = None ->
  let c := classify (with_tierOverride s v) in
  tier c = v /\ tierLabel c = None /\ junkScore c = None /\
  junkLabel (junkScore c) = js "real" /\
  Display.tierLabel (tier c) = js "unknown".
Proof.
  intros Hv Hl. cbv zeta. set (c := classify (with_tierOverride s v)).
  assert (Ht : tier c = v).
  { unfold c. rewrite tier_classify. cbn [with_tierOverride tierOverride].
    by rewrite Hv. }
  assert (Hs : TIER_SCORES v = None).
  { destruct v as [| | |z]; try done.
    destruct z as [|p|p]; try done.
    do 3 (destruct p as [p|p|]; try done). }
  assert (Hj : junkScore c = None).
  { unfold c. rewrite junkScore_classify. fold c. by rewrite Ht. }
  assert (Hb : tierLabel c = TIER_LABELS (tier c)).
  { unfold c, classify.
    destruct (isTier1 _ []) as [[] r1]; [done|].
    destruct (isTier4 _); [done|].
    by destruct (isTier2 _ r1) as [[] r2]. }
  split; [done|]. split; [by rewrite Hb, Ht|]. split; [done|].
  split; [by rewrite Hj|]. unfold Display.tierLabel. by rewrite Ht, Hl.
Qed.

Lemma classify_override_off_table_witness :
  let c := classify (with_tierOverride blank (Num 0)) in
  tier c = Num 0 /\ tierLabel c = None /\ junkScore c = None /\
  junkLabel (junkScore c) = js "real" /\
  Display.tierLabel (tier c) = js "unknown".
Proof.
  exact (classify_override_off_table blank (Num 0) eq_refl eq_refl).
Defined.

Lemma num_ge_grows a b k :
  grows a b -> num_ge (or_zero a) (Num k) = true ->
  num_ge (or_zero b) (Num k) = true.
Proof.
  intros [->|H]; [done|]. revert H. unfold num_ge, num_le, cmp.
  destruct a, b; cbn; try done; lia.
Qed.

Lemma num_ge_grows' a b k :
  grows a b -> num_ge a (Num k) = true -> num_ge b (Num k) = true.
Proof.
  intros [->|H]; [done|]. revert H. unfold num_ge, num_le, cmp.
  destruct a, b; cbn; try done; lia.
Qed.

Lemma num_gt_grows a b k :
  grows a b -> num_gt a (Num k) = true -> num_gt b (Num k) = true.
Proof.
  intros [->|H]; [done|]. revert H. unfold num_gt, num_le, cmp.
  destruct a, b; cbn; try done; lia.
Qed.

Lemma isTier4_orb s :
  isTier4 s
  = num_ge (or_zero (turnCount s)) (Num 4)
    || num_ge (or_zero (totalToolCalls s)) (Num 3)
    || num_ge (or_zero (thinkingBlocks s)) (Num 2)
    || num_ge (or_zero (uniqueFilesCount s)) (Num 2)
    || num_gt (durationMs s) (Num 300000)
    || num_ge (userMessageCount s) (Num 3)
       && num_ge (assistantMessageCount s) (Num 3)
    || num_gt (fileSizeBytes s) (Num 50000)
       && num_ge (userMessageCount s) (Num 2).
Proof.
  unfold isTier4. cbv zeta.
  repeat match goal with
  | |- context [if ?b then _ else _] => destruct b eqn:?; cbn [orb andb]
  end; try reflexivity; by rewrite ?orb_true_r.
Qed.

(** X8.  The KEEP test is monotone: a summary that passes it still
    passes when the counts, the duration and the size it reads stay as
    they are or grow. *)
Theorem isTier4_monotone s s' :
  more_activity s s' -> isTier4 s = true -> isTier4 s' = true.
Proof.
  intros (H1 & H2 & H3 & H4 & H5 & H6 & H7 & H8).
  rewrite !isTier4_orb, !orb_true_iff, !andb_true_iff.
  intros [[[[[[H|H]|H]|H]|H]|[Ha Hb]]|[Ha Hb]].
  - do 6 left. by eapply num_ge_grows.
  - do 5 left. right. by eapply num_ge_grows.
  - do 4 left. right. by eapply num_ge_grows.
  - do 3 left. right. by eapply num_ge_grows.
  - do 2 left. right. by eapply num_gt_grows.
  - left. right. split; by eapply num_ge_grows'.
  - right. split; [by eapply num_gt_grows|by eapply num_ge_grows'].
Qed.

Lemma isTier4_monotone_witness : isTier4 six_minutes_more = true.
Proof.
  apply (isTier4_monotone six_minutes six_minutes_more).
  - unfold more_activity, grows. cbn.
    repeat split; (by left) || (by right).
  - reflexivity.
Defined.

End ClassifierProps.

(** ** The language guess *)

Module AnalyzerProps.
Import Js Analyzer.

Lemma detectLanguage_table text : detectLanguage text = first_best text.
Proof.
  unfold detectLanguage, first_best.
  destruct (length text <? 20)%nat; [done|].
  change LANG_HINTS
    with [(js "fr", fr_words); (js "es", es_words); (js "de", de_words)].
  cbn [fold_left]. unfold consider. cbn [fst snd].
  generalize (match_count fr_words text) (match_count es_words text)
    (match_count de_words text).
  intros cf ce cd.
  destruct (Nat.ltb_spec 0 cf), (Nat.leb_spec 3 cf); cbn [andb fst snd];
    destruct (Nat.leb_spec 3 ce), (Nat.leb_spec 3 cd);
    repeat match goal with
    | |- context [(?a <? ?b)%nat] => destruct (Nat.ltb_spec a b)
    | |- context [(?a <=? ?b)%nat] => destruct (Nat.leb_spec a b)
    | _ => progress cbn [andb fst snd]
    end; try reflexivity; cbn [andb fst snd] in *; lia.
Qed.

(** C9, as the specification states it, fails on a tie: in
    "que que que que que que" the French and the Spanish pattern match six
    times each, no candidate matches strictly more often than the others,
    and the guess is 'fr', not 'en'. *)
Lemma detectLanguage_tie_is_not_default :
  (20 <= length tied_text)%nat /\
  map (fun e => match_count e.2 tied_text) LANG_HINTS = [6; 6; 0]%nat /\
  claimed_language tied_text = js "en" /\
  detectLanguage tied_text = js "fr" /\
  detectLanguage tied_text <> claimed_language tied_text.
Proof. vm_compute. repeat split; try lia; done. Qed.

(** C9, amended.  The guess is 'en' unless the text has 20 characters at
    least and some candidate's pattern matches three times at least; it is
    then the candidate with the most matches, and among candidates with
    equally many the one listed first (fr, then es, then de).  So 'en'
    stands exactly when the text is shorter than 20 characters or no
    candidate reaches three matches. *)
Theorem detectLanguage_first_maximum text :
  detectLanguage text = first_best text /\
  (detectLanguage text = js "en" <->
   (length text < 20)%nat \/
   ((match_count fr_words text < 3)%nat /\ (match_count es_words text < 3)%nat
    /\ (match_count de_words text < 3)%nat)).
Proof.
  split; [apply detectLanguage_table|].
  rewrite detectLanguage_table. unfold first_best.
  generalize (match_count fr_words text) (match_count es_words text)
    (match_count de_words text).
  intros cf ce cd.
  destruct (Nat.ltb_spec (length text) 20); [tauto|].
  repeat match goal with
    | |- context [(?a <? ?b)%nat] => destruct (Nat.ltb_spec a b)
    | |- context [(?a <=? ?b)%nat] => destruct (Nat.leb_spec a b)
    | _ => progress cbn [andb]
    end;
    (split; [try (by vm_compute); intros _; right; lia
            | try done; intros [?|(?&?&?)]; lia]).
Qed.

Section Recase.

(** A change of letters that the [i] flag does not see. *)
Variable f : N -> N.
Hypothesis f_canonical : forall c, canonicalize (f c) = canonicalize c.
Hypothesis f_word : forall c, isWordChar (f c) = isWordChar c.

Lemma isWord_recase (c : option N) : isWord (f <$> c) = isWord c.
Proof. destruct c; [apply f_word|done]. Qed.

Lemma head_recase (t : list N) : head (f <$> t) = f <$> head t.
Proof. by destruct t. Qed.

Lemma literal_at_recase (w : jsstring) (t : list N) (last : option N) :
  literal_at w (f <$> t) (f <$> last)
  = (fun r : option N * list N => (f <$> r.1, f <$> r.2)) <$> literal_at w t last.
Proof.
  revert t last. induction w as [|c w IH]; intros t last; [done|].
  destruct t as [|d t]; [done|]. cbn [literal_at fmap list_fmap].
  rewrite f_canonical. destruct (_ =? _)%N; [|done].
  apply (IH t (Some d)).
Qed.

Lemma alternatives_at_recase (alts : list jsstring) (t : list N) :
  alternatives_at alts (f <$> t) = alternatives_at alts t.
Proof.
  induction alts as [|w alts IH]; [done|]. cbn [alternatives_at].
  pose proof (literal_at_recase w t None) as H. cbn [fmap option_fmap option_map] in H.
  rewrite H. destruct (literal_at w t None) as [[last rest]|]; [|done].
  cbn [fmap option_fmap option_map fst snd]. unfold isBoundary.
  by rewrite head_recase, !isWord_recase, IH.
Qed.

Lemma match_at_recase alts (before : option N) (t : list N) :
  match_at alts (f <$> before) (f <$> t) = match_at alts before t.
Proof.
  unfold match_at, isBoundary.
  by rewrite head_recase, !isWord_recase, alternatives_at_recase.
Qed.

Lemma count_from_recase alts (before : option N) (t : list N) (skip : nat) :
  count_from alts (f <$> before) (f <$> t) skip = count_from alts before t skip.
Proof.
  revert before skip. induction t as [|c t IH]; intros before skip; [done|].
  cbn [count_from fmap list_fmap]. destruct skip as [|k].
  - pose proof (match_at_recase alts before (c :: t)) as H.
    cbn [fmap list_fmap] in H. rewrite H.
    destruct (match_at alts before (c :: t)); by rewrite (IH (Some c)).
  - apply (IH (Some c)).
Qed.

Lemma detectLanguage_recase (text : list N) :
  detectLanguage (f <$> text) = detectLanguage text.
Proof.
  unfold detectLanguage. rewrite length_fmap.
  destruct (_ <? _)%nat; [done|]. f_equal.
  assert (H : forall best entry,
             consider (f <$> text) best entry = consider text best entry).
  { intros best entry. unfold consider, match_count.
    by rewrite (count_from_recase _ None). }
  generalize (js "en", 0%nat). induction LANG_HINTS as [|e es IH]; [done|].
  intros best. cbn [fold_left]. by rewrite H, IH.
Qed.

End Recase.

Ltac settle_comparisons :=
  repeat match goal with
  | |- context [(?a <=? ?b)%N] =>
      first [ rewrite (proj2 (N.leb_le a b)) by lia
            | rewrite (proj2 (N.leb_gt a b)) by lia ]
  | |- context [(?a =? ?b)%N] =>
      first [ rewrite (proj2 (N.eqb_eq a b)) by lia
            | rewrite (proj2 (N.eqb_neq a b)) by lia ]
  | _ => progress cbn [andb orb negb]
  end.

Lemma upper_ascii_unseen c :
  canonicalize (upper_ascii c) = canonicalize c /\
  isWordChar (upper_ascii c) = isWordChar c.
Proof.
  unfold upper_ascii.
  destruct ((97 <=? c) && (c <=? 122))%N eqn:E; [|done].
  apply andb_true_iff in E as [E1%N.leb_le E2%N.leb_le].
  unfold canonicalize, isWordChar. by settle_comparisons.
Qed.

Lemma lower_ascii_unseen c :
  canonicalize (lower_ascii c) = canonicalize c /\
  isWordChar (lower_ascii c) = isWordChar c.
Proof.
  unfold lower_ascii.
  destruct ((65 <=? c) && (c <=? 90))%N eqn:E; [|done].
  apply andb_true_iff in E as [E1%N.leb_le E2%N.leb_le].
  unfold canonicalize, isWordChar. settle_comparisons.
  split; [lia|done].
Qed.

(** X9.  The language guess does not depend on the case of the ASCII
    letters of the text: the text in upper case and the text in lower case
    get the guess of the text itself. *)
Theorem detectLanguage_ignores_case (text : list N) :
  detectLanguage (upper_ascii <$> text) = detectLanguage text /\
  detectLanguage (lower_ascii <$> text) = detectLanguage text.
Proof.
  split; apply detectLanguage_recase; intros c;
    (apply upper_ascii_unseen || apply lower_ascii_unseen).
Qed.

End AnalyzerProps.

(** ** The head and tail reader *)

Module ScannerProps.
Import Js Scanner JsProps.

Lemma tail_drop_snoc {A} (l : list A) k x :
  (k <= length l)%nat -> tail (drop k l ++ [x]) = drop (S k) (l ++ [x]).
Proof.
  revert k. induction l as [|a l IH]; intros k Hk.
  - by destruct k; [|cbn in Hk; lia].
  - destruct k as [|k]; [by rewrite drop_0|].
    cbn [drop app]. apply IH. cbn in Hk. lia.
Qed.

Lemma lastn_snoc {A} (t : nat) (l : list A) x :
  (if (t <? length (lastn t l ++ [x]))%nat
   then tail (lastn t l ++ [x]) else lastn t l ++ [x])
  = lastn t (l ++ [x]).
Proof.
  unfold lastn. rewrite !length_app, length_drop. cbn [length].
  destruct (Nat.ltb_spec t (length l - (length l - t) + 1)).
  - rewrite tail_drop_snoc by lia. f_equal. lia.
  - replace (length l - t)%nat with 0%nat by lia.
    replace (length l + 1 - t)%nat with 0%nat by lia. done.
Qed.

Lemma read_lines_state h t file :
  fold_left (read_line h t) file {| lineNum := 0; lines := []; tailBuffer := [] |}
  = {| lineNum := length file; lines := take h file;
       tailBuffer := lastn t (drop h file) |}.
Proof.
  induction file as [|x pre IH] using rev_ind.
  - by destruct h.
  - rewrite fold_left_app, IH. cbn [fold_left]. unfold read_line.
    cbn [lineNum lines tailBuffer].
    replace (length (pre ++ [x])) with (S (length pre))
      by (rewrite length_app; cbn; lia).
    destruct (Nat.leb_spec (S (length pre)) h).
    + f_equal.
      * rewrite !take_ge; [done| |lia]. rewrite length_app. cbn. lia.
      * rewrite !drop_ge; [done| |lia]. rewrite length_app. cbn. lia.
    + f_equal.
      * rewrite take_app_le by lia. done.
      * rewrite lastn_snoc. f_equal. rewrite drop_app_le by lia. done.
Qed.

Lemma keep_new_lines (S : gset jsstring) tb init :
  fold_left (fun lines tl => if bool_decide (tl ∈ S) then lines else lines ++ [tl])
            tb init
  = init ++ filter (fun tl => tl ∉ S) tb.
Proof.
  revert init. induction tb as [|tl tb IH]; intros init; cbn [fold_left].
  - by rewrite app_nil_r.
  - rewrite IH. rewrite filter_cons. case_bool_decide.
    + by rewrite decide_False by tauto.
    + rewrite decide_True by done. by rewrite <- app_assoc.
Qed.

Lemma readHeadTail_spec file h t :
  readHeadTail file h t
  = take h file ++ filter (fun l => l ∉ take h file) (lastn t (drop h file)).
Proof.
  unfold readHeadTail. rewrite read_lines_state. cbn [lines tailBuffer].
  rewrite keep_new_lines. f_equal.
  apply list_filter_iff. intros l. by rewrite elem_of_list_to_set.
Qed.

Lemma filter_app_known {A} (P : A -> Prop) `{!forall x, Decision (P x)} (l1 l2 : list A) :
  Forall (fun x => ~ P x) l1 -> filter P (l1 ++ l2) = filter P l2.
Proof.
  intros HF. rewrite filter_app. induction HF as [|x l1 Hx _ IH]; [done|].
  rewrite filter_cons, decide_False by done. exact IH.
Qed.

Lemma lastn_whole_file {A} (file : list A) h t :
  exists mid, lastn t file = mid ++ lastn t (drop h file)
              /\ Forall (fun x => x ∈ take h file) mid.
Proof.
  unfold lastn. rewrite length_drop.
  destruct (Nat.le_gt_cases h (length file - t)) as [Hle|Hgt].
  - exists []. split; [|done]. cbn [app]. rewrite drop_drop. f_equal. lia.
  - exists (drop (length file - t) (take h file)). split.
    + replace (length file - h - t)%nat with 0%nat by lia. rewrite drop_0.
      transitivity (drop (length file - t) (take h file ++ drop h file));
        [by rewrite take_drop|].
      rewrite drop_app_le; [done|]. rewrite length_take. lia.
    + apply Forall_forall. intros x Hx.
      apply list_elem_of_lookup in Hx as [i Hi].
      rewrite lookup_drop in Hi. eapply list_elem_of_lookup_2. exact Hi.
Qed.

Lemma readHeadTail_last_lines file h t :
  readHeadTail file h t
  = take h file ++ filter (fun l => l ∉ take h file) (lastn t file).
Proof.
  rewrite readHeadTail_spec. f_equal.
  destruct (lastn_whole_file file h t) as (mid & -> & Hmid).
  rewrite filter_app_known; [done|].
  eapply Forall_impl; [exact Hmid|]. cbn. tauto.
Qed.

Section Counts.

Context (f : jsstring -> option LogRecord).
Context (keep : LogRecord -> Prop) `{!forall r, Decision (keep r)}.
Context (Q : jsstring -> Prop) `{!forall l, Decision (Q l)}.

Lemma count_kept_le B :
  (length (filter keep (omap f (filter Q B)))
   <= length (filter keep (omap f B)))%nat.
Proof.
  induction B as [|l B IH]; [done|].
  rewrite filter_cons. destruct (decide (Q l)); cbn [omap list_omap];
    destruct (f l) as [r|]; try exact IH.
  - rewrite !filter_cons. destruct (decide (keep r)); cbn [length]; lia.
  - rewrite filter_cons. destruct (decide (keep r)); cbn [length]; lia.
Qed.

Lemma count_kept_lt B tl r :
  tl ∈ B -> ~ Q tl -> f tl = Some r -> keep r ->
  (length (filter keep (omap f (filter Q B)))
   < length (filter keep (omap f B)))%nat.
Proof.
  intros Hin HQ Hf Hk. induction Hin as [tl B|tl l B Hin IH].
  - rewrite filter_cons, decide_False by done. cbn [omap list_omap].
    rewrite Hf, filter_cons, decide_True by done. cbn [length].
    pose proof (count_kept_le B). lia.
  - specialize (IH HQ Hf).
    rewrite filter_cons. destruct (decide (Q l)); cbn [omap list_omap];
      destruct (f l) as [r'|]; try exact IH.
    + rewrite !filter_cons. destruct (decide (keep r')); cbn [length]; lia.
    + rewrite filter_cons. destruct (decide (keep r')); cbn [length]; lia.
Qed.

End Counts.

Lemma filter_True_id {A} (l : list A) : filter (fun _ => True) l = l.
Proof.
  induction l as [|x l IH]; [done|]. by rewrite filter_cons_True, IH.
Qed.

(** C10. In fast mode the reader returns the first 30 lines followed by
    those of the last 10 lines that are not equal to a line of the head.
    So when a line of the tail that parses as a record repeats a head
    line, the scan sees fewer lines than were read, and its record count
    (and its user or assistant count, for such a record) is below the
    count over the lines read. *)
Theorem fastScan_drops_repeated_lines
  (JSON_parse : jsstring -> option LogRecord) (file : list jsstring) :
  readHeadTail file 30 10
  = take 30 file ++ filter (fun l => l ∉ take 30 file) (lastn 10 file) /\
  forall tl r,
    tl ∈ lastn 10 (drop 30 file) -> tl ∈ take 30 file ->
    JSON_parse tl = Some r ->
    let all := parseRecords (parse_lines JSON_parse (lines_read file)) in
    (length (readHeadTail file 30 10) < length (lines_read file))%nat /\
    (totalRecordCount (fastScan JSON_parse file) < totalRecordCount all)%nat /\
    (type_is r "user" = true ->
     (userMessageCount (fastScan JSON_parse file) < userMessageCount all)%nat) /\
    (type_is r "assistant" = true ->
     (assistantMessageCount (fastScan JSON_parse file)
      < assistantMessageCount all)%nat).
Proof.
  split; [apply readHeadTail_last_lines|].
  intros tl r Htail Hhead Hparse. cbn zeta.
  unfold fastScan, lines_read, parse_lines. rewrite readHeadTail_spec.
  assert (Hnot : ~ (tl ∉ take 30 file)) by tauto.
  repeat split.
  - rewrite !length_app. apply Nat.add_lt_mono_l.
    by eapply length_filter_lt.
  - cbn [parseRecords totalRecordCount]. rewrite !omap_app, !length_app.
    apply Nat.add_lt_mono_l.
    pose proof (count_kept_lt JSON_parse (fun _ => True)
                  (fun l => l ∉ take 30 file)
                  (lastn 10 (drop 30 file)) tl r Htail Hnot Hparse I) as H.
    by rewrite !filter_True_id in H.
  - intros Hu. cbn [parseRecords userMessageCount].
    rewrite !omap_app, !filter_app, !length_app. apply Nat.add_lt_mono_l.
    by eapply count_kept_lt.
  - intros Ha. cbn [parseRecords assistantMessageCount].
    rewrite !omap_app, !filter_app, !length_app. apply Nat.add_lt_mono_l.
    by eapply count_kept_lt.
Qed.

Lemma fastScan_drops_repeated_lines_witness :
  (length (readHeadTail sample_file 30 10) < length (lines_read sample_file))%nat /\
  (userMessageCount (fastScan sample_parse sample_file)
   < userMessageCount
       (parseRecords (parse_lines sample_parse (lines_read sample_file))))%nat.
Proof.
  destruct (fastScan_drops_repeated_lines sample_parse sample_file) as [_ H].
  destruct (H user_line user_record) as (H1 & _ & H2 & _).
  - vm_compute. apply list_elem_of_here.
  - vm_compute. apply list_elem_of_here.
  - reflexivity.
  - split; [exact H1|]. apply H2. reflexivity.
Defined.

Lemma lastn_short {A} (n : nat) (l : list A) :
  (length l <= n)%nat -> lastn n l = l.
Proof. intros H. unfold lastn. by replace (length l - n)%nat with 0%nat by lia. Qed.

Lemma length_lastn {A} (n : nat) (l : list A) : (length (lastn n l) <= n)%nat.
Proof. unfold lastn. rewrite length_drop. lia. Qed.

Lemma filter_all {A} (P : A -> Prop) `{!forall x, Decision (P x)} (l : list A) :
  Forall P l -> filter P l = l.
Proof.
  induction 1 as [|x l Hx _ IH]; [done|]. by rewrite filter_cons_True, IH.
Qed.

Lemma readHeadTail_whole (file : list jsstring) (h t : nat) :
  (length file <= h)%nat \/ ((length file <= h + t)%nat /\ NoDup file) ->
  readHeadTail file h t = file.
Proof.
  rewrite readHeadTail_spec. intros [Hle|[Hle Hnd]].
  - rewrite drop_ge by lia. rewrite lastn_short by (cbn; lia).
    rewrite filter_nil, app_nil_r. by apply take_ge.
  - rewrite lastn_short by (rewrite length_drop; lia).
    rewrite <- (take_drop h file) in Hnd. apply NoDup_app in Hnd as (_ & Hd & _).
    rewrite <- (take_drop h file) at 3. f_equal.
    apply filter_all. apply Forall_forall. intros l Hl Hin.
    by apply (Hd l).
Qed.

(** X10.  The reader returns at most [headCount + tailCount] lines, each
    a line of the file, the first [headCount] being those of the file; a
    file of no more than [headCount] lines is returned whole, and so is a
    file of up to [headCount + tailCount] lines none of which repeats. *)
Theorem readHeadTail_bounds (file : list jsstring) (h t : nat) :
  (length (readHeadTail file h t) <= h + t)%nat /\
  (forall l, l ∈ readHeadTail file h t -> l ∈ file) /\
  take h (readHeadTail file h t) = take h file /\
  ((length file <= h)%nat -> readHeadTail file h t = file) /\
  ((length file <= h + t)%nat -> NoDup file -> readHeadTail file h t = file).
Proof.
  rewrite readHeadTail_spec.
  split; [|split; [|split; [|split]]].
  - rewrite length_app, length_take.
    pose proof (length_filter (fun l => l ∉ take h file) (lastn t (drop h file))).
    pose proof (length_lastn t (drop h file)). lia.
  - intros l [Hl|Hl]%elem_of_app.
    + by apply (subseteq_take h file).
    + apply list_elem_of_filter in Hl as [_ Hl]. unfold lastn in Hl.
      apply (subseteq_drop h file). by eapply subseteq_drop.
  - destruct (Nat.le_gt_cases h (length file)) as [Hle|Hgt].
    + rewrite take_app_le by (rewrite length_take; lia).
      rewrite take_take. f_equal. lia.
    + rewrite drop_ge by lia. rewrite lastn_short by (cbn; lia).
      rewrite filter_nil, app_nil_r. by rewrite take_take, Nat.min_id.
  - intros Hle. rewrite <- readHeadTail_spec. apply readHeadTail_whole. by left.
  - intros Hle Hnd. rewrite <- readHeadTail_spec. apply readHeadTail_whole.
    by right.
Qed.

Lemma users_exist (records : list LogRecord) :
  existsb (fun r => type_is r "user") records = true <->
  (0 < userMessageCount (parseRecords records))%nat.
Proof.
  cbn [parseRecords userMessageCount]. induction records as [|r rs IH]; [cbn; split; [done|lia]|].
  cbn [existsb]. rewrite filter_cons.
  destruct (type_is r "user") eqn:E.
  - rewrite decide_True by done. cbn. split; [lia|done].
  - rewrite decide_False by done. cbn [orb]. exact IH.
Qed.

Lemma filter_type_nil (records : list LogRecord) (t : string) :
  filter (fun r => type_is r t = true) records = [] <->
  existsb (fun r => type_is r t) records = false.
Proof.
  induction records as [|r rs IH]; [done|].
  cbn [existsb]. rewrite filter_cons. destruct (type_is r t) eqn:E.
  - rewrite decide_True by done. cbn. split; done.
  - rewrite decide_False by done. cbn [orb]. exact IH.
Qed.

Lemma filter_type_disjoint (records : list LogRecord) :
  (length (filter (fun r => type_is r "user" = true) records)
   + length (filter (fun r => type_is r "assistant" = true) records)
   <= length records)%nat.
Proof.
  induction records as [|r rs IH]; [done|].
  rewrite !filter_cons.
  destruct (decide (type_is r "user" = true)) as [Hu|Hu];
    destruct (decide (type_is r "assistant" = true)) as [Ha|Ha];
    cbn [length]; try lia.
  unfold type_is in Hu, Ha. apply bool_decide_eq_true in Hu, Ha.
  rewrite Hu in Ha. by vm_compute in Ha.
Qed.

Lemma category_table (records : list LogRecord) :
  let has t := existsb (fun r => type_is r t) records in
  category (parseRecords records)
  = (if has "user"%string || has "assistant"%string then js "conversation"
     else if existsb (fun r => type_is r "progress"
                               && bool_decide (data_type r = Some (js "hook_progress")))
                     records
          then js "hook-only"
     else if has "progress"%string then js "snapshot-only"
     else js "empty").
Proof.
  cbv zeta.
  cbn [parseRecords category].
  assert (Hhook :
    existsb (fun r => bool_decide (data_type r = Some (js "hook_progress")))
      (filter (fun r => type_is r "progress" = true) records)
    = existsb (fun r => type_is r "progress"
                        && bool_decide (data_type r = Some (js "hook_progress")))
        records).
  { induction records as [|r rs IH]; [done|].
    rewrite filter_cons. cbn [existsb]. destruct (type_is r "progress") eqn:E.
    - rewrite decide_True by done. cbn [existsb andb]. by rewrite IH.
    - rewrite decide_False by done. cbn [andb orb]. exact IH. }
  rewrite Hhook.
  assert (Hn : existsb (fun r => type_is r "progress") records = false ->
               existsb (fun r => type_is r "progress"
                         && bool_decide (data_type r = Some (js "hook_progress")))
                 records = false).
  { clear. induction records as [|r rs IH]; [done|]. cbn [existsb].
    intros [-> E]%orb_false_iff. cbn. by apply IH. }
  assert (Hb : forall t : string,
             negb (bool_decide (filter (fun r => type_is r t = true) records = []))
             = existsb (fun r => type_is r t) records).
  { intros t. pose proof (filter_type_nil records t) as Ht.
    destruct (bool_decide_reflect
                (filter (fun r => type_is r t = true) records = [])) as [E|E].
    - symmetry. by apply Ht.
    - destruct (existsb (fun r => type_is r t) records); [done|].
      destruct E. by apply Ht. }
  rewrite !Hb.
  destruct (existsb (fun r => type_is r "user") records);
    destruct (existsb (fun r => type_is r "assistant") records);
    cbn [negb andb orb]; try reflexivity.
  destruct (existsb (fun r => type_is r "progress") records) eqn:Ep;
    cbn [negb andb orb].
  - by rewrite andb_true_r.
  - by rewrite (Hn eq_refl).
Qed.

(** X11.  The category [parseRecords] gives is 'conversation' when some
    record is a user or an assistant record; otherwise 'hook-only' when
    some progress record is a hook's, 'snapshot-only' when there are other
    progress records only, and 'empty' when there is none: the test
    [!hasUserMessage] of the 'hook-only' branch never decides.  The user
    and the assistant count together do not exceed the record count. *)
Theorem parseRecords_category (records : list LogRecord) :
  let c := parseRecords records in
  let has t := existsb (fun r => type_is r t) records in
  category c
  = (if has "user"%string || has "assistant"%string then js "conversation"
     else if existsb (fun r => type_is r "progress"
                               && bool_decide (data_type r = Some (js "hook_progress")))
                     records
          then js "hook-only"
     else if has "progress"%string then js "snapshot-only"
     else js "empty") /\
  (userMessageCount c + assistantMessageCount c <= totalRecordCount c)%nat.
Proof.
  cbv zeta. split; [apply category_table|apply filter_type_disjoint].
Qed.

Lemma type_is_inj (r : LogRecord) (t1 t2 : string) :
  type_is r t1 = true -> js t1 <> js t2 -> type_is r t2 = false.
Proof.
  unfold type_is. intros H1%bool_decide_eq_true Hne.
  apply bool_decide_eq_false. rewrite H1. congruence.
Qed.

(** X12.  A scan that reads a user record never leads to an auto-delete:
    the category is 'conversation' and the user count is positive, so no
    test of tier 1 holds, whatever the size, the duration and the title. *)
Theorem user_record_never_auto_delete (records : list LogRecord)
  (fileSize : Z) (durationMs : jsnum) (title : jsstring) :
  existsb (fun r => type_is r "user") records = true ->
  let s := Classifier.classify
             (summary_of (parseRecords records) fileSize durationMs title) in
  category (parseRecords records) = js "conversation" /\
  Classifier.autoTier s <> Num Classifier.TIER_AUTO_DELETE /\
  Classifier.tier s <> Num Classifier.TIER_AUTO_DELETE.
Proof.
  intros Hu. cbv zeta.
  assert (Hc : category (parseRecords records) = js "conversation").
  { rewrite category_table. cbv zeta. by rewrite Hu. }
  split; [done|].
  rewrite ClassifierProps.tier_classify, ClassifierProps.autoTier_classify.
  cbn [summary_of Classifier.tierOverride not_nullish].
  assert (H1 : (Classifier.isTier1
                  (summary_of (parseRecords records) fileSize durationMs title)
                  []).1 = false).
  { unfold Classifier.isTier1, Classifier.category_is.
    cbn [summary_of Classifier.category Classifier.userMessageCount
         Classifier.fileSizeBytes Classifier.totalRecordCount].
    rewrite Hc. apply users_exist in Hu.
    assert (strict_eq (Num (Z.of_nat (userMessageCount (parseRecords records)))) 0
            = false) as ->.
    { cbn [strict_eq]. apply Z.eqb_neq. lia. }
    rewrite !andb_false_r.
    repeat (rewrite bool_decide_eq_false_2 by (by vm_compute)). done. }
  unfold Classifier.first_match. rewrite H1.
  split; repeat case_match; done.
Qed.

Lemma user_record_never_auto_delete_witness :
  let s := Classifier.classify
             (summary_of (parseRecords [user_record]) 100 (Num 0)
                (js "(no title)")) in
  category (parseRecords [user_record]) = js "conversation" /\
  Classifier.autoTier s <> Num Classifier.TIER_AUTO_DELETE /\
  Classifier.tier s <> Num Classifier.TIER_AUTO_DELETE.
Proof.
  exact (user_record_never_auto_delete [user_record] 100 (Num 0)
           (js "(no title)") eq_refl).
Defined.

(** X13.  A scan that reads neither a user nor an assistant record always
    leads to an auto-delete: the category is 'empty', 'hook-only' or
    'snapshot-only', each of which is a tier-1 condition, and the legacy
    label is 'junk'. *)
Theorem no_message_auto_delete (records : list LogRecord)
  (fileSize : Z) (durationMs : jsnum) (title : jsstring) :
  existsb (fun r => type_is r "user") records = false ->
  existsb (fun r => type_is r "assistant") records = false ->
  let s := Classifier.classify
             (summary_of (parseRecords records) fileSize durationMs title) in
  Classifier.tier s = Num Classifier.TIER_AUTO_DELETE /\
  Classifier.autoTier s = Num Classifier.TIER_AUTO_DELETE /\
  Classifier.junkLabel (Classifier.junkScore s) = js "junk".
Proof.
  intros Hu Ha. cbv zeta.
  assert (H1 : (Classifier.isTier1
                  (summary_of (parseRecords records) fileSize durationMs title)
                  []).1 = true).
  { unfold Classifier.isTier1, Classifier.category_is.
    cbn [summary_of Classifier.category]. rewrite category_table. cbv zeta.
    rewrite Hu, Ha. cbn [orb]. clear Hu Ha.
    repeat match goal with
    | |- context [existsb ?f records] => destruct (existsb f records)
    end; by vm_compute. }
  assert (Ht : Classifier.tier
                 (Classifier.classify
                    (summary_of (parseRecords records) fileSize durationMs title))
               = Num 1).
  { rewrite ClassifierProps.tier_classify.
    cbn [summary_of Classifier.tierOverride not_nullish].
    unfold Classifier.first_match. by rewrite H1. }
  split; [done|]. split.
  - rewrite ClassifierProps.autoTier_classify.
    unfold Classifier.first_match. by rewrite H1.
  - rewrite ClassifierProps.junkScore_classify, Ht. reflexivity.
Qed.

Lemma no_message_auto_delete_witness :
  Classifier.tier
    (Classifier.classify
       (summary_of (parseRecords [hook_record]) 100 (Num 0) (js "(no title)")))
  = Num Classifier.TIER_AUTO_DELETE.
Proof.
  exact (proj1 (no_message_auto_delete [hook_record] 100 (Num 0)
                  (js "(no title)") eq_refl eq_refl)).
Defined.

(** X14.  Of a text made of lines joined by line feeds, with or without
    a line feed at the end, [readAllLines] returns the lines that are not
    blank, in their order. *)
Theorem readAllLines_join (ls : list jsstring) :
  Forall (fun l => 10%N ∉ l) ls ->
  readAllLines (join_with [10%N] ls) = filter (fun l => trim l <> []) ls /\
  readAllLines (join_with [10%N] ls ++ [10%N])
  = filter (fun l => trim l <> []) ls.
Proof.
  intros HF. destruct ls as [|l ls]; [by vm_compute|].
  destruct (split_join 10 (l :: ls)) as [H1 H2]; [done|done|].
  unfold readAllLines. rewrite H1, H2. split; [done|].
  rewrite filter_app.
  change (filter (fun l => trim l <> []) [[]]) with (@nil jsstring).
  by rewrite app_nil_r.
Qed.

Lemma readAllLines_join_witness :
  readAllLines (join_with [10%N] [user_line; []; user_line] ++ [10%N])
  = [user_line; user_line].
Proof.
  refine (eq_trans (proj2 (readAllLines_join [user_line; []; user_line] _)) _).
  - apply (bool_decide_unpack _). vm_compute. exact I.
  - vm_compute. reflexivity.
Defined.

(** X29.  On a short file the fast scan is exact: when the file has at
    most 30 lines, or at most 40 lines none of which repeats, the fast
    scan parses every line of the file, and its summary is the one
    [parseRecords] makes of all the records. *)
Theorem fastScan_whole_file (JSON_parse : jsstring -> option LogRecord)
  (file : list jsstring) :
  (length file <= 30)%nat \/ ((length file <= 40)%nat /\ NoDup file) ->
  readHeadTail file 30 10 = file /\
  fastScan JSON_parse file = parseRecords (parse_lines JSON_parse file).
Proof.
  intros H. assert (E : readHeadTail file 30 10 = file)
    by (by apply readHeadTail_whole).
  split; [done|]. unfold fastScan. by rewrite E.
Qed.

Lemma fastScan_whole_file_witness :
  readHeadTail [user_line; user_line] 30 10 = [user_line; user_line] /\
  fastScan sample_parse [user_line; user_line]
  = parseRecords (parse_lines sample_parse [user_line; user_line]).
Proof.
  apply (fastScan_whole_file sample_parse [user_line; user_line]).
  left. cbn. lia.
Defined.

End ScannerProps.

(** ** The turn count *)

Module AnalysisProps.
Import Js Scanner Analysis.

Lemma users_cons r rs :
  users (r :: rs) = ((if type_is r "user" then 1 else 0) + users rs)%nat.
Proof.
  unfold users. rewrite filter_cons. destruct (type_is r "user"); [|done].
  by rewrite decide_True.
Qed.

Lemma assistants_cons r rs :
  assistants (r :: rs)
  = ((if type_is r "assistant" then 1 else 0) + assistants rs)%nat.
Proof.
  unfold assistants. rewrite filter_cons.
  destruct (type_is r "assistant"); [|done]. by rewrite decide_True.
Qed.

Lemma user_not_assistant r : type_is r "user" = true -> type_is r "assistant" = false.
Proof.
  unfold type_is. intros H%bool_decide_eq_true. rewrite H.
  by apply bool_decide_eq_false.
Qed.

Ltac other_type :=
  match goal with
  | H : Some (js _) = Some (js _) |- _ => by vm_compute in H
  | H : Some _ = None |- _ => discriminate H
  | H : None = Some _ |- _ => discriminate H
  end.

(** The loop from any state: what the turn count gains over a list of
    records, by the type of the last record counted. *)
Lemma fold_turns records last n :
  let r := fold_left count_turn records (last, n) in
  let u := users records in
  let a := assistants records in
  (n <= r.2 <= n + u + a)%nat /\
  (last = Some (js "user") ->
   (r.2 <= n + Nat.min (2 * a) (2 * u + 1))%nat /\ ((0 < a)%nat -> (n < r.2)%nat)) /\
  (last = Some (js "assistant") ->
   (r.2 <= n + Nat.min (2 * u) (2 * a + 1))%nat /\ ((0 < u)%nat -> (n < r.2)%nat)) /\
  (last = None ->
   (r.2 <= n + 2 * Nat.min u a + 1)%nat /\
   ((u + a = 0)%nat -> r.2 = n) /\
   ((0 < u + a)%nat -> (n < r.2)%nat) /\
   ((0 < u)%nat -> (0 < a)%nat -> (n + 2 <= r.2)%nat)).
Proof.
  revert last n. induction records as [|r rs IH]; intros last n; cbv zeta.
  - cbn. repeat split; intros; lia.
  - cbn [fold_left]. rewrite users_cons, assistants_cons.
    destruct (type_is r "user") eqn:Eu.
    + rewrite (user_not_assistant r Eu).
      assert (Hr : rec_type r = Some (js "user"))
        by (by apply bool_decide_eq_true in Eu).
      assert (count_turn (last, n) r
              = (Some (js "user"),
                 if bool_decide (Some (js "user") = last) then n else S n)) as ->.
      { unfold count_turn. rewrite Eu. cbn [orb fst snd]. by rewrite Hr. }
      destruct (bool_decide_reflect (Some (js "user") = last)) as [E|E].
      * pose proof (IH (Some (js "user")) n) as IHn.
        cbv zeta in IHn. destruct IHn as (IH1 & IH2 & _).
        destruct (IH2 eq_refl) as [IH3 IH4]. subst last.
        split; [lia|]. split; [intros _; split; [lia|done]|].
        split; intros; other_type.
      * pose proof (IH (Some (js "user")) (S n)) as IHn.
        cbv zeta in IHn. destruct IHn as (IH1 & IH2 & _).
        destruct (IH2 eq_refl) as [IH3 IH4].
        split; [lia|]. split; [by intros ->|].
        split; intros ->; repeat split; intros; lia.
    + destruct (type_is r "assistant") eqn:Ea.
      * assert (Hr : rec_type r = Some (js "assistant"))
          by (by apply bool_decide_eq_true in Ea).
        assert (count_turn (last, n) r
                = (Some (js "assistant"),
                   if bool_decide (Some (js "assistant") = last)
                   then n else S n)) as ->.
        { unfold count_turn. rewrite Eu, Ea. cbn [orb fst snd]. by rewrite Hr. }
        destruct (bool_decide_reflect (Some (js "assistant") = last)) as [E|E].
        -- pose proof (IH (Some (js "assistant")) n) as IHn.
           cbv zeta in IHn. destruct IHn as (IH1 & _ & IH2 & _).
           destruct (IH2 eq_refl) as [IH3 IH4]. subst last.
           split; [lia|]. split; [intros; other_type|].
           split; [intros _; split; [lia|done]|]. intros; other_type.
        -- pose proof (IH (Some (js "assistant")) (S n)) as IHn.
           cbv zeta in IHn. destruct IHn as (IH1 & _ & IH2 & _).
           destruct (IH2 eq_refl) as [IH3 IH4].
           split; [lia|]. split; [intros ->; repeat split; intros; lia|].
           split; [by intros ->|]. intros ->; repeat split; intros; lia.
      * assert (count_turn (last, n) r = (last, n)) as ->.
        { unfold count_turn. by rewrite Eu, Ea. }
        cbn [Nat.add]. apply IH.
Qed.

(** X15.  The turn count of the deep analysis against the counts of the
    scan: it is zero exactly when there is no user and no assistant
    record, at least two when there are both, at most the number of user
    and assistant records, and at most one more than twice the smaller of
    the two counts; so a turn count of four, the KEEP signal, needs two
    user and two assistant records. *)
Theorem turnCount_bounds (records : list LogRecord) :
  let c := parseRecords records in
  let u := userMessageCount c in
  let a := assistantMessageCount c in
  (turnCount records = 0 <-> u + a = 0)%nat /\
  ((0 < u)%nat -> (0 < a)%nat -> (2 <= turnCount records)%nat) /\
  (turnCount records <= u + a)%nat /\
  (turnCount records <= 2 * Nat.min u a + 1)%nat /\
  ((4 <= turnCount records)%nat -> (2 <= u)%nat /\ (2 <= a)%nat).
Proof.
  cbv zeta. cbn [parseRecords userMessageCount assistantMessageCount].
  fold (users records) (assistants records). unfold turnCount.
  pose proof (fold_turns records None 0%nat) as H. cbv zeta in H.
  destruct H as (H1 & _ & _ & H2).
  destruct (H2 eq_refl) as (H3 & H4 & H5 & H6).
  revert H1 H3 H4 H5 H6.
  generalize (fold_left count_turn records (None, 0%nat)).2.
  intros t ? ? ? ? ?. repeat split; intros; lia.
Qed.

End AnalysisProps.

(** ** The scan cache *)

Module CacheProps.
Import Js Cache.

Section Props.

Context {Mtime : Type} `{EqDecision Mtime}.
Context {Summary : Type} (analyzed : Summary -> bool).

Implicit Types (st : State Mtime Summary) (disk : CacheFile Mtime Summary).
Implicit Types (e : Entry Mtime Summary) (i : FileInfo Mtime).

Lemma isValid_iff e i :
  isValid e i = true <-> mtime e = mtimeMs i /\ entry_size e = size i.
Proof.
  unfold isValid. rewrite andb_true_iff, bool_decide_eq_true, Z.eqb_eq. tauto.
Qed.

Lemma setCached_state disk stat p d st i :
  stat p = Some i ->
  exists v ss,
    setCached disk stat p d st
    = {| memoryCache :=
           Some {| version := v; sessions := <[p := entry_of i d]> ss |} |}.
Proof.
  intros Hs. unfold setCached.
  destruct (loadCache disk st) as [c st']. rewrite Hs. by eexists _, _.
Qed.

(** C4, amended.  An entry is valid exactly when the file's current mtime
    and size both equal the recorded ones.  After a put for a file that
    [stat] finds, the cache holds the entry.  A get, with or without
    [requireAnalyzed], that finds another mtime or size returns nothing
    and leaves the cache as it was, the entry still in it.  A get without
    [requireAnalyzed], or for a summary flagged analyzed, returns the
    stored summary when it finds the same mtime and size, and returns
    nothing and removes the entry when its [stat] fails.  A get with
    [requireAnalyzed] for a summary that is not flagged analyzed returns
    nothing whatever [stat] would find, and leaves the cache as it was. *)
Theorem getCached_after_setCached disk st
  (stat1 stat2 : jsstring -> option (FileInfo Mtime)) p d i1
  (requireAnalyzed : bool) :
  stat1 p = Some i1 ->
  let st1 := setCached disk stat1 p d st in
  let r := getCached analyzed disk stat2 p requireAnalyzed st1 in
  (forall e i, isValid e i = true <-> mtime e = mtimeMs i /\ entry_size e = size i) /\
  cached_entry disk st1 p = Some (entry_of i1 d) /\
  (forall i2, stat2 p = Some i2 ->
     mtimeMs i2 <> mtimeMs i1 \/ size i2 <> size i1 ->
     r = (None, st1)) /\
  (requireAnalyzed = false \/ analyzed d = true ->
     (forall i2, stat2 p = Some i2 ->
        mtimeMs i2 = mtimeMs i1 -> size i2 = size i1 -> r = (Some d, st1)) /\
     (stat2 p = None -> r.1 = None /\ cached_entry disk r.2 p = None)) /\
  (requireAnalyzed = true -> analyzed d = false -> r = (None, st1)).
Proof.
  intros Hs st1 r. split; [exact isValid_iff|].
  destruct (setCached_state disk stat1 p d st i1 Hs) as (v & ss & Hst).
  subst r st1. rewrite Hst. unfold getCached, cached_entry.
  cbn [loadCache memoryCache sessions fst]. rewrite lookup_insert_eq.
  split; [done|]. cbn [entry_of data].
  split; [|split].
  - intros i2 -> Hne.
    destruct (requireAnalyzed && negb (analyzed d)); [done|].
    destruct (isValid (entry_of i1 d) i2) eqn:Hv; [|done].
    apply isValid_iff in Hv. cbn in Hv. destruct Hv, Hne; congruence.
  - intros Hserved.
    assert (requireAnalyzed && negb (analyzed d) = false) as ->.
    { destruct Hserved as [->| ->]; [done|]. apply andb_false_r. }
    split.
    + intros i2 -> Hm Hz.
      assert (isValid (entry_of i1 d) i2 = true) as ->; [|done].
      apply isValid_iff. cbn. by rewrite Hm, Hz.
    + intros ->. cbn. split; [done|]. apply lookup_delete_eq.
  - by intros -> ->.
Qed.

End Props.

(** C4, as the specification states it, fails where it has a mismatch
    remove the entry: a summary is cached for a file of ten bytes, the
    file grows to eleven, and the get returns nothing but the entry is
    still in the cache. *)
Lemma getCached_keeps_stale_entry :
  let st1 := setCached None (fun _ => Some at_put) sample_path (js "summary") empty_state in
  let r := getCached (fun _ => false) None (fun _ => Some grown) sample_path false st1 in
  r.1 = None /\
  cached_entry None r.2 sample_path
  = Some {| mtime := 1000; entry_size := 10; data := js "summary" |}.
Proof. by vm_compute. Qed.

Lemma getCached_after_setCached_witness :
  getCached (fun _ => false) None (fun _ => Some at_put) sample_path false
    (setCached None (fun _ => Some at_put) sample_path (js "summary") empty_state)
  = (Some (js "summary"),
     setCached None (fun _ => Some at_put) sample_path (js "summary") empty_state).
Proof.
  destruct (getCached_after_setCached (fun _ => false) None empty_state
              (fun _ => Some at_put) (fun _ => Some at_put)
              sample_path (js "summary") at_put false eq_refl)
    as (_ & _ & _ & H & _).
  destruct (H (or_introl eq_refl)) as [H' _].
  exact (H' at_put eq_refl eq_refl eq_refl).
Defined.

(** With [requireAnalyzed], a summary that is not flagged analyzed is not
    returned although the file is as it was at the put; the entry stays. *)
Lemma getCached_requireAnalyzed_unflagged :
  let st1 := setCached None (fun _ => Some at_put) sample_path (js "summary") empty_state in
  let r := getCached (fun _ => false) None (fun _ => Some at_put) sample_path true st1 in
  r.1 = None /\
  cached_entry None r.2 sample_path
  = Some {| mtime := 1000; entry_size := 10; data := js "summary" |}.
Proof. by vm_compute. Qed.

Section More.

Context {Mtime : Type} `{EqDecision Mtime}.
Context {Summary : Type} (analyzed : Summary -> bool).

Implicit Types (st : State Mtime Summary) (disk : CacheFile Mtime Summary).
Implicit Types (e : Entry Mtime Summary) (i : FileInfo Mtime).
Implicit Types (stat : jsstring -> option (FileInfo Mtime)).
Implicit Types (ss : gmap jsstring (Entry Mtime Summary)).
Implicit Types (p q : jsstring).

Lemma loadCache_loaded disk st :
  exists c, loadCache disk st = (c, {| memoryCache := Some c |}).
Proof.
  unfold loadCache. destruct st as [[c|]]; cbn; eauto.
Qed.

(** X16.  What a get returns and what it changes.  It returns a summary
    exactly when the cache holds an entry for the path, the entry is
    analyzed if that is required, [stat] finds the file, and the mtime and
    the size recorded are those found.  It never touches the entry of
    another path, and the entry of the path itself is either left as it was
    or removed. *)
Theorem getCached_spec disk stat p (requireAnalyzed : bool) st :
  let r := getCached analyzed disk stat p requireAnalyzed st in
  (forall d, r.1 = Some d <->
     exists e i, cached_entry disk st p = Some e /\ data e = d /\
       (requireAnalyzed = true -> analyzed d = true) /\
       stat p = Some i /\ mtime e = mtimeMs i /\ entry_size e = size i) /\
  (forall q, q <> p -> cached_entry disk r.2 q = cached_entry disk st q) /\
  (cached_entry disk r.2 p = None \/
   cached_entry disk r.2 p = cached_entry disk st p).
Proof.
  cbv zeta. unfold getCached, cached_entry.
  destruct (loadCache_loaded disk st) as [c ->]. cbn [fst].
  destruct (sessions c !! p) as [e|] eqn:Ee.
  2:{ cbn [fst snd loadCache memoryCache]. split; [|by auto].
      intros d. split; [done|]. by intros (e & i & ? & _). }
  destruct (requireAnalyzed && negb (analyzed (data e))) eqn:Er.
  { cbn [fst snd loadCache memoryCache]. split; [|by auto].
    intros d. split; [done|]. intros (e' & i & [= <-] & <- & Ha & _).
    apply andb_true_iff in Er as [-> Hn]. rewrite Ha in Hn by done. done. }
  destruct (stat p) as [i|] eqn:Es.
  - destruct (isValid e i) eqn:Ev; cbn [fst snd loadCache memoryCache].
    + split; [|by auto]. intros d. split.
      * intros [= <-]. exists e, i. apply isValid_iff in Ev as [? ?].
        repeat split; try done. intros ->. cbn in Er.
        by apply negb_false_iff in Er.
      * by intros (e' & i' & [= <-] & <- & _).
    + split; [|by auto]. intros d. split; [done|].
      intros (e' & i' & [= <-] & _ & _ & [= <-] & Hm & Hz).
      assert (isValid e i = true) by (by apply isValid_iff). congruence.
  - cbn [fst snd loadCache memoryCache sessions]. split; [|split].
    + intros d. split; [done|]. by intros (e' & i' & _ & _ & _ & ? & _).
    + intros q Hq. by apply lookup_delete_ne.
    + left. apply lookup_delete_eq.
Qed.

(** X17.  What a put changes: the entry of the path becomes the summary
    with the mtime and the size that [stat] finds, every other entry
    stays, and nothing at all changes when [stat] fails. *)
Theorem setCached_spec disk stat p (d : Summary) st q :
  cached_entry disk (setCached disk stat p d st) q
  = match stat p with
    | Some i => if decide (q = p) then Some (entry_of i d)
                else cached_entry disk st q
    | None => cached_entry disk st q
    end.
Proof.
  unfold setCached, cached_entry.
  destruct (loadCache_loaded disk st) as [c ->]. cbn [fst].
  destruct (stat p) as [i|]; cbn [loadCache memoryCache fst sessions]; [|done].
  destruct (decide (q = p)) as [->|Hq].
  - apply lookup_insert_eq.
  - by apply lookup_insert_ne.
Qed.


Lemma prune_fold stat (paths : list jsstring) ss (n : nat) :
  NoDup paths -> (forall p, p ∈ paths -> is_Some (ss !! p)) ->
  let r := fold_left (prune_step stat) paths (ss, n) in
  (forall p, r.1 !! p = if decide (p ∈ paths /\ stat p = None) then None
                        else ss !! p) /\
  (base.size r.1 + r.2 = base.size ss + n)%nat /\ (n <= r.2)%nat /\
  (r.2 = n <-> forall p, p ∈ paths -> is_Some (stat p)).
Proof.
  intros Hnd. revert ss n.
  induction Hnd as [|k paths Hk Hnd IH]; intros ss n Hin; cbv zeta.
  - cbn. split; [|split; [done|split; [done|]]].
    + intros p. rewrite decide_False; [done|]. by intros [?%elem_of_nil _].
    + split; [|done]. by intros _ p ?%elem_of_nil.
  - cbn [fold_left]. destruct (stat k) as [i|] eqn:Ek.
    + assert (prune_step stat (ss, n) k = (ss, n)) as ->
        by (unfold prune_step; by rewrite Ek).
      pose proof (IH ss n) as IH'. cbv zeta in IH'.
      destruct IH' as (IH1 & IH2 & IH3 & IH4).
      { intros p Hp. apply Hin. by right. }
      split; [|split; [done|split; [done|]]].
      * intros p. rewrite IH1.
        destruct (decide (p ∈ paths /\ stat p = None)) as [[Hp Hs]|Hno].
        -- rewrite decide_True; [done|]. split; [by right|done].
        -- rewrite decide_False; [done|].
           intros [[->|Hp]%elem_of_cons Hs]; [congruence|]. by destruct Hno.
      * rewrite IH4. split.
        -- intros H p [->|Hp]%elem_of_cons; [by rewrite Ek|auto].
        -- intros H p Hp. apply H. by right.
    + assert (prune_step stat (ss, n) k = (delete k ss, S n)) as ->
        by (unfold prune_step; by rewrite Ek).
      pose proof (IH (delete k ss) (S n)) as IH'. cbv zeta in IH'.
      destruct IH' as (IH1 & IH2 & IH3 & IH4).
      { intros p Hp. rewrite lookup_delete_ne by (by intros ->).
        apply Hin. by right. }
      split; [|split; [|split]].
      * intros p. rewrite IH1. destruct (decide (p = k)) as [->|Hpk].
        -- rewrite lookup_delete_eq. rewrite (decide_True (P := _ ∈ _ :: _ /\ _)).
           ++ by case_decide.
           ++ split; [by left|done].
        -- rewrite lookup_delete_ne by done.
           destruct (decide (p ∈ paths /\ stat p = None)) as [[Hp Hs]|Hno].
           ++ rewrite decide_True; [done|]. split; [by right|done].
           ++ rewrite decide_False; [done|].
              intros [[->|Hp]%elem_of_cons Hs]; [done|]. by destruct Hno.
      * assert (Hk' : is_Some (ss !! k)) by (apply Hin; by left).
        pose proof (map_size_delete_Some k ss Hk') as Hsz.
        pose proof (map_size_ne_0_lookup_2 ss k Hk'). lia.
      * lia.
      * split; [lia|]. intros H. specialize (H k). rewrite Ek in H.
        destruct H as [? ?]; [by left|done].
Qed.

Lemma prune_fold_keys stat ss :
  let r := fold_left (prune_step stat) (map_to_list ss).*1 (ss, 0%nat) in
  r.1 = on_disk stat ss /\ (base.size r.1 + r.2 = base.size ss)%nat /\
  (r.2 = 0%nat <-> on_disk stat ss = ss).
Proof.
  cbv zeta.
  pose proof (prune_fold stat (map_to_list ss).*1 ss 0) as H. cbv zeta in H.
  destruct H as (H1 & H2 & _ & H4).
  { apply NoDup_fst_map_to_list. }
  { intros p Hp. apply list_elem_of_fmap in Hp as ([p' e] & -> & Hp).
    apply elem_of_map_to_list in Hp. by exists e. }
  assert (Hr : (fold_left (prune_step stat) (map_to_list ss).*1 (ss, 0%nat)).1
               = on_disk stat ss).
  { apply map_eq. intros p. rewrite H1. unfold on_disk.
    rewrite map_lookup_filter. destruct (ss !! p) as [e|] eqn:Ep; cbn.
    - destruct (stat p) as [i|] eqn:Es.
      + rewrite decide_False by (by intros [_ ?]).
        by rewrite option_guard_True by (cbn; rewrite ?Es; eauto).
      + rewrite decide_True.
        * rewrite option_guard_False; [done|]. cbn. rewrite ?Es. by intros [? ?].
        * split; [|done]. apply list_elem_of_fmap. exists (p, e).
          split; [done|]. by apply elem_of_map_to_list.
    - by case_decide. }
  split; [done|]. split; [lia|]. rewrite H4. split.
  - intros H. unfold on_disk. apply map_filter_id. intros p e Hp. cbn.
    apply H. apply list_elem_of_fmap. exists (p, e). split; [done|].
    by apply elem_of_map_to_list.
  - intros H p Hp. apply list_elem_of_fmap in Hp as ([p' e] & -> & Hp).
    apply elem_of_map_to_list in Hp. rewrite <- H in Hp.
    unfold on_disk in Hp. by apply map_lookup_filter_Some in Hp as [_ ?].
Qed.

Lemma on_disk_idem stat ss : on_disk stat (on_disk stat ss) = on_disk stat ss.
Proof.
  unfold on_disk. apply map_filter_id. intros p e Hp.
  by apply map_lookup_filter_Some in Hp as [_ ?].
Qed.

Lemma pruneCache_run disk stat st c :
  loadCache disk st = (c, {| memoryCache := Some c |}) ->
  let ss := on_disk stat (sessions c) in
  let c' := {| version := version c; sessions := ss |} in
  exists n,
    (n + base.size ss = base.size (sessions c))%nat /\
    (n = 0%nat <-> ss = sessions c) /\
    pruneCache disk stat st
    = (n, if (0 <? n)%nat then Some (Some (version c), ss) else disk,
       {| memoryCache := Some c' |}).
Proof.
  intros Hl. cbv zeta. unfold pruneCache. rewrite Hl.
  destruct (prune_fold_keys stat (sessions c)) as (H1 & H2 & H3).
  destruct (fold_left _ _ _) as [ss n]. cbn [fst snd] in *. subst ss.
  exists n. split; [lia|]. split; [done|].
  by destruct (0 <? n)%nat.
Qed.

(** X19.  A pruning leaves exactly the entries whose file [stat] still
    finds and returns the number of entries it removed; it writes the
    cache file when it removed some and leaves the file alone otherwise;
    and a second pruning, the files being as they were, removes nothing
    and changes nothing. *)
Theorem pruneCache_spec disk stat st :
  let before := sessions (loadCache disk st).1 in
  let r := pruneCache disk stat st in
  let n := r.1.1 in
  let after := on_disk stat before in
  (forall p, cached_entry r.1.2 r.2 p
             = match stat p with Some _ => before !! p | None => None end) /\
  (n + base.size after = base.size before)%nat /\
  r.1.2 = (if (0 <? n)%nat
           then Some (Some (version (loadCache disk st).1), after) else disk) /\
  pruneCache r.1.2 stat r.2 = (0%nat, r.1.2, r.2).
Proof.
  cbv zeta. destruct (loadCache_loaded disk st) as [c Hc]. rewrite Hc. cbn [fst].
  destruct (pruneCache_run disk stat st c Hc) as (n & Hn & Hz & ->).
  cbn [fst snd]. split; [|split; [done|split; [done|]]].
  - intros p. unfold cached_entry. cbn [loadCache memoryCache fst sessions].
    unfold on_disk. rewrite map_lookup_filter.
    destruct (sessions c !! p) as [e|]; cbn; [|by destruct (stat p)].
    destruct (stat p) as [i|] eqn:Es.
    + by rewrite option_guard_True by (cbn; rewrite ?Es; eauto).
    + rewrite option_guard_False; [done|]. cbn. rewrite ?Es. by intros [? ?].
  - set (c' := {| version := version c; sessions := on_disk stat (sessions c) |}).
    destruct (pruneCache_run (if (0 <? n)%nat
                              then Some (Some (version c), on_disk stat (sessions c))
                              else disk) stat {| memoryCache := Some c' |} c')
      as (n' & Hn' & Hz' & E); [done|].
    etrans; [exact E|]. cbn [sessions version c'] in *.
    rewrite on_disk_idem in *.
    assert (n' = 0%nat) as -> by (by apply Hz').
    done.
Qed.

(** X20.  After a flush that finds the cache loaded, the cache file
    holds what the module holds: the version and the entries of the cache,
    less, on every tenth flush, the entries whose file is gone.  A pruning
    is reported on every tenth flush and on no other. *)
Theorem flushCache_persists disk stat (pr : Process Mtime Summary) c :
  memoryCache (state pr) = Some c ->
  let r := flushCache disk stat pr in
  let tenth := (S (flushCounter pr) mod 10 =? 0)%nat in
  let kept := if tenth then on_disk stat (sessions c) else sessions c in
  r.1.2 = Some (Some (version c), kept) /\
  memoryCache (state r.2) = Some {| version := version c; sessions := kept |} /\
  flushCounter r.2 = S (flushCounter pr) /\
  (is_Some r.1.1 <-> tenth = true) /\
  (forall n, r.1.1 = Some n -> (n + base.size kept = base.size (sessions c))%nat).
Proof.
  intros Hm. cbv zeta.
  destruct (pruneCache_run (Some (Some (version c), sessions c)) stat
              {| memoryCache := Some c |} c) as (n & Hn & Hz & E); [done|].
  assert (Ef : flushCache disk stat pr
    = if (S (flushCounter pr) mod 10 =? 0)%nat
      then (Some n,
            if (0 <? n)%nat
            then Some (Some (version c), on_disk stat (sessions c))
            else Some (Some (version c), sessions c),
            {| state := {| memoryCache :=
                             Some {| version := version c;
                                     sessions := on_disk stat (sessions c) |} |};
               flushCounter := S (flushCounter pr) |})
      else (None, Some (Some (version c), sessions c),
            {| state := {| memoryCache := Some c |};
               flushCounter := S (flushCounter pr) |})).
  { unfold flushCache. rewrite Hm. unfold saveCache, PRUNE_INTERVAL.
    destruct (_ =? 0)%nat; [|done]. by rewrite E. }
  rewrite Ef. clear Ef E.
  destruct (S (flushCounter pr) mod 10 =? 0)%nat;
    cbn [fst snd state flushCounter memoryCache].
  - split.
    { destruct (Nat.ltb_spec 0 n); [done|].
      assert (n = 0%nat) as Hn0 by lia. apply Hz in Hn0. by rewrite Hn0. }
    split; [done|]. split; [done|]. split; [by split; [|eauto]|].
    by intros n' [= <-].
  - split; [done|]. split; [by destruct c|]. split; [done|].
    split; [by split; [intros [? ?]|]|]. done.
Qed.

End More.

Lemma flushCache_persists_witness :
  (flushCache None (fun _ => Some at_put)
     {| state := setCached None (fun _ => Some at_put) sample_path
                   (js "summary") empty_state;
        flushCounter := 0 |}).1.2
  = Some (Some CACHE_VERSION,
          <[sample_path := entry_of at_put (js "summary")]> ∅).
Proof.
  exact (proj1 (flushCache_persists None (fun _ => Some at_put)
                  {| state := setCached None (fun _ => Some at_put) sample_path
                                (js "summary") empty_state;
                     flushCounter := 0 |}
                  {| version := CACHE_VERSION;
                     sessions := <[sample_path := entry_of at_put (js "summary")]> ∅ |}
                  eq_refl)).
Defined.

End CacheProps.

(** ** Paths and the file system *)

Module FsProps.
Import Js Fs.

Lemma startsWith_length s p : startsWith s p = true -> (length p <= length s)%nat.
Proof.
  revert s. induction p as [|c p IH]; intros [|d s] H; cbn in *; try lia; try done.
  apply andb_true_iff in H as [_ H]. apply IH in H. lia.
Qed.

Lemma replace_first_absent s p r : includes s p = false -> replace_first s p r = s.
Proof.
  induction s as [|c s IH]; cbn [includes replace_first]; intros H;
    apply orb_false_iff in H as [-> H]; [done|].
  by rewrite IH.
Qed.

Lemma replace_first_length s p :
  includes s p = true ->
  (length (replace_first s p []) + length p = length s)%nat.
Proof.
  induction s as [|c s IH]; cbn [includes replace_first]; intros H.
  - rewrite orb_false_r in H. rewrite H. cbn [app]. rewrite length_drop.
    apply startsWith_length in H. cbn in *. lia.
  - destruct (startsWith (c :: s) p) eqn:Hs.
    + apply startsWith_length in Hs. cbn [app]. rewrite length_drop. lia.
    + cbn in H. apply IH in H. cbn [length]. lia.
Qed.

Lemma replace_first_changes s p :
  p <> [] -> includes s p = true -> replace_first s p [] <> s.
Proof.
  intros Hp H Heq. apply replace_first_length in H. rewrite Heq in H.
  destruct p; [done|]. cbn in H. lia.
Qed.

Lemma replace_in_path_last pre c pattern :
  forallb (fun x => negb (includes x pattern)) pre = true ->
  replace_in_path (pre ++ [c]) pattern = pre ++ [replace_first c pattern []].
Proof.
  induction pre as [|x pre IH]; cbn [forallb app replace_in_path]; intros H.
  - destruct (includes c pattern) eqn:Hc; [done|].
    by rewrite replace_first_absent.
  - apply andb_true_iff in H as [Hx H]. apply negb_true_iff in Hx.
    by rewrite Hx, IH.
Qed.

Lemma resolve_step_plain acc c :
  plain c = true -> resolve_step acc c = acc ++ [c].
Proof.
  unfold plain, resolve_step. intros H. apply negb_true_iff in H.
  apply orb_false_iff in H as [H ->]. by rewrite H.
Qed.

Lemma fold_step_plain p acc :
  plain_path p = true -> fold_left resolve_step p acc = acc ++ p.
Proof.
  revert acc. induction p as [|c p IH]; intros acc H; cbn [fold_left].
  - by rewrite app_nil_r.
  - cbn in H. apply andb_true_iff in H as [Hc H].
    rewrite resolve_step_plain, IH by done. by rewrite <- app_assoc.
Qed.

Lemma normalize_plain p : plain_path p = true -> normalize p = p.
Proof. intros H. unfold normalize. by apply (fold_step_plain p []). Qed.

Lemma plain_path_snoc d c :
  plain_path d = true -> plain c = true -> plain_path (d ++ [c]) = true.
Proof.
  intros Hd Hc. unfold plain_path in *. rewrite forallb_app, Hd. cbn.
  by rewrite Hc.
Qed.

Lemma join_plain d c :
  plain_path d = true -> plain c = true -> join d c = d ++ [c].
Proof. intros Hd Hc. apply normalize_plain. by apply plain_path_snoc. Qed.

Lemma raw_basename_snoc d c : c <> [] -> raw_basename (d ++ [c]) = c.
Proof.
  intros Hc. unfold raw_basename. rewrite filter_app, filter_cons_True by done.
  rewrite filter_nil. by rewrite last_snoc.
Qed.

Lemma common_prefix_app (a b : path) : common_prefix a (a ++ b) = length a.
Proof.
  induction a as [|x a IH]; cbn; [by destruct b|].
  by rewrite bool_decide_eq_true_2, IH.
Qed.

Lemma relative_below (d rest : path) : relative d (d ++ rest) = Relative 0 rest.
Proof.
  unfold relative. rewrite common_prefix_app, Nat.sub_diag.
  by rewrite drop_app_length.
Qed.

Lemma resolve_below (d rest : path) :
  plain_path (d ++ rest) = true -> resolve d 0 rest = d ++ rest.
Proof.
  intros H. unfold resolve. rewrite Nat.sub_0_r, firstn_all.
  by apply normalize_plain.
Qed.

Section Tree.
Context {C : Type}.
Implicit Types (t : gmap path (node C)) (p q pre src dst : path).

Lemma prefix_step pre c rest q :
  pre `prefix_of` q -> q `prefix_of` pre ++ c :: rest ->
  q = pre \/ pre ++ [c] `prefix_of` q.
Proof.
  intros [q' ->] Hq. apply prefix_app_inv in Hq.
  destruct q' as [|x q']; [left; by rewrite app_nil_r|].
  right. pose proof (prefix_cons_inv_1 _ _ _ _ Hq) as ->.
  exists q'. by rewrite <- app_assoc.
Qed.

Definition mkdirs_post t pre (rest : list jsstring)
  (r : errno + gmap path (node C)) : Prop :=
  match r with
  | inr t' =>
      forall q, t' !! q
                = if decide (pre `prefix_of` q /\ q `prefix_of` pre ++ rest)
                  then Some Dir else t !! q
  | inl _ =>
      exists q c, pre `prefix_of` q /\ q `prefix_of` pre ++ rest /\
                  t !! q = Some (File c)
  end.

Lemma mkdirs_post_step t t1 pre c rest r :
  t1 !! pre = Some Dir -> (forall q, q <> pre -> t1 !! q = t !! q) ->
  mkdirs_post t1 (pre ++ [c]) rest r -> mkdirs_post t pre (c :: rest) r.
Proof.
  intros Ht1 Hother. unfold mkdirs_post.
  rewrite <- app_assoc. cbn [app]. destruct r as [e|t'].
  - intros (q & c' & H1 & H2 & H3). exists q, c'.
    split; [by etrans; [apply prefix_app_r|exact H1]|]. split; [done|].
    rewrite <- Hother; [done|]. intros ->. by apply prefix_snoc_not in H1.
  - intros IH q. rewrite IH.
    case_decide as H1; case_decide as H2; try done.
    + destruct H2. destruct H1 as [H1 H1']. split; [|done].
      etrans; [|exact H1]. by apply prefix_app_r.
    + destruct H2 as [H2 H2'].
      destruct (prefix_step _ _ _ _ H2 H2') as [->|H3]; [done|].
      by destruct H1.
    + apply Hother. intros ->. destruct H2.
      split; [done|by apply prefix_app_r].
Qed.

Lemma mkdirs_cases t pre rest : mkdirs_post t pre rest (mkdirs t pre rest).
Proof.
  revert t pre. induction rest as [|c rest IH]; intros t pre.
  - cbn [mkdirs]. unfold mkdirs_post. rewrite app_nil_r.
    destruct (t !! pre) as [[c|]|] eqn:Ht.
    + by exists pre, c.
    + intros q. case_decide as Hq; [|done].
      destruct Hq as [H1 H2]. by rewrite (anti_symm prefix _ _ H2 H1).
    + intros q. case_decide as Hq.
      * destruct Hq as [H1 H2]. rewrite (anti_symm prefix _ _ H2 H1).
        apply lookup_insert_eq.
      * rewrite lookup_insert_ne; [done|]. intros ->. by destruct Hq.
  - cbn [mkdirs].
    destruct (t !! pre) as [[c'|]|] eqn:Ht.
    + exists pre, c'. split; [done|]. split; [by apply prefix_app_r|done].
    + eapply mkdirs_post_step; [exact Ht|done|apply IH].
    + eapply mkdirs_post_step; [apply lookup_insert_eq| |apply IH].
      intros q Hq. by rewrite lookup_insert_ne.
Qed.

Lemma mkdirs_inr t pre rest t' :
  mkdirs t pre rest = inr t' ->
  forall q, t' !! q
            = if decide (pre `prefix_of` q /\ q `prefix_of` pre ++ rest)
              then Some Dir else t !! q.
Proof.
  intros H. pose proof (mkdirs_cases t pre rest) as Hc. by rewrite H in Hc.
Qed.

Lemma mkdirs_spec t pre rest :
  (forall q c, pre `prefix_of` q -> q `prefix_of` pre ++ rest ->
               t !! q <> Some (File c)) ->
  exists t', mkdirs t pre rest = inr t' /\
    forall q, t' !! q
              = if decide (pre `prefix_of` q /\ q `prefix_of` pre ++ rest)
                then Some Dir else t !! q.
Proof.
  intros Hno. pose proof (mkdirs_cases t pre rest) as Hc.
  destruct (mkdirs t pre rest) as [e|t']; [|by exists t'].
  destruct Hc as (q & c & H1 & H2 & H3). by destruct (Hno q c).
Qed.

Lemma mkdir_p_inr t p t' :
  mkdir_p t p = inr t' ->
  forall q, t' !! q = if decide (q `prefix_of` p) then Some Dir else t !! q.
Proof.
  intros H q. rewrite (mkdirs_inr _ _ _ _ H). cbn [app].
  case_decide as H1; case_decide as H2; try done.
  - by destruct H1.
  - destruct H1. split; [apply prefix_nil|done].
Qed.

Lemma mkdir_p_spec t p :
  (forall q c, q `prefix_of` p -> t !! q <> Some (File c)) ->
  exists t', mkdir_p t p = inr t' /\
    forall q, t' !! q = if decide (q `prefix_of` p) then Some Dir else t !! q.
Proof.
  intros Hno. destruct (mkdirs_spec t [] p) as (t' & Hmk & Hlook).
  { intros q c _ Hq. by apply Hno. }
  exists t'. split; [done|]. intros q. rewrite Hlook. cbn [app].
  case_decide as H1; case_decide as H2; try done.
  - by destruct H1.
  - destruct H1. split; [apply prefix_nil|done].
Qed.

Lemma mkdir_p_present t p :
  (forall q, q `prefix_of` p -> t !! q = Some Dir) -> mkdir_p t p = inr t.
Proof.
  intros Hd. destruct (mkdir_p_spec t p) as (t' & Hmk & Hlook).
  { intros q c Hq. by rewrite Hd. }
  rewrite Hmk. f_equal. apply map_eq. intros q. rewrite Hlook.
  case_decide; [by rewrite Hd|done].
Qed.

Lemma move_tree_frame t src dst q :
  ~ src `prefix_of` q -> ~ dst `prefix_of` q -> move_tree t src dst !! q = t !! q.
Proof.
  intros Hs Hd. unfold move_tree. rewrite lookup_union_r.
  - rewrite map_lookup_filter. destruct (t !! q) as [n|]; [|done]. cbn.
    by rewrite option_guard_True.
  - apply not_elem_of_list_to_map_1. rewrite <- list_fmap_compose.
    intros Hin. apply list_elem_of_fmap in Hin as ([k n] & -> & _).
    apply Hd. cbn. by apply prefix_app_r.
Qed.

Lemma rename_frame t src dst t' q :
  rename t src dst = inr t' ->
  ~ src `prefix_of` q -> ~ dst `prefix_of` q -> t' !! q = t !! q.
Proof.
  unfold rename. intros H Hs Hd.
  assert (q <> src) by (intros ->; by apply Hs).
  assert (q <> dst) by (intros ->; by apply Hd).
  destruct (t !! src) as [[c|]|]; [| |done].
  - destruct (negb _); [done|].
    destruct (t !! dst) as [[c'|]|]; try done;
      injection H as <-; by rewrite lookup_insert_ne, lookup_delete_ne.
  - case_bool_decide; [by injection H as <-|].
    destruct (under src dst); [done|]. destruct (negb _); [done|].
    destruct (t !! dst) as [[c'|]|]; try done.
    + destruct (has_children t dst); [done|]. injection H as <-.
      by apply move_tree_frame.
    + injection H as <-. by apply move_tree_frame.
Qed.

Lemma rename_file_inr t src dst c t' :
  t !! src = Some (File c) -> rename t src dst = inr t' ->
  t' = <[dst := File c]> (delete src t).
Proof.
  intros Hs. unfold rename. rewrite Hs. destruct (negb _); [done|].
  by destruct (t !! dst) as [[c'|]|]; intros [= <-].
Qed.


Lemma clear_way_spec t p :
  clear_way t p = true ->
  forall q c, q `prefix_of` p -> t !! q <> Some (File c).
Proof.
  unfold clear_way. rewrite forallb_forall. intros H q c [k ->] Hq.
  specialize (H (length q)). rewrite take_app_length in H.
  unfold is_file in H. rewrite Hq in H.
  assert (negb true = true); [|done]. apply H. apply in_seq.
  rewrite length_app. lia.
Qed.

Lemma clear_way_intro t p :
  (forall q c, q `prefix_of` p -> t !! q <> Some (File c)) ->
  clear_way t p = true.
Proof.
  intros H. unfold clear_way. apply forallb_forall. intros k _.
  apply negb_true_iff. unfold is_file. cbv beta.
  destruct (_ !! _) as [[c|]|] eqn:E; [|reflexivity|reflexivity].
  exfalso. apply (H (take k p) c); [|exact E].
  exists (drop k p). by rewrite take_drop.
Qed.

Lemma is_dir_true t p : is_dir t p = true -> t !! p = Some Dir.
Proof. unfold is_dir. by repeat case_match. Qed.

Lemma well_formed_above t q (k : path) n :
  well_formed t = true -> t !! (q ++ k) = Some n -> k <> [] ->
  t !! q = Some Dir.
Proof.
  intros Hwf. unfold well_formed in Hwf.
  apply andb_true_iff in Hwf as [_ Hwf]. apply bool_decide_eq_true in Hwf.
  revert n. induction k as [|x k IH] using rev_ind; intros n Hl Hk; [done|].
  pose proof (map_Forall_lookup_1 _ _ _ _ Hwf Hl) as Hd. cbn in Hd.
  unfold dirname in Hd. rewrite app_assoc, removelast_last in Hd.
  apply is_dir_true in Hd.
  destruct k as [|y k']; [by rewrite app_nil_r in Hd|].
  by eapply IH.
Qed.

Lemma rename_file t src dst c :
  t !! src = Some (File c) -> is_dir t (dirname dst) = true ->
  t !! dst <> Some Dir ->
  rename t src dst = inr (<[dst := File c]> (delete src t)).
Proof.
  intros Hs Hd Hn. unfold rename. rewrite Hs, Hd. cbn.
  by destruct (t !! dst) as [[c'|]|].
Qed.

Lemma writeFile_ok t p c :
  is_dir t (dirname p) = true -> t !! p <> Some Dir ->
  writeFile t p c = inr (<[p := File c]> t).
Proof.
  intros Hd Hn. unfold writeFile. rewrite Hd. cbn.
  by destruct (t !! p) as [[c'|]|].
Qed.

End Tree.
End FsProps.

(** ** The trash and its manifest *)

Module CleanupProps.
Import Js Fs Cleanup FsProps.

Lemma ends_in_dots_plain (p : path) : plain_path p = true -> ends_in_dots p = false.
Proof.
  intros Hp. unfold ends_in_dots.
  destruct p as [|c p _] using rev_ind; [done|].
  unfold plain_path in Hp. rewrite forallb_app in Hp.
  apply andb_true_iff in Hp as [_ Hc]. cbn in Hc. rewrite andb_true_r in Hc.
  unfold plain in Hc. apply negb_true_iff in Hc.
  apply orb_false_iff in Hc as [Hc Hc3]. apply orb_false_iff in Hc as [Hc1 Hc2].
  rewrite raw_basename_snoc; [by rewrite Hc2, Hc3|].
  by apply bool_decide_eq_false in Hc1.
Qed.



Lemma findIndex_some pred (items : list TrashItem) idx :
  findIndex pred items = Some idx ->
  exists item, items !! idx = Some item /\ pred item = true /\
    forall j i, (j < idx)%nat -> items !! j = Some i -> pred i = false.
Proof.
  revert idx. induction items as [|i items IH]; intros idx; cbn [findIndex];
    [done|].
  destruct (pred i) eqn:Hp.
  - intros [= <-]. exists i. split; [done|]. split; [done|]. intros j ? Hj. lia.
  - destruct (findIndex pred items) as [k|]; [|done]. intros [= <-].
    destruct (IH k eq_refl) as (item & Hl & Hpi & Hbefore).
    exists item. split; [done|]. split; [done|].
    intros [|j] i' Hj Hi'; cbn in Hi'; [by simplify_eq|].
    eapply Hbefore; [|exact Hi']. lia.
Qed.


Section Runs.

Implicit Types (t : fs content) (p q src dst : path).

Lemma run_mkdir_present p t :
  (forall q, q `prefix_of` p -> t !! q = Some Dir) -> mkdir p t = (Return tt, t).
Proof. intros H. unfold mkdir, update. by rewrite mkdir_p_present. Qed.

Lemma run_mkdir p t :
  (forall q c, q `prefix_of` p -> t !! q <> Some (File c)) ->
  exists t', mkdir p t = (Return tt, t') /\
    forall q, t' !! q = if decide (q `prefix_of` p) then Some Dir else t !! q.
Proof.
  intros H. destruct (mkdir_p_spec t p H) as (t' & Hmk & Hl).
  exists t'. unfold mkdir, update. by rewrite Hmk.
Qed.

Lemma run_rename_file src dst t c :
  plain_path src = true -> plain_path dst = true ->
  t !! src = Some (File c) -> is_dir t (dirname dst) = true ->
  t !! dst <> Some Dir ->
  rename src dst t = (Return tt, <[dst := File c]> (delete src t)).
Proof.
  intros Hs Hd H1 H2 H3. unfold rename.
  rewrite !ends_in_dots_plain by done. cbn [orb]. unfold update.
  rewrite !normalize_plain by done. by erewrite rename_file.
Qed.

Lemma run_move_companion (src dst : list jsstring) t :
  exists t', move_companion src dst t = (Return tt, t') /\
    forall q, ~ normalize src `prefix_of` q -> ~ normalize dst `prefix_of` q ->
              t' !! q = t !! q.
Proof.
  unfold move_companion, try_catch, bind, stat, query, Fs.stat, ret, rename,
    throw, update.
  repeat case_match; simplify_eq; (eexists; split; [reflexivity|]);
    try done.
  intros q Hq1 Hq2. by eapply rename_frame.
Qed.

Lemma bind_run {A B} (m : M A) (k : A -> M B) t a t' :
  m t = (Return a, t') -> bind m k t = k a t'.
Proof. unfold bind. by intros ->. Qed.

Lemma bind_throw {A B} (m : M A) (k : A -> M B) t e t' :
  m t = (Throw e, t') -> bind m k t = (Throw e, t').
Proof. unfold bind. by intros ->. Qed.

End Runs.

Ltac prefix_inv H :=
  repeat match type of H with
  | (_ ++ _) `prefix_of` (_ ++ _) => apply prefix_app_inv in H
  | (_ :: _) `prefix_of` [] => by apply prefix_nil_not in H
  | (?x :: _) `prefix_of` (?y :: _) =>
      let E := fresh "E" in
      pose proof (prefix_cons_inv_1 _ _ _ _ H) as E;
      apply prefix_cons_inv_2 in H;
      first [ by vm_compute in E | by subst | clear E ]
  end.

Section Journal.

Variable homedir : path.
Hypothesis Hhome : plain_path homedir = true.
Hypothesis Hfree : forallb jsonl_free homedir = true.

Implicit Types (t : fs content) (p q : path).

Definition below (rel : list jsstring) : path := homedir ++ rel.

Lemma plain_below rel : plain_path rel = true -> plain_path (below rel) = true.
Proof.
  intros H. unfold below, plain_path in *. by rewrite forallb_app, Hhome, H.
Qed.

Lemma join_below rel c :
  plain_path rel = true -> plain c = true -> join (below rel) c = below (rel ++ [c]).
Proof.
  intros Hr Hc. rewrite join_plain; [|by apply plain_below|done].
  unfold below. by rewrite <- app_assoc.
Qed.

Lemma PROJECTS_DIR_eq : PROJECTS_DIR homedir = below [js ".claude"; js "projects"].
Proof.
  unfold PROJECTS_DIR, CLAUDE_DIR.
  rewrite <- (app_nil_r homedir) at 1. fold (below []).
  by rewrite !join_below.
Qed.

Lemma TOOL_DIR_eq :
  TOOL_DIR homedir = below [js ".claude"; js "tools"; js "csesh"].
Proof.
  unfold TOOL_DIR, CLAUDE_DIR.
  rewrite <- (app_nil_r homedir) at 1. fold (below []).
  by rewrite !join_below.
Qed.

Lemma TRASH_DIR_eq :
  TRASH_DIR homedir = below [js ".claude"; js "tools"; js "csesh"; js "trash"].
Proof. unfold TRASH_DIR. rewrite TOOL_DIR_eq. by rewrite join_below. Qed.

Lemma TRASH_MANIFEST_eq :
  TRASH_MANIFEST homedir
  = below [js ".claude"; js "tools"; js "csesh"; js "trash-manifest.json"].
Proof. unfold TRASH_MANIFEST. rewrite TOOL_DIR_eq. by rewrite join_below. Qed.

Definition trashd : path := below [js ".claude"; js "tools"; js "csesh"; js "trash"].
Definition mfile : path := below [js ".claude"; js "tools"; js "csesh"; js "trash-manifest.json"].

Lemma dirname_mfile : dirname mfile `prefix_of` trashd.
Proof.
  unfold dirname, mfile, trashd, below.
  change [js ".claude"; js "tools"; js "csesh"; js "trash-manifest.json"]
    with ([js ".claude"; js "tools"; js "csesh"] ++ [js "trash-manifest.json"]).
  rewrite app_assoc, removelast_last. exists [js "trash"].
  by rewrite <- app_assoc.
Qed.

Lemma run_loadManifest t :
  loadManifest homedir t = (Return (journal homedir t), t).
Proof.
  unfold loadManifest, try_catch, bind, readFile, query, Fs.readFile, journal,
    ret, throw.
  repeat case_match; by simplify_eq.
Qed.

Lemma run_saveManifest items t :
  (forall q, q `prefix_of` trashd -> t !! q = Some Dir) ->
  t !! mfile <> Some Dir ->
  saveManifest homedir items t
  = (Return tt, <[mfile := File (Journal items)]> t).
Proof.
  intros Hd Hm. unfold saveManifest.
  rewrite TRASH_DIR_eq, TRASH_MANIFEST_eq. fold trashd mfile.
  rewrite (bind_run _ _ _ _ _ (run_mkdir_present _ _ Hd)).
  unfold writeFile, update. rewrite writeFile_ok; [done| |done].
  unfold is_dir. by rewrite (Hd _ dirname_mfile).
Qed.

Lemma journal_lookup t t' :
  t' !! mfile = t !! mfile -> journal homedir t' = journal homedir t.
Proof. unfold journal. rewrite TRASH_MANIFEST_eq. fold mfile. by intros ->. Qed.

Section Session.

Variables slug name : jsstring.
Hypothesis Hslug : plain slug = true.
Hypothesis Hslug_free : jsonl_free slug = true.
Hypothesis Hname : plain name = true.
Hypothesis Hname_jsonl : includes name jsonl = true.
Hypothesis Hstem : plain (replace_first name jsonl []) = true.

Definition stem : jsstring := replace_first name jsonl [].
Definition file : path := below [js ".claude"; js "projects"; slug; name].
Definition slot : path := below [js ".claude"; js "tools"; js "csesh"; js "trash"; name].
Definition comp : path := below [js ".claude"; js "projects"; slug; stem].
Definition comp' : path := below [js ".claude"; js "tools"; js "csesh"; js "trash"; stem].
Definition pdir : path := below [js ".claude"; js "projects"; slug].

Lemma stem_ne : stem <> name.
Proof. by apply replace_first_changes. Qed.

Lemma session_file_eq : session_file homedir slug name = (stem, file).
Proof.
  unfold session_file. rewrite PROJECTS_DIR_eq. rewrite !join_below; try done.
  by cbn; rewrite Hslug.
Qed.

Lemma plain_file : plain_path file = true.
Proof. apply plain_below. by cbn; rewrite Hslug, Hname. Qed.

Lemma plain_slot : plain_path slot = true.
Proof. apply plain_below. by cbn; rewrite Hname. Qed.

Lemma plain_comp : plain_path comp = true.
Proof. apply plain_below. by cbn; rewrite Hslug; fold stem in Hstem; rewrite Hstem. Qed.

Lemma plain_comp' : plain_path comp' = true.
Proof. apply plain_below. by cbn; fold stem in Hstem; rewrite Hstem. Qed.

Lemma free_below rel :
  forallb jsonl_free rel = true -> forallb jsonl_free (below rel) = true.
Proof. intros H. unfold below. by rewrite forallb_app, Hfree, H. Qed.

Lemma basename_file : basename file = name.
Proof.
  unfold basename, file, below.
  change [js ".claude"; js "projects"; slug; name]
    with ([js ".claude"; js "projects"; slug] ++ [name]).
  by rewrite app_assoc, last_snoc.
Qed.

Lemma join_slot : join (TRASH_DIR homedir) name = slot.
Proof. rewrite TRASH_DIR_eq. by rewrite join_below. Qed.

Lemma companion_file : replace_in_path file jsonl = comp.
Proof.
  unfold file, comp, below.
  change [js ".claude"; js "projects"; slug; name]
    with ([js ".claude"; js "projects"; slug] ++ [name]).
  rewrite app_assoc, replace_in_path_last.
  - by rewrite <- app_assoc.
  - rewrite forallb_app. fold jsonl_free. rewrite Hfree. cbn.
    fold (jsonl_free slug). by rewrite Hslug_free.
Qed.

Lemma companion_slot : replace_in_path slot jsonl = comp'.
Proof.
  unfold slot, comp', below.
  change [js ".claude"; js "tools"; js "csesh"; js "trash"; name]
    with ([js ".claude"; js "tools"; js "csesh"; js "trash"] ++ [name]).
  rewrite app_assoc, replace_in_path_last.
  - by rewrite <- app_assoc.
  - rewrite forallb_app. fold jsonl_free. by rewrite Hfree.
Qed.

Lemma basename_comp : raw_basename comp = stem.
Proof.
  unfold comp, below.
  change [js ".claude"; js "projects"; slug; stem]
    with ([js ".claude"; js "projects"; slug] ++ [stem]).
  rewrite app_assoc, raw_basename_snoc; [done|].
  intros E. fold stem in Hstem. by rewrite E in Hstem.
Qed.

Lemma join_comp' : join (TRASH_DIR homedir) stem = comp'.
Proof. rewrite TRASH_DIR_eq. by rewrite join_below. Qed.

Lemma relative_file :
  relative (PROJECTS_DIR homedir) file = Relative 0 [slug; name].
Proof.
  rewrite PROJECTS_DIR_eq. unfold file, below.
  change [js ".claude"; js "projects"; slug; name]
    with ([js ".claude"; js "projects"] ++ [slug; name]).
  by rewrite app_assoc, relative_below.
Qed.

Lemma resolve_file : resolveOriginalPath homedir (Relative 0 [slug; name]) = file.
Proof.
  unfold resolveOriginalPath. rewrite PROJECTS_DIR_eq. unfold below.
  rewrite resolve_below.
  - by rewrite <- app_assoc.
  - rewrite <- app_assoc. apply plain_file.
Qed.

Lemma dirname_file : dirname file = pdir.
Proof.
  unfold dirname, file, pdir, below.
  change [js ".claude"; js "projects"; slug; name]
    with ([js ".claude"; js "projects"; slug] ++ [name]).
  by rewrite app_assoc, removelast_last.
Qed.


(** A path off the two places of the companion directory. *)
Definition outside (q : path) : Prop :=
  ~ comp `prefix_of` q /\ ~ comp' `prefix_of` q.

Ltac outside_tac :=
  let H := fresh "H" in
  split; intros H; unfold comp, comp', file, slot, mfile, trashd, pdir, below in *;
  pose proof stem_ne; prefix_inv H; done.

Lemma outside_file : outside file.
Proof. outside_tac. Qed.

Lemma outside_slot : outside slot.
Proof. outside_tac. Qed.

Lemma outside_mfile : outside mfile.
Proof. outside_tac. Qed.

Lemma outside_trashd q : q `prefix_of` trashd -> outside q.
Proof.
  intros Hq. split; intros H; pose proof (transitivity H Hq) as H';
    unfold comp, comp', trashd, below in H'; prefix_inv H'; done.
Qed.


Ltac path_contra E :=
  unfold comp, comp', file, slot, mfile, trashd, pdir, below in E;
  pose proof stem_ne; prefix_inv E; done.

Ltac path_tac :=
  let E := fresh "E" in
  intros E;
  first [ path_contra E
        | match type of E with
          | ?a = ?b =>
              let E' := fresh "E" in
              assert (E' : a `prefix_of` b) by (by rewrite E); path_contra E'
          end ].

Lemma file_not_trashd : ~ file `prefix_of` trashd. Proof. path_tac. Qed.
Lemma slot_not_trashd : ~ slot `prefix_of` trashd. Proof. path_tac. Qed.
Lemma mfile_not_trashd : ~ mfile `prefix_of` trashd. Proof. path_tac. Qed.
Lemma mfile_ne_slot : mfile <> slot. Proof. path_tac. Qed.
Lemma mfile_ne_file : mfile <> file. Proof. path_tac. Qed.
Lemma slot_ne_file : slot <> file. Proof. path_tac. Qed.

Lemma trashSession_unfold session reason now :
  trashSession homedir session reason now
  = bind (mkdir (TRASH_DIR homedir)) (fun _ =>
    bind (rename (filePath session)
            (join (TRASH_DIR homedir) (basename (filePath session)))) (fun _ =>
    bind (move_companion (replace_in_path (filePath session) jsonl)
            (join (TRASH_DIR homedir)
               (raw_basename (replace_in_path (filePath session) jsonl)))) (fun _ =>
    bind (loadManifest homedir) (fun m =>
    bind (items_of m) (fun items =>
    bind (saveManifest homedir (items ++ [item_of homedir session reason now])) (fun _ =>
    ret (id session, join (TRASH_DIR homedir) (basename (filePath session))))))))).
Proof. reflexivity. Qed.


(** The state a restore leaves. *)
Lemma restoreSession_runs c items idx item t :
  t !! mfile = Some (File (Journal items)) ->
  findIndex (fun i => str_eqb (item_id i) stem) items = Some idx ->
  items !! idx = Some item ->
  trashPath item = slot ->
  originalPath item = Relative 0 [slug; name] ->
  t !! slot = Some (File c) ->
  (forall q, q `prefix_of` pdir -> t !! q = Some Dir) ->
  t !! file <> Some Dir ->
  (forall q, q `prefix_of` trashd -> t !! q = Some Dir) ->
  exists t2,
    restoreSession homedir stem t = (Return (stem, file), t2) /\
    t2 !! file = Some (File c) /\
    t2 !! slot = None /\
    t2 !! mfile = Some (File (Journal (splice idx items))) /\
    (forall q, outside q -> q <> file -> q <> slot -> q <> mfile ->
               t2 !! q = t !! q).
Proof.
  intros Hm Hfind Hlook Htp Hop Hslot Hpd Hfile Htd.
  unfold restoreSession.
  rewrite (bind_run _ _ _ _ _ (run_loadManifest t)).
  assert (Hj : journal homedir t = Some items).
  { unfold journal. rewrite TRASH_MANIFEST_eq. fold mfile. by rewrite Hm. }
  rewrite Hj. cbn [items_of].
  rewrite (bind_run _ _ _ _ _ (eq_refl : ret items t = (Return items, t))).
  rewrite Hfind, Hlook, Htp, Hop, resolve_file, dirname_file.
  rewrite companion_slot, companion_file.
  rewrite (bind_run _ _ _ _ _ (run_mkdir_present _ _ Hpd)).
  assert (Hren : rename slot file t
                 = (Return tt, <[file := File c]> (delete slot t))).
  { apply run_rename_file; [apply plain_slot|apply plain_file|done| |done].
    rewrite dirname_file. unfold is_dir. by rewrite Hpd. }
  rewrite (bind_run _ _ _ _ _ Hren).
  destruct (run_move_companion comp' comp (<[file := File c]> (delete slot t)))
    as (tc & Hmc & Htc).
  rewrite !normalize_plain in Htc by (apply plain_comp || apply plain_comp').
  rewrite (bind_run _ _ _ _ _ Hmc).
  assert (Hcd : forall q, q `prefix_of` trashd -> tc !! q = Some Dir).
  { intros q Hq. rewrite Htc by (by apply outside_trashd).
    rewrite lookup_insert_ne by (intros <-; by apply file_not_trashd).
    rewrite lookup_delete_ne by (intros <-; by apply slot_not_trashd).
    by apply Htd. }
  assert (Hcm : tc !! mfile = t !! mfile).
  { rewrite Htc by apply outside_mfile.
    rewrite lookup_insert_ne by (apply not_eq_sym, mfile_ne_file).
    by rewrite lookup_delete_ne by (apply not_eq_sym, mfile_ne_slot). }
  rewrite (bind_run _ _ _ _ _
             (run_saveManifest _ tc Hcd ltac:(by rewrite Hcm, Hm))).
  eexists. split; [reflexivity|].
  split; [|split; [|split]].
  - rewrite lookup_insert_ne by apply mfile_ne_file.
    rewrite Htc by apply outside_file. apply lookup_insert_eq.
  - rewrite lookup_insert_ne by apply mfile_ne_slot.
    rewrite Htc by apply outside_slot.
    rewrite lookup_insert_ne by (apply not_eq_sym, slot_ne_file).
    apply lookup_delete_eq.
  - apply lookup_insert_eq.
  - intros q Ho H1 H2 H3.
    rewrite lookup_insert_ne by (by apply not_eq_sym).
    rewrite Htc by apply Ho.
    rewrite lookup_insert_ne by (by apply not_eq_sym).
    by rewrite lookup_delete_ne by (by apply not_eq_sym).
Qed.


Lemma update_cases (f : fs content -> errno + fs content) (t : fs content) :
  (exists e, update f t = (Throw (IOError e), t)) \/
  (exists t', f t = inr t' /\ update f t = (Return tt, t')).
Proof. unfold update. destruct (f t) as [e|t']; [left|right]; eauto. Qed.

Lemma saveManifest_throws (items : list TrashItem) (t : fs content)
  (e : exn) (t' : fs content) :
  saveManifest homedir items t = (Throw e, t') ->
  forall q, ~ q `prefix_of` trashd -> t' !! q = t !! q.
Proof.
  unfold saveManifest. rewrite TRASH_DIR_eq, TRASH_MANIFEST_eq.
  fold trashd mfile.
  unfold mkdir, writeFile.
  destruct (update_cases (fun t0 => mkdir_p t0 trashd) t)
    as [(e0 & Hmk)|(ta & Hmk & Hrun)].
  - rewrite (bind_throw _ _ _ _ _ Hmk). by intros [= _ <-].
  - rewrite (bind_run _ _ _ _ _ Hrun).
    pose proof (mkdir_p_inr _ _ _ Hmk) as Hta.
    destruct (update_cases (fun t0 => Fs.writeFile t0 mfile (Journal items)) ta)
      as [(e0 & Hw)|(tb & _ & Hw)]; rewrite Hw; [|done].
    intros [= _ <-] q Hq. by rewrite Hta, decide_False.
Qed.

Lemma trashSession_throws (session : Session) (reason now : jsstring)
  (c : content) (t : fs content) (e : exn) (t' : fs content) :
  id session = stem -> filePath session = file ->
  t !! file = Some (File c) ->
  trashSession homedir session reason now t = (Throw e, t') ->
  t' !! mfile = t !! mfile /\
  ((t' !! file = Some (File c) /\ t' !! slot = t !! slot) \/
   (t' !! file = None /\ t' !! slot = Some (File c))).
Proof.
  intros Hid Hfp Hfile.
  rewrite trashSession_unfold, Hid, Hfp.
  rewrite basename_file, join_slot, companion_file, basename_comp, join_comp'
   .
  rewrite TRASH_DIR_eq. fold trashd. unfold mkdir at 1.
  destruct (update_cases (fun t0 => mkdir_p t0 trashd) t)
    as [(e0 & Hmk)|(ta & Hmk & Hrun)].
  { rewrite (bind_throw _ _ _ _ _ Hmk). intros [= _ <-]. split; [done|].
    left. by split. }
  rewrite (bind_run _ _ _ _ _ Hrun).
  pose proof (mkdir_p_inr _ _ _ Hmk) as Hta.
  assert (Haf : ta !! file = Some (File c)).
  { rewrite Hta, decide_False; [done|apply file_not_trashd]. }
  assert (Has : ta !! slot = t !! slot).
  { rewrite Hta, decide_False; [done|apply slot_not_trashd]. }
  assert (Ham : ta !! mfile = t !! mfile).
  { rewrite Hta, decide_False; [done|apply mfile_not_trashd]. }
  unfold rename at 1.
  rewrite !ends_in_dots_plain by (apply plain_file || apply plain_slot).
  cbn [orb]. rewrite !normalize_plain by (apply plain_file || apply plain_slot).
  destruct (update_cases (fun t0 => Fs.rename t0 file slot) ta)
    as [(e0 & Hren)|(tb & Hren & Hrun2)].
  { rewrite (bind_throw _ _ _ _ _ Hren). intros [= _ <-]. split; [done|].
    left. by split. }
  rewrite (bind_run _ _ _ _ _ Hrun2).
  apply (rename_file_inr _ _ _ _ _ Haf) in Hren. subst tb.
  destruct (run_move_companion comp comp' (<[slot := File c]> (delete file ta)))
    as (tc & Hmc & Htc).
  rewrite !normalize_plain in Htc by (apply plain_comp || apply plain_comp').
  rewrite (bind_run _ _ _ _ _ Hmc).
  rewrite (bind_run _ _ _ _ _ (run_loadManifest tc)).
  assert (Hcm : tc !! mfile = t !! mfile).
  { rewrite Htc by apply outside_mfile.
    rewrite lookup_insert_ne by (apply not_eq_sym, mfile_ne_slot).
    by rewrite lookup_delete_ne by (apply not_eq_sym, mfile_ne_file). }
  assert (Hcf : tc !! file = None).
  { rewrite Htc by apply outside_file.
    rewrite lookup_insert_ne by apply slot_ne_file.
    apply lookup_delete_eq. }
  assert (Hcs : tc !! slot = Some (File c)).
  { rewrite Htc by apply outside_slot. apply lookup_insert_eq. }
  destruct (journal homedir tc) as [items|]; cbn [items_of].
  2: { rewrite (bind_throw _ _ _ TypeError tc); [|done].
       intros [= _ <-]. split; [done|]. right. by split. }
  rewrite (bind_run _ _ _ _ _ (eq_refl : ret items tc = (Return items, tc))).
  destruct (saveManifest homedir (items ++ [item_of homedir session reason now]) tc)
    as [[[]|e1] td] eqn:Hsave.
  { rewrite (bind_run _ _ _ _ _ Hsave). done. }
  rewrite (bind_throw _ _ _ _ _ Hsave). intros [= _ <-].
  pose proof (saveManifest_throws _ _ _ _ Hsave) as Hd.
  rewrite !Hd by (apply mfile_not_trashd || apply file_not_trashd
                  || apply slot_not_trashd).
  split; [done|]. right. by split.
Qed.








End Session.
End Journal.


Lemma journal_file (homedir : path) (t : fs content) (items : list TrashItem)
  (idx : nat) (item : TrashItem) :
  journal homedir t = Some items -> items !! idx = Some item ->
  t !! TRASH_MANIFEST homedir = Some (File (Journal items)).
Proof.
  unfold journal. intros Hj Hl.
  destruct (t !! TRASH_MANIFEST homedir) as [[[]|]|]; simplify_eq; done.
Qed.

(** C1, on the code.  Two sessions [A/s.jsonl] and [B/s.jsonl] hold "aaa"
    and "bbb".  Both are trashed, and both calls return the same trash
    path: after the second the path holds "bbb", no file of the tree holds
    "aaa" any more, the manifest lists both entries at that one path, and
    restoring the id brings "bbb" to the path of [A]. *)
Theorem trash_overwrites_same_basename :
  let r1 := trashSession home sessionA (js "manual") (js "t1") two_sessions in
  let r2 := trashSession home sessionB (js "manual") (js "t2") r1.2 in
  let r3 := restoreSession home (js "s") r2.2 in
  r1.1 = Return (js "s", slot_s) /\
  r1.2 !! slot_s = Some (File (Text (js "aaa"))) /\
  r2.1 = Return (js "s", slot_s) /\
  r2.2 !! slot_s = Some (File (Text (js "bbb"))) /\
  holds_text two_sessions (js "aaa") = true /\
  holds_text r1.2 (js "aaa") = true /\
  holds_text r2.2 (js "aaa") = false /\
  (trashPath <$> default [] (journal home r2.2)) = [slot_s; slot_s] /\
  r3.1 = Return (js "s", fileA) /\
  r3.2 !! fileA = Some (File (Text (js "bbb"))).
Proof. by vm_compute. Qed.

(** C2, as the specification states it, fails: with a manifest that is
    the JSON document [{}], [trashSession] throws a [TypeError] after the
    move: the file has left its path and lies in the trash, and the
    manifest has no entry for it. *)
Lemma trashSession_throws_after_move :
  let r := trashSession home sessionA (js "manual") (js "t1")
             manifest_without_items in
  r.1 = Throw TypeError /\
  manifest_without_items !! fileA = Some (File (Text (js "aaa"))) /\
  r.2 !! fileA = None /\
  r.2 !! slot_s = Some (File (Text (js "aaa"))) /\
  r.2 !! TRASH_MANIFEST home = Some (File (OtherJson (js "{}"))) /\
  r.2 <> manifest_without_items.
Proof.
  cbv zeta. do 5 (split; [by vm_compute|]).
  intros E. apply (f_equal (fun t => t !! fileA)) in E. by vm_compute in E.
Qed.

(** C2, amended.  For a session file [<id>.jsonl] of a project that is in
    place: if [trashSession] throws, the manifest file is as it was, and
    either the session file is still at its path and the trash path is
    untouched (the throw came before or from the move), or the file has
    been moved to the trash path and no entry was written (the throw came
    from reading or writing the manifest). *)
Theorem trashSession_throw_leaves (homedir : path) (slug name : jsstring)
  (session : Session) (c : content) (t : fs content) (reason now : jsstring)
  (e : exn) (t' : fs content) :
  plain_path homedir = true -> forallb jsonl_free homedir = true ->
  plain slug = true -> jsonl_free slug = true ->
  plain name = true -> includes name jsonl = true ->
  (id session, filePath session) = session_file homedir slug name ->
  plain (id session) = true ->
  t !! filePath session = Some (File c) ->
  trashSession homedir session reason now t = (Throw e, t') ->
  let trashed := join (TRASH_DIR homedir) name in
  t' !! TRASH_MANIFEST homedir = t !! TRASH_MANIFEST homedir /\
  ((t' !! filePath session = Some (File c) /\ t' !! trashed = t !! trashed) \/
   (t' !! filePath session = None /\ t' !! trashed = Some (File c))).
Proof.
  intros Hhome Hfree Hslug Hsfree Hname Hjsonl Hsess Hstem Hfile Hthrow trashed.
  rewrite (session_file_eq homedir Hhome slug name Hslug Hname) in Hsess.
  injection Hsess as Hid Hfp. rewrite Hid in Hstem. subst trashed.
  rewrite Hfp in *. rewrite (join_slot homedir Hhome name Hname).
  rewrite TRASH_MANIFEST_eq by done.
  by eapply (trashSession_throws homedir Hhome Hfree slug name).
Qed.

Lemma trashSession_throw_leaves_witness :
  let t' := (trashSession home sessionA (js "manual") (js "t1")
               manifest_without_items).2 in
  let trashed := join (TRASH_DIR home) (js "s.jsonl") in
  t' !! TRASH_MANIFEST home = manifest_without_items !! TRASH_MANIFEST home /\
  ((t' !! filePath sessionA = Some (File (Text (js "aaa"))) /\
    t' !! trashed = manifest_without_items !! trashed) \/
   (t' !! filePath sessionA = None /\
    t' !! trashed = Some (File (Text (js "aaa"))))).
Proof.
  intros t'.
  assert (H1 : plain_path home = true) by (vm_compute; reflexivity).
  assert (H2 : forallb jsonl_free home = true) by (vm_compute; reflexivity).
  assert (H3 : plain (js "A") = true) by (vm_compute; reflexivity).
  assert (H4 : jsonl_free (js "A") = true) by (vm_compute; reflexivity).
  assert (H5 : plain (js "s.jsonl") = true) by (vm_compute; reflexivity).
  assert (H6 : includes (js "s.jsonl") jsonl = true) by (vm_compute; reflexivity).
  assert (H7 : (id sessionA, filePath sessionA)
               = session_file home (js "A") (js "s.jsonl"))
    by (vm_compute; reflexivity).
  assert (H8 : plain (id sessionA) = true) by (vm_compute; reflexivity).
  assert (H9 : manifest_without_items !! filePath sessionA
               = Some (File (Text (js "aaa")))) by (vm_compute; reflexivity).
  assert (H10 : trashSession home sessionA (js "manual") (js "t1")
                  manifest_without_items = (Throw TypeError, t')).
  { rewrite (surjective_pairing (trashSession _ _ _ _ _)).
    apply (f_equal (fun o => (o, t'))). vm_compute; reflexivity. }
  exact (trashSession_throw_leaves home (js "A") (js "s.jsonl") sessionA
           (Text (js "aaa")) manifest_without_items (js "manual") (js "t1")
           TypeError t' H1 H2 H3 H4 H5 H6 H7 H8 H9 H10).
Defined.







Lemma startsWith_refl (s : jsstring) : startsWith s s = true.
Proof. induction s as [|c s IH]; [done|]. cbn. by rewrite N.eqb_refl. Qed.

Lemma startsWith_trans (a b c : jsstring) :
  startsWith a b = true -> startsWith b c = true -> startsWith a c = true.
Proof.
  revert a b. induction c as [|x c IH]; intros a b Hab Hbc; [by destruct a|].
  destruct b as [|y b]; [done|]. destruct a as [|z a]; [done|].
  cbn in *. apply andb_true_iff in Hab as [E1%N.eqb_eq H1].
  apply andb_true_iff in Hbc as [E2%N.eqb_eq H2]. subst.
  rewrite N.eqb_refl. cbn. by eapply IH.
Qed.

Lemma purge_match_trans (wanted : jsstring) (m i : TrashItem) :
  purge_match wanted m = true -> purge_match (item_id m) i = true ->
  purge_match wanted i = true.
Proof.
  unfold purge_match, str_eqb. rewrite !orb_true_iff, !bool_decide_eq_true.
  intros [Em|Hm] [Ei|Hi]; right.
  - rewrite Ei, Em. apply startsWith_refl.
  - rewrite <- Em. done.
  - rewrite Ei. done.
  - by eapply startsWith_trans.
Qed.

Lemma findIndex_first pred (items : list TrashItem) idx :
  items !! idx = None \/ (exists i, items !! idx = Some i /\ pred i = true) ->
  (forall j i, (j < idx)%nat -> items !! j = Some i -> pred i = false) ->
  findIndex pred items = (if items !! idx is Some _ then Some idx else None).
Proof.
  revert idx. induction items as [|x items IH]; intros idx Hat Hbefore; [done|].
  destruct idx as [|idx]; cbn [findIndex lookup list_lookup].
  - destruct Hat as [?|(i & [= <-] & ->)]; done.
  - rewrite (Hbefore 0%nat x) by (done || lia).
    rewrite (IH idx); [by destruct (items !! idx)|done|].
    intros j i Hj Hi. apply (Hbefore (S j) i); [lia|done].
Qed.

(** X21.  The trash commands of the command line look the entry up
    themselves, by id or by prefix, and pass the id of the entry found to
    [restoreSession] and [deleteFromTrash]: both then act on the very entry
    the command found, also when ids repeat or one id starts with
    another. *)
Theorem trash_commands_act_on_match (wanted : jsstring)
  (items : list TrashItem) (found : TrashItem) :
  find (purge_match wanted) items = Some found ->
  findIndex (fun i => str_eqb (item_id i) (item_id found)) items
  = findIndex (purge_match wanted) items /\
  findIndex (purge_match (item_id found)) items
  = findIndex (purge_match wanted) items /\
  find (purge_match (item_id found)) items = Some found.
Proof.
  unfold find. intros H.
  destruct (findIndex (purge_match wanted) items) as [idx|] eqn:Ei; [|done].
  cbn in H. destruct (findIndex_some _ _ _ Ei) as (i & Hi & Hp & Hfirst).
  assert (i = found) as -> by congruence.
  assert (E1 : findIndex (fun i => str_eqb (item_id i) (item_id found)) items
               = Some idx).
  { rewrite (findIndex_first _ items idx); [by rewrite Hi| |].
    - right. exists found. split; [done|]. by apply bool_decide_eq_true.
    - intros j i Hj Hji. specialize (Hfirst j i Hj Hji).
      apply bool_decide_eq_false. intros E.
      unfold purge_match in Hfirst, Hp. rewrite E in Hfirst. congruence. }
  assert (E2 : findIndex (purge_match (item_id found)) items = Some idx).
  { rewrite (findIndex_first _ items idx); [by rewrite Hi| |].
    - right. exists found. split; [done|]. unfold purge_match.
      by rewrite startsWith_refl, orb_true_r.
    - intros j i Hj Hji. specialize (Hfirst j i Hj Hji).
      destruct (purge_match (item_id found) i) eqn:E; [|done].
      by rewrite (purge_match_trans wanted found i) in Hfirst. }
  rewrite E1, E2. cbn. by rewrite Hi.
Qed.

Lemma trash_commands_act_on_match_witness :
  findIndex (fun i => str_eqb (item_id i) (js "abc1"))
    (default [] (journal home two_trashed))
  = findIndex (purge_match (js "ab")) (default [] (journal home two_trashed)).
Proof.
  exact (proj1 (trash_commands_act_on_match (js "ab")
                  (default [] (journal home two_trashed))
                  (entry (js "abc1")
                     (PROJECTS_DIR home ++ [js "A"; js "abc1.jsonl"])
                     (TRASH_DIR home ++ [js "abc1.jsonl"]))
                  eq_refl)).
Defined.

Lemma common_prefix_spec (a b : path) :
  (common_prefix a b <= length a)%nat /\
  take (common_prefix a b) a = take (common_prefix a b) b.
Proof.
  revert b. induction a as [|x a IH]; intros b; [done|].
  destruct b as [|y b]; [cbn; split; [lia|done]|]. cbn [common_prefix].
  case_bool_decide as E; [|cbn; split; [lia|done]].
  subst y. destruct (IH b) as [IH1 IH2]. cbn. split; [lia|]. by rewrite IH2.
Qed.

(** X22.  The path the manifest stores for a trashed session resolves
    back to the path of the session, wherever it lies: under the projects
    directory or not.  A path stored in the old, absolute form resolves to
    itself. *)
Theorem resolveOriginalPath_relative (homedir p : path) :
  plain_path homedir = true -> plain_path p = true ->
  resolveOriginalPath homedir (relative (PROJECTS_DIR homedir) p) = p /\
  resolveOriginalPath homedir (Absolute p) = p.
Proof.
  intros Hhome Hp. split; [|done].
  unfold relative, resolveOriginalPath, resolve.
  destruct (common_prefix_spec (PROJECTS_DIR homedir) p) as [Hle Htake].
  replace (length (PROJECTS_DIR homedir)
           - (length (PROJECTS_DIR homedir) - common_prefix (PROJECTS_DIR homedir) p))%nat
    with (common_prefix (PROJECTS_DIR homedir) p) by lia.
  rewrite Htake, take_drop. by apply normalize_plain.
Qed.

Lemma resolveOriginalPath_relative_witness :
  resolveOriginalPath home (relative (PROJECTS_DIR home) [js "tmp"; js "s.jsonl"])
  = [js "tmp"; js "s.jsonl"] /\
  resolveOriginalPath home (Absolute [js "tmp"; js "s.jsonl"])
  = [js "tmp"; js "s.jsonl"].
Proof.
  exact (resolveOriginalPath_relative home [js "tmp"; js "s.jsonl"]
           eq_refl eq_refl).
Defined.

Lemma resolve_step_plain_path acc c :
  plain_path acc = true -> plain_path (resolve_step acc c) = true.
Proof.
  intros H. unfold resolve_step.
  destruct (bool_decide_reflect (c = [])) as [?|H1]; [done|].
  destruct (bool_decide_reflect (c = dot)) as [?|H2]; [done|].
  destruct (bool_decide_reflect (c = dotdot)) as [?|H3]; cbn [orb].
  - unfold plain_path in *. rewrite forallb_forall in *.
    intros x Hx. apply H. revert Hx. clear.
    induction acc as [|a [|b acc] IH]; [done|done|].
    intros [->|Hx]; [by left|]. right. by apply IH.
  - apply plain_path_snoc; [done|]. unfold plain.
    by rewrite !bool_decide_eq_false_2.
Qed.

Lemma normalize_is_plain (raw : list jsstring) : plain_path (normalize raw) = true.
Proof.
  unfold normalize.
  assert (H : forall acc, plain_path acc = true ->
                          plain_path (fold_left resolve_step raw acc) = true).
  { induction raw as [|c raw IH]; intros acc Hacc; [done|].
    cbn. apply IH. by apply resolve_step_plain_path. }
  by apply H.
Qed.

Section Purge.

Variable homedir : path.
Variable Date_parse : jsstring -> option Z.

Implicit Types (t : fs content) (p q : path).

Lemma try_unlink_shrinks p t :
  exists t', try_catch (unlink p) (ret tt) t = (Return tt, t') /\
    t' ⊆ t /\ is_file t' p = false.
Proof.
  unfold try_catch, unlink, update, Fs.unlink, ret, is_file.
  destruct (t !! p) as [[c|]|] eqn:Hp.
  - eexists. split; [done|]. split; [apply delete_subseteq|].
    by rewrite lookup_delete_eq.
  - exists t. by rewrite Hp.
  - exists t. by rewrite Hp.
Qed.

Lemma rm_companion_shrinks p t :
  exists t',
    try_catch (bind (stat p) (fun dirStat =>
                 if isDirectory dirStat then rm p else ret tt)) (ret tt) t
    = (Return tt, t') /\ t' ⊆ t.
Proof.
  unfold try_catch, bind, stat, query, Fs.stat, rm, update, ret.
  destruct (t !! p) as [[c|]|] eqn:Hp; cbn [isDirectory];
    try (by exists t).
  eexists. split; [done|]. apply map_filter_subseteq.
Qed.

Lemma is_file_shrinks t t' p : t' ⊆ t -> is_file t p = false -> is_file t' p = false.
Proof.
  intros Hs. unfold is_file. destruct (t' !! p) as [[c|]|] eqn:E; try done.
  by rewrite (lookup_weaken _ _ _ _ E Hs).
Qed.

Lemma purge_item_run (item : TrashItem) t :
  exists t', purge_item item t = (Return tt, t') /\ t' ⊆ t /\
             is_file t' (trashPath item) = false.
Proof.
  unfold purge_item.
  destruct (try_unlink_shrinks (trashPath item) t) as (t1 & E1 & H1 & Hf).
  rewrite (bind_run _ _ _ _ _ E1). cbv zeta.
  destruct (rm_companion_shrinks
              (normalize (replace_in_path (trashPath item) jsonl)) t1)
    as (t2 & E2 & H2).
  exists t2. split; [exact E2|]. split; [by etrans|]. by eapply is_file_shrinks.
Qed.

Lemma purge_items_run (items : list TrashItem) t :
  exists t', purge_items items t = (Return tt, t') /\ t' ⊆ t /\
             forall i, i ∈ items -> is_file t' (trashPath i) = false.
Proof.
  revert t. induction items as [|item items IH]; intros t.
  - exists t. split; [done|]. split; [done|]. by intros i ?%elem_of_nil.
  - cbn [purge_items].
    destruct (purge_item_run item t) as (t1 & E1 & H1 & Hf).
    rewrite (bind_run _ _ _ _ _ E1).
    destruct (IH t1) as (t2 & E2 & H2 & Hall).
    exists t2. split; [exact E2|]. split; [by etrans|].
    intros i [->|Hi]%elem_of_cons; [by eapply is_file_shrinks|by apply Hall].
Qed.

(** Whatever [saveManifest] does, the files it leaves, the manifest
    apart, are files that were there. *)
Lemma saveManifest_adds_no_file (items : list TrashItem) t :
  let r := saveManifest homedir items t in
  forall q c, q <> TRASH_MANIFEST homedir ->
    r.2 !! q = Some (File c) -> t !! q = Some (File c).
Proof.
  cbv zeta. intros q c Hq. unfold saveManifest, bind, mkdir, update.
  destruct (mkdir_p t (TRASH_DIR homedir)) as [e|t1] eqn:Em; [done|].
  assert (H1 : t1 !! q = Some (File c) -> t !! q = Some (File c)).
  { rewrite (mkdir_p_inr _ _ _ Em). by case_decide. }
  unfold writeFile, update.
  destruct (Fs.writeFile t1 (TRASH_MANIFEST homedir) (Journal items))
    as [e|t2] eqn:Ew; [done|].
  unfold Fs.writeFile in Ew. repeat case_match; simplify_eq;
    cbn [snd]; by rewrite lookup_insert_ne.
Qed.

(** X23.  [emptyTrash] never creates or changes a file other than the
    manifest, whether it returns or throws: a file found afterwards at
    any other path was there before, with the same content. *)
Theorem emptyTrash_only_removes (olderThanDays now : Z) t :
  let r := emptyTrash homedir Date_parse olderThanDays now t in
  forall q c, q <> TRASH_MANIFEST homedir ->
    r.2 !! q = Some (File c) -> t !! q = Some (File c).
Proof.
  cbv zeta. intros q c Hq. unfold emptyTrash.
  rewrite (bind_run _ _ _ _ _ (run_loadManifest homedir t)).
  destruct (journal homedir t) as [items|]; [|done].
  cbn [items_of]. rewrite (bind_run _ _ t items t eq_refl). cbv zeta.
  set (R := filter _ items). set (K := filter _ items).
  destruct (purge_items_run R t) as (t1 & E1 & H1 & _).
  rewrite (bind_run _ _ _ _ _ E1).
  pose proof (saveManifest_adds_no_file K t1 q c Hq) as Hs. cbv zeta in Hs.
  unfold bind at 1.
  destruct (saveManifest homedir K t1) as [[[]|e] t2]; cbn [snd] in *;
    intros H; apply Hs in H; by eapply lookup_weaken.
Qed.

(** X24.  [deleteFromTrash] never creates or changes a file other than
    the manifest, whether it returns or throws. *)
Theorem deleteFromTrash_only_removes (wanted : jsstring) t :
  let r := deleteFromTrash homedir wanted t in
  forall q c, q <> TRASH_MANIFEST homedir ->
    r.2 !! q = Some (File c) -> t !! q = Some (File c).
Proof.
  cbv zeta. intros q c Hq. unfold deleteFromTrash.
  rewrite (bind_run _ _ _ _ _ (run_loadManifest homedir t)).
  destruct (journal homedir t) as [items|]; [|done].
  cbn [items_of]. rewrite (bind_run _ _ t items t eq_refl).
  destruct (findIndex _ items) as [idx|]; [|done].
  destruct (items !! idx) as [item|]; [|done].
  destruct (try_unlink_shrinks (trashPath item) t) as (t1 & E1 & H1 & _).
  rewrite (bind_run _ _ _ _ _ E1). cbv zeta.
  destruct (rm_companion_shrinks
              (normalize (replace_in_path (trashPath item) jsonl)) t1)
    as (t2 & E2 & H2).
  rewrite (bind_run _ _ _ _ _ E2).
  pose proof (saveManifest_adds_no_file (splice idx items) t2 q c Hq) as Hs.
  cbv zeta in Hs. unfold bind at 1.
  destruct (saveManifest homedir (splice idx items) t2) as [[[]|e] t3];
    cbn [snd] in *; intros H; apply Hs in H;
    exact (lookup_weaken _ _ _ _ (lookup_weaken _ _ _ _ H H2) H1).
Qed.

Hypothesis Hhome : plain_path homedir = true.

Lemma mfile_off_trashd : ~ mfile homedir `prefix_of` trashd homedir.
Proof.
  unfold mfile, trashd, below. intros H. apply prefix_app_inv in H.
  do 3 apply prefix_cons_inv_2 in H.
  apply prefix_cons_inv_1 in H. by vm_compute in H.
Qed.

Lemma run_saveManifest_fresh (items : list TrashItem) t :
  (forall q c, q `prefix_of` trashd homedir -> t !! q <> Some (File c)) ->
  t !! mfile homedir <> Some Dir ->
  exists t1,
    saveManifest homedir items t
    = (Return tt, <[mfile homedir := File (Journal items)]> t1) /\
    forall q, t1 !! q = if decide (q `prefix_of` trashd homedir)
                        then Some Dir else t !! q.
Proof.
  intros Hway Hm. unfold saveManifest.
  rewrite TRASH_DIR_eq, TRASH_MANIFEST_eq by done.
  fold (trashd homedir) (mfile homedir).
  destruct (run_mkdir (trashd homedir) t Hway) as (t1 & E1 & H1).
  rewrite (bind_run _ _ _ _ _ E1). exists t1. split; [|done].
  unfold writeFile, update. rewrite writeFile_ok; [done| |].
  - unfold is_dir. rewrite H1, decide_True; [done|]. apply dirname_mfile.
  - rewrite H1, decide_False; [done|]. apply mfile_off_trashd.
Qed.

(** X25.  [emptyTrash] returns whenever the manifest can be read and
    written: the entries trashed before the cutoff are removed, the others
    are kept in their order and make up the new manifest, and the two
    numbers returned add up to the number of entries.  An entry whose date
    does not parse is kept whatever the number of days, and no file is
    left at the trash path of a removed entry. *)
Theorem emptyTrash_runs (olderThanDays now : Z) (items : list TrashItem) t :
  journal homedir t = Some items ->
  clear_way t (TRASH_DIR homedir) = true ->
  is_dir t (TRASH_MANIFEST homedir) = false ->
  let cutoff := now - olderThanDays * 24 * 60 * 60 * 1000 in
  let removed := filter (fun i => older Date_parse cutoff i = true) items in
  let kept := filter (fun i => older Date_parse cutoff i = false) items in
  exists t',
    emptyTrash homedir Date_parse olderThanDays now t
    = (Return (length removed, length kept), t') /\
    (length removed + length kept = length items)%nat /\
    journal homedir t' = Some kept /\
    (forall i, i ∈ items -> Date_parse (trashedAt i) = None -> i ∈ kept) /\
    (forall i, i ∈ removed -> trashPath i <> TRASH_MANIFEST homedir ->
               is_file t' (trashPath i) = false).
Proof.
  intros Hj Hway Hm. cbv zeta.
  rewrite TRASH_DIR_eq in Hway by done. fold (trashd homedir) in Hway.
  pose proof (clear_way_spec _ _ Hway) as Hno.
  unfold emptyTrash.
  rewrite (bind_run _ _ _ _ _ (run_loadManifest homedir t)), Hj.
  cbn [items_of]. rewrite (bind_run _ _ t items t eq_refl). cbv zeta.
  set (R := filter _ items). set (K := filter _ items).
  destruct (purge_items_run R t) as (t1 & E1 & H1 & Hgone).
  rewrite (bind_run _ _ _ _ _ E1).
  destruct (run_saveManifest_fresh K t1) as (t2 & E2 & H2).
  { intros q c Hq E. apply (Hno q c Hq). by eapply lookup_weaken. }
  { intros E. rewrite TRASH_MANIFEST_eq in Hm by done. unfold is_dir in Hm.
    fold (mfile homedir) in Hm. by rewrite (lookup_weaken _ _ _ _ E H1) in Hm. }
  rewrite (bind_run _ _ _ _ _ E2). eexists. split; [reflexivity|].
  split; [|split; [|split]].
  - subst R K. clear. induction items as [|i items IH]; [done|].
    rewrite !filter_cons. destruct (older Date_parse _ i); cbn.
    + rewrite decide_True, decide_False by done. cbn. lia.
    + rewrite decide_False, decide_True by done. cbn. lia.
  - unfold journal. rewrite TRASH_MANIFEST_eq by done. fold (mfile homedir).
    by rewrite lookup_insert_eq.
  - intros i Hi Hd. apply list_elem_of_filter. split; [|done].
    unfold older. by rewrite Hd.
  - intros i Hi Hne. rewrite TRASH_MANIFEST_eq in Hne by done.
    fold (mfile homedir) in Hne. unfold is_file.
    rewrite lookup_insert_ne by done. rewrite H2.
    case_decide; [done|]. apply (Hgone i Hi).
Qed.

(** X26.  Trashing a session whose file is not there, no file standing
    on the way to the directory it should lie in, throws the no-entry
    error of the move.  By then the trash directory has been created; the
    manifest is as it was and nothing else has changed. *)
Theorem trashSession_missing_file (session : Session) (reason now : jsstring) t :
  plain_path (filePath session) = true ->
  ~ filePath session `prefix_of` TRASH_DIR homedir ->
  t !! filePath session = None ->
  clear_way t (dirname (filePath session)) = true ->
  clear_way t (TRASH_DIR homedir) = true ->
  exists t',
    trashSession homedir session reason now t = (Throw (IOError ENOENT), t') /\
    (forall q, t' !! q = if decide (q `prefix_of` TRASH_DIR homedir)
                         then Some Dir else t !! q) /\
    journal homedir t' = journal homedir t.
Proof.
  intros Hp Hpre Hnone Hdir Hway.
  pose proof (clear_way_spec _ _ Hway) as Hno.
  destruct (run_mkdir (TRASH_DIR homedir) t Hno) as (t1 & E1 & H1).
  exists t1. split; [|split; [done|]].
  - rewrite trashSession_unfold. rewrite (bind_run _ _ _ _ _ E1).
    apply bind_throw. unfold rename.
    rewrite (ends_in_dots_plain _ Hp).
    rewrite (ends_in_dots_plain (join _ _)) by apply normalize_is_plain.
    cbn [orb]. unfold update, Fs.rename.
    rewrite (normalize_plain _ Hp). rewrite H1, decide_False by done.
    rewrite Hnone. unfold lookup_error.
    assert (clear_way t1 (dirname (filePath session)) = true) as ->; [|done].
    apply clear_way_intro. intros q c Hq. rewrite H1.
    case_decide; [done|]. by apply (clear_way_spec _ _ Hdir).
  - apply journal_lookup; [done|]. rewrite H1, decide_False; [done|].
    rewrite TRASH_DIR_eq by done. apply mfile_off_trashd.
Qed.

End Purge.

Lemma emptyTrash_runs_witness :
  let cutoff := 2027 - 0 * 24 * 60 * 60 * 1000 in
  let items := [entry (js "abc1") (PROJECTS_DIR home ++ [js "A"; js "abc1.jsonl"])
                  (TRASH_DIR home ++ [js "abc1.jsonl"]);
                entry (js "abd2") (PROJECTS_DIR home ++ [js "A"; js "abd2.jsonl"])
                  (TRASH_DIR home ++ [js "abd2.jsonl"])] in
  let removed := filter (fun i => older sample_date cutoff i = true) items in
  let kept := filter (fun i => older sample_date cutoff i = false) items in
  exists t',
    emptyTrash home sample_date 0 2027 two_trashed
    = (Return (length removed, length kept), t') /\
    (length removed + length kept = length items)%nat /\
    journal home t' = Some kept /\
    (forall i, i ∈ items -> sample_date (trashedAt i) = None -> i ∈ kept) /\
    (forall i, i ∈ removed -> trashPath i <> TRASH_MANIFEST home ->
               is_file t' (trashPath i) = false).
Proof.
  assert (H1 : plain_path home = true) by (vm_compute; reflexivity).
  assert (H2 : journal home two_trashed
               = Some [entry (js "abc1")
                         (PROJECTS_DIR home ++ [js "A"; js "abc1.jsonl"])
                         (TRASH_DIR home ++ [js "abc1.jsonl"]);
                       entry (js "abd2")
                         (PROJECTS_DIR home ++ [js "A"; js "abd2.jsonl"])
                         (TRASH_DIR home ++ [js "abd2.jsonl"])])
    by (vm_compute; reflexivity).
  assert (H3 : clear_way two_trashed (TRASH_DIR home) = true)
    by (vm_compute; reflexivity).
  assert (H4 : is_dir two_trashed (TRASH_MANIFEST home) = false)
    by (vm_compute; reflexivity).
  exact (emptyTrash_runs home sample_date H1 0 2027 _ two_trashed H2 H3 H4).
Defined.

Lemma trashSession_missing_file_witness :
  exists t',
    trashSession home sessionB (js "manual") (js "t1") one_session
    = (Throw (IOError ENOENT), t') /\
    (forall q, t' !! q = if decide (q `prefix_of` TRASH_DIR home)
                         then Some Dir else one_session !! q) /\
    journal home t' = journal home one_session.
Proof.
  assert (H1 : plain_path home = true) by (vm_compute; reflexivity).
  assert (H2 : plain_path (filePath sessionB) = true) by (vm_compute; reflexivity).
  assert (H3 : ~ filePath sessionB `prefix_of` TRASH_DIR home).
  { apply (bool_decide_unpack (~ _)). vm_compute. exact I. }
  assert (H4 : one_session !! filePath sessionB = None) by (vm_compute; reflexivity).
  assert (H5 : clear_way one_session (dirname (filePath sessionB)) = true)
    by (vm_compute; reflexivity).
  assert (H6 : clear_way one_session (TRASH_DIR home) = true)
    by (vm_compute; reflexivity).
  exact (trashSession_missing_file home H1 sessionB (js "manual") (js "t1")
           one_session H2 H3 H4 H5 H6).
Defined.

(** X27.  A restore overwrites: when a file has appeared at the path a
    trashed session came from, [restoreSession] returns all the same, the
    trashed file takes the place of that file, and its content is gone. *)
Theorem restoreSession_overwrites (homedir : path) (slug name : jsstring)
  (t : fs content) (items : list TrashItem) (idx : nat) (item : TrashItem)
  (c c0 : content) :
  plain_path homedir = true -> forallb jsonl_free homedir = true ->
  plain slug = true -> jsonl_free slug = true ->
  plain name = true -> includes name jsonl = true ->
  plain (replace_first name jsonl []) = true ->
  well_formed t = true ->
  journal homedir t = Some items ->
  findIndex (fun i => str_eqb (item_id i) (replace_first name jsonl [])) items
  = Some idx ->
  items !! idx = Some item ->
  trashPath item = join (TRASH_DIR homedir) name ->
  originalPath item
  = relative (PROJECTS_DIR homedir) (session_file homedir slug name).2 ->
  t !! trashPath item = Some (File c) ->
  t !! (session_file homedir slug name).2 = Some (File c0) ->
  exists t',
    restoreSession homedir (replace_first name jsonl []) t
    = (Return (session_file homedir slug name), t') /\
    t' !! (session_file homedir slug name).2 = Some (File c) /\
    t' !! trashPath item = None.
Proof.
  intros Hhome Hfree Hslug Hsfree Hname Hjsonl Hstem Hwf Hj Hfind Hlook Htp
    Hop Hslot Hfile.
  rewrite (session_file_eq homedir Hhome slug name Hslug Hname) in *.
  cbn [snd] in *. rewrite (join_slot homedir Hhome name Hname) in Htp.
  rewrite (relative_file homedir Hhome) in Hop. rewrite Htp in *.
  pose proof (journal_file _ _ _ _ _ Hj Hlook) as Hm.
  rewrite TRASH_MANIFEST_eq in Hm by done.
  destruct (restoreSession_runs homedir Hhome Hfree slug name Hslug Hsfree
              Hname Hjsonl Hstem c items idx item t)
    as (t2 & Hrun & H2f & H2s & _); try done.
  - intros q [k Hk].
    eapply (well_formed_above t q (k ++ [name])); [done| |by destruct k].
    rewrite app_assoc, <- Hk. unfold pdir, below. rewrite <- app_assoc.
    exact Hfile.
  - by rewrite Hfile.
  - intros q [k Hk].
    eapply (well_formed_above t q (k ++ [name])); [done| |by destruct k].
    rewrite app_assoc, <- Hk. unfold trashd, below. rewrite <- app_assoc.
    exact Hslot.
  - by exists t2.
Qed.

Lemma restoreSession_overwrites_witness :
  exists t',
    restoreSession home (replace_first (js "s.jsonl") jsonl []) trashed_and_recreated
    = (Return (session_file home (js "A") (js "s.jsonl")), t') /\
    t' !! (session_file home (js "A") (js "s.jsonl")).2
    = Some (File (Text (js "old"))) /\
    t' !! trashPath (entry (js "s") fileA slot_s) = None.
Proof.
  assert (H1 : plain_path home = true) by (vm_compute; reflexivity).
  assert (H2 : forallb jsonl_free home = true) by (vm_compute; reflexivity).
  assert (H3 : plain (js "A") = true) by (vm_compute; reflexivity).
  assert (H4 : jsonl_free (js "A") = true) by (vm_compute; reflexivity).
  assert (H5 : plain (js "s.jsonl") = true) by (vm_compute; reflexivity).
  assert (H6 : includes (js "s.jsonl") jsonl = true) by (vm_compute; reflexivity).
  assert (H7 : plain (replace_first (js "s.jsonl") jsonl []) = true)
    by (vm_compute; reflexivity).
  assert (H8 : well_formed trashed_and_recreated = true)
    by (vm_compute; reflexivity).
  assert (H9 : journal home trashed_and_recreated
               = Some [entry (js "s") fileA slot_s]) by (vm_compute; reflexivity).
  assert (H10 : findIndex
                  (fun i => str_eqb (item_id i)
                              (replace_first (js "s.jsonl") jsonl []))
                  [entry (js "s") fileA slot_s] = Some 0%nat)
    by (vm_compute; reflexivity).
  assert (H11 : [entry (js "s") fileA slot_s] !! 0%nat
                = Some (entry (js "s") fileA slot_s)) by reflexivity.
  assert (H12 : trashPath (entry (js "s") fileA slot_s)
                = join (TRASH_DIR home) (js "s.jsonl"))
    by (vm_compute; reflexivity).
  assert (H13 : originalPath (entry (js "s") fileA slot_s)
                = relative (PROJECTS_DIR home)
                    (session_file home (js "A") (js "s.jsonl")).2)
    by (vm_compute; reflexivity).
  assert (H14 : trashed_and_recreated !! trashPath (entry (js "s") fileA slot_s)
                = Some (File (Text (js "old")))) by (vm_compute; reflexivity).
  assert (H15 : trashed_and_recreated
                  !! (session_file home (js "A") (js "s.jsonl")).2
                = Some (File (Text (js "aaa")))) by (vm_compute; reflexivity).
  exact (restoreSession_overwrites home (js "A") (js "s.jsonl")
           trashed_and_recreated [entry (js "s") fileA slot_s] 0
           (entry (js "s") fileA slot_s) (Text (js "old")) (Text (js "aaa"))
           H1 H2 H3 H4 H5 H6 H7 H8 H9 H10 H11 H12 H13 H14 H15).
Defined.

Lemma emptyTrash_only_removes_witness :
  (emptyTrash home sample_date 0 2027 stale_entry).2 !! fileA
  = Some (File (Text (js "aaa"))) /\
  stale_entry !! fileA = Some (File (Text (js "aaa"))).
Proof.
  assert (H1 : fileA <> TRASH_MANIFEST home)
    by (intros E; by vm_compute in E).
  assert (H2 : (emptyTrash home sample_date 0 2027 stale_entry).2 !! fileA
               = Some (File (Text (js "aaa")))) by (vm_compute; reflexivity).
  split; [exact H2|].
  exact (emptyTrash_only_removes home sample_date 0 2027 stale_entry fileA
           (Text (js "aaa")) H1 H2).
Defined.

Lemma deleteFromTrash_only_removes_witness :
  (deleteFromTrash home (js "ab") two_trashed).2
    !! (TRASH_DIR home ++ [js "abd2.jsonl"])
  = Some (File (Text (js "two"))) /\
  two_trashed !! (TRASH_DIR home ++ [js "abd2.jsonl"])
  = Some (File (Text (js "two"))).
Proof.
  assert (H1 : TRASH_DIR home ++ [js "abd2.jsonl"] <> TRASH_MANIFEST home)
    by (intros E; by vm_compute in E).
  assert (H2 : (deleteFromTrash home (js "ab") two_trashed).2
                 !! (TRASH_DIR home ++ [js "abd2.jsonl"])
               = Some (File (Text (js "two")))) by (vm_compute; reflexivity).
  split; [exact H2|].
  exact (deleteFromTrash_only_removes home (js "ab") two_trashed
           (TRASH_DIR home ++ [js "abd2.jsonl"]) (Text (js "two")) H1 H2).
Defined.

Lemma replace_in_path_at (pre : list jsstring) (c : jsstring) (rest : list jsstring)
  (pattern : jsstring) :
  forallb (fun x => negb (includes x pattern)) pre = true ->
  includes c pattern = true ->
  replace_in_path (pre ++ c :: rest) pattern
  = pre ++ replace_first c pattern [] :: rest.
Proof.
  intros Hpre Hc. induction pre as [|x pre IH]; cbn [replace_in_path app].
  - by rewrite Hc.
  - cbn in Hpre. apply andb_true_iff in Hpre as [Hx Hpre].
    apply negb_true_iff in Hx. rewrite Hx. by rewrite IH.
Qed.

(** X28.  The companion directory is found by taking the first '.jsonl'
    out of the whole path.  For a project whose directory name holds
    '.jsonl' that occurrence lies in the directory name: the path
    [trashSession] looks at keeps the file name with its extension and
    changes the project directory, and it is not the directory that sits
    beside the session file. *)
Theorem companion_of_dotted_project (homedir : path) (slug name : jsstring) :
  plain_path homedir = true -> forallb jsonl_free homedir = true ->
  plain slug = true -> plain name = true -> includes slug jsonl = true ->
  let session := session_file homedir slug name in
  replace_in_path session.2 jsonl
  = PROJECTS_DIR homedir ++ [replace_first slug jsonl []; name] /\
  replace_in_path session.2 jsonl
  <> PROJECTS_DIR homedir ++ [slug; session.1].
Proof.
  intros Hhome Hfree Hslug Hname Hin. cbv zeta.
  rewrite (session_file_eq homedir Hhome slug name Hslug Hname). cbn [fst snd].
  rewrite (PROJECTS_DIR_eq homedir Hhome). unfold file, below.
  assert (E : replace_in_path
                (homedir ++ [js ".claude"; js "projects"; slug; name]) jsonl
              = (homedir ++ [js ".claude"; js "projects"])
                ++ [replace_first slug jsonl []; name]).
  { change (homedir ++ [js ".claude"; js "projects"; slug; name])
      with (homedir ++ [js ".claude"; js "projects"] ++ slug :: [name]).
    rewrite app_assoc. apply replace_in_path_at; [|done].
    rewrite forallb_app. fold jsonl_free. rewrite Hfree. by vm_compute. }
  rewrite E. split; [done|]. intros H. apply app_inv_head in H.
  injection H as H _.
  by apply (replace_first_changes slug jsonl) in H.
Qed.

Lemma companion_of_dotted_project_witness :
  let session := session_file home (js "my.jsonl-tools") (js "s.jsonl") in
  replace_in_path session.2 jsonl
  = PROJECTS_DIR home ++ [replace_first (js "my.jsonl-tools") jsonl []; js "s.jsonl"] /\
  replace_in_path session.2 jsonl
  <> PROJECTS_DIR home ++ [js "my.jsonl-tools"; session.1].
Proof.
  exact (companion_of_dotted_project home (js "my.jsonl-tools") (js "s.jsonl")
           eq_refl eq_refl eq_refl eq_refl eq_refl).
Defined.

End CleanupProps.
